(** * Bidirectional synchronisation of the dual-pane markdown editor

    A shallow embedding of the synchronisation code of the editor:

    - the [SyncManager] class (sync-manager.js) together with the two surface
      wrappers it drives (codemirror-setup.js and milkdown-setup.js);
    - the single-file application (the main.js that holds both editors) with
      its [syncManager] object, [syncToMilkdown] and [syncToCodeMirror].

    JavaScript timers are modelled by an explicit queue of pending callbacks
    and an event loop that fires them in order of their due time. *)

From Stdlib Require Import ZArith QArith Qround List Bool Lia.
Import ListNotations.
Open Scope Z_scope.

(** A list is read from the type it is expected to have, so that an element
    can be written the way it is written in the source. *)
Arguments cons {A}%_type & a l%_list.
Arguments app {A}%_type & (l m)%_list.
(** ** JavaScript strings

    A string is its sequence of UTF-16 code units; [substring], [split] and
    [length] all work on code units. *)
Module JS.

Definition code_unit := Z.
Definition jsstring := list code_unit.

(** The code unit of ['\n']. *)
Definition LF : code_unit := 10.

Definition length (s : jsstring) : Z := Z.of_nat (List.length s).

(** [s.substring(0, e)]: a negative end counts as 0, an end past the string
    as its length. *)
Definition substring0 (s : jsstring) (e : Z) : jsstring :=
  firstn (Z.to_nat e) s.

(** [s.substring(b)]. *)
Definition substring_from (s : jsstring) (b : Z) : jsstring :=
  skipn (Z.to_nat b) s.

(** [s.split('\n')]: never empty, the empty string gives one empty line. *)
Fixpoint split_LF (s : jsstring) : list jsstring :=
  match s with
  | [] => [[]]
  | c :: r =>
      if c =? LF then [] :: split_LF r
      else match split_LF r with
           | [] => [[c]]
           | l :: ls => (c :: l) :: ls
           end
  end.

(** [a.length] of an array. *)
Definition alength {A} (a : list A) : Z := Z.of_nat (List.length a).

(** [a.pop()] read as a value: the last element, [undefined] on an empty
    array. *)
Definition pop {A} (a : list A) : option A :=
  match a with
  | [] => None
  | x :: r => Some (last r x)
  end.

(** [a[i]]: [undefined] out of range. *)
Definition index {A} (a : list A) (i : Z) : option A :=
  if i <? 0 then None else nth_error a (Z.to_nat i).

(** [x?.length || 0]. *)
Definition length_or_0 (x : option jsstring) : Z :=
  match x with
  | None => 0
  | Some l => if length l =? 0 then 0 else length l
  end.

Fixpoint eqb (a b : jsstring) : bool :=
  match a, b with
  | [], [] => true
  | x :: a', y :: b' => (x =? y) && eqb a' b'
  | _, _ => false
  end.

End JS.

Import JS.


(** ** The text of a CodeMirror document

    CodeMirror keeps a document as lines: the text of a document created
    from a string, or inserted by a change, is split at every CR LF, CR and
    LF, and [doc.toString()] joins the lines with LF. *)
Module CodeMirror.

Definition CR : code_unit := 13.

(** The string a document made from [s] gives back. *)
Fixpoint toText (s : jsstring) : jsstring :=
  match s with
  | [] => []
  | c :: r =>
      if c =? CR then
        match r with
        | c' :: r' => if c' =? LF then LF :: toText r' else LF :: toText r
        | [] => [LF]
        end
      else c :: toText r
  end.

End CodeMirror.

(** ** Double precision

    A JavaScript number is an IEEE 754 binary64 value: a quotient and a
    product are the exact results rounded to the nearest value with a
    significand of 53 bits, ties to the even one. The values are kept as
    rationals. The overflow to an infinity, which needs a magnitude of
    [2^1024], is left out: the numbers here come from lengths and offsets of
    texts. *)
Module Float.

(** The integer nearest to [num / den], ties to the even one; [den > 0]. *)
Definition nearest_even (num den : Z) : Z :=
  let f := num / den in
  match 2 * (num mod den) ?= den with
  | Lt => f
  | Gt => f + 1
  | Eq => if Z.even f then f else f + 1
  end.

(** [a / (d * 2^e)] as a fraction. *)
Definition scaled (a d e : Z) : Z * Z :=
  if 0 <=? e then (a, d * 2 ^ e) else (a * 2 ^ (- e), d).

(** The exponent of the last place of [a / d], for [a, d > 0]: the [e] with
    [2^52 <= a / (d * 2^e) < 2^53], and [-1074] for the subnormal numbers. *)
Definition exponent (a d : Z) : Z :=
  let e1 := Z.log2 a - Z.log2 d - 52 in
  let (n1, d1) := scaled a d e1 in
  Z.max (if 2 ^ 52 <=? n1 / d1 then e1 else e1 - 1) (-1074).

Definition round_pos (a d : Z) : Q :=
  let e := exponent a d in
  let (n, dd) := scaled a d e in
  let m := nearest_even n dd in
  if 0 <=? e then inject_Z (m * 2 ^ e) else Qmake m (Z.to_pos (2 ^ (- e))).

(** The double nearest to [q], in lowest terms. *)
Definition double (q : Q) : Q :=
  Qred
    match Qnum q with
    | 0 => 0%Q
    | Zpos p => round_pos (Zpos p) (Zpos (Qden q))
    | Zneg p => Qopp (round_pos (Zpos p) (Zpos (Qden q)))
    end.

End Float.
(** ** Cursor translation of the SyncManager class *)

(** The body of the [for] loop of [calculateApproximatePosition], run over the
    indices [idx]; [lines[i].length] on a missing line is a TypeError
    ([None]). *)
Fixpoint sum_lines (lines : list jsstring) (idx : list nat) (acc : Z)
  : option Z :=
  match idx with
  | [] => Some acc
  | i :: idx' =>
      match nth_error lines i with
      | None => None
      | Some l => sum_lines lines idx' (acc + JS.length l + 1)
      end
  end.

Definition calculateApproximatePosition (content : jsstring) (position : Z)
  : option Z :=
  let textBeforeCursor := substring0 content position in
  let linesBeforeCursor := alength (split_LF textBeforeCursor) in
  match pop (split_LF textBeforeCursor) with
  | None => None
  | Some lastLine =>
      let lastLineLength := JS.length lastLine in
      let lines := split_LF content in
      let bound := Z.min (linesBeforeCursor - 1) (alength lines) in
      match sum_lines lines (seq 0 (Z.to_nat bound)) 0 with
      | None => None
      | Some approximatePos =>
          let approximatePos :=
            if linesBeforeCursor <=? alength lines then
              approximatePos
              + Z.min lastLineLength
                  (length_or_0 (index lines (linesBeforeCursor - 1)))
            else approximatePos in
          Some (Z.min approximatePos (JS.length content))
      end
  end.

(** [getCommonPrefixLength]: the [while] loop advances while both strings have
    a code unit at [i] and the two are equal. *)
Fixpoint getCommonPrefixLength (str1 str2 : jsstring) : Z :=
  match str1, str2 with
  | x :: r1, y :: r2 =>
      if x =? y then 1 + getCommonPrefixLength r1 r2 else 0
  | _, _ => 0
  end.

(** [getCommonSuffixLength] compares from the last code unit backwards: the
    common prefix of the two reversed strings. *)
Definition getCommonSuffixLength (str1 str2 : jsstring) : Z :=
  getCommonPrefixLength (rev str1) (rev str2).

(** [Math.round] on a rational: the nearest integer, halves upwards. *)
Definition Math_round (x : Q) : Z := Qfloor (x + (1 # 2)).

(** [adjustCursorPosition]; the quotient and the product of the last branch
    are doubles, the sums and differences of offsets are exact. *)
Definition adjustCursorPosition (oldContent newContent : jsstring)
  (oldPosition : Z) : Z :=
  if JS.eqb oldContent newContent then oldPosition
  else
    let commonPrefixLength := getCommonPrefixLength oldContent newContent in
    if oldPosition <=? commonPrefixLength then oldPosition
    else
      let commonSuffixLength :=
        getCommonSuffixLength
          (substring_from oldContent commonPrefixLength)
          (substring_from newContent commonPrefixLength) in
      let oldEndPosition := JS.length oldContent - commonSuffixLength in
      if oldPosition >=? oldEndPosition then
        let offset := JS.length oldContent - oldPosition in
        Z.max 0 (JS.length newContent - offset)
      else
        let ratio :=
          Float.double
            (inject_Z (oldPosition - commonPrefixLength)
             / inject_Z (oldEndPosition - commonPrefixLength))%Q in
        let newEndPosition := JS.length newContent - commonSuffixLength in
        let newPosition :=
          commonPrefixLength
          + Math_round
              (Float.double
                 (ratio * inject_Z (newEndPosition - commonPrefixLength))%Q) in
        Z.min (Z.max 0 newPosition) (JS.length newContent).
(** ** JavaScript numbers of the fractional cursor mapping

    The finite values are the doubles of [Float], as rationals; the special
    values of a division by zero are kept, so that an unguarded division
    shows. *)
Module Num.

Inductive number :=
| Fin (q : Q)
| PosInf
| NegInf
| NaN.

Definition of_int (z : Z) : number := Fin (inject_Z z).

(** [a / b] on two integers. *)
Definition divide (a b : Z) : number :=
  if b =? 0 then
    if a =? 0 then NaN else if 0 <? a then PosInf else NegInf
  else Fin (Float.double (inject_Z a / inject_Z b)).

(** [x * n] for an integer [n]. *)
Definition times (x : number) (n : Z) : number :=
  match x with
  | Fin q => Fin (Float.double (q * inject_Z n))
  | PosInf => if n =? 0 then NaN else if 0 <? n then PosInf else NegInf
  | NegInf => if n =? 0 then NaN else if 0 <? n then NegInf else PosInf
  | NaN => NaN
  end.

(** [Math.round(x)]. *)
Definition round (x : number) : number :=
  match x with
  | Fin q => Fin (inject_Z (Math_round q))
  | other => other
  end.

(** [Math.min(x, n)] for an integer [n]. *)
Definition min_int (x : number) (n : Z) : number :=
  match x with
  | Fin q => if Qle_bool q (inject_Z n) then Fin q else Fin (inject_Z n)
  | PosInf => Fin (inject_Z n)
  | NegInf => NegInf
  | NaN => NaN
  end.

(** [x === y]. *)
Definition strict_eq (x y : number) : bool :=
  match x, y with
  | Fin p, Fin q => Qeq_bool p q
  | PosInf, PosInf => true
  | NegInf, NegInf => true
  | _, _ => false
  end.

(** A number used as a document position: an integer, or no position at
    all. *)
Definition as_int (x : number) : option Z :=
  match x with
  | Fin q => if Qeq_bool q (inject_Z (Qfloor q)) then Some (Qfloor q) else None
  | _ => None
  end.

Definition is_finite (x : number) : bool :=
  match x with Fin _ => true | _ => false end.

End Num.

(** The selection saved as a fraction of the document:
    [docSize > 0 ? from / docSize : 0]. *)
Definition relative (pos docSize : Z) : Num.number :=
  if docSize >? 0 then Num.divide pos docSize else Num.of_int 0.

(** The selection restored in the new document:
    [Math.min(Math.round(relative * newDocSize), newDocSize)]. *)
Definition restored (rel : Num.number) (newDocSize : Z) : Num.number :=
  Num.min_int (Num.round (Num.times rel newDocSize)) newDocSize.

(** ** Timers

    [setTimeout] and [clearTimeout] over a queue of pending callbacks; a
    callback is the data of its closure. *)
Module Timers.

Section Queue.

Variable C : Type.

Record timer := { t_id : Z; t_due : Z; t_cb : C }.

Record clock := { now : Z; next_id : Z; pending : list timer }.

Definition start : clock := {| now := 0; next_id := 1; pending := [] |}.

(** [setTimeout(cb, delay)]: returns the handle; a negative delay counts
    as 0. *)
Definition setTimeout (cb : C) (delay : Z) (k : clock) : Z * clock :=
  (next_id k,
   {| now := now k;
      next_id := next_id k + 1;
      pending := pending k
                 ++ [{| t_id := next_id k;
                        t_due := now k + Z.max 0 delay;
                        t_cb := cb |}] |}).

Definition drop (id : Z) (l : list timer) : list timer :=
  filter (fun t => negb (t_id t =? id)) l.

(** [clearTimeout(handle)]: nothing happens on [null] and on the handle of a
    timer that is no longer pending. *)
Definition clearTimeout (handle : option Z) (k : clock) : clock :=
  match handle with
  | None => k
  | Some id =>
      {| now := now k; next_id := next_id k; pending := drop id (pending k) |}
  end.

(** The pending timer that fires first: the least due time, the earlier
    [setTimeout] among equal ones. *)
Fixpoint earliest (l : list timer) : option timer :=
  match l with
  | [] => None
  | t :: r =>
      match earliest r with
      | None => Some t
      | Some u => if t_due u <? t_due t then Some u else Some t
      end
  end.

Definition next_due (deadline : Z) (k : clock) : option timer :=
  match earliest (pending k) with
  | Some t => if t_due t <=? deadline then Some t else None
  | None => None
  end.

(** The clock at the moment timer [t] fires. *)
Definition fired (t : timer) (k : clock) : clock :=
  {| now := Z.max (now k) (t_due t);
     next_id := next_id k;
     pending := drop (t_id t) (pending k) |}.

Definition elapsed (deadline : Z) (k : clock) : clock :=
  {| now := Z.max (now k) deadline;
     next_id := next_id k;
     pending := pending k |}.

End Queue.

Arguments Build_timer {C} & _ _ _.
Arguments t_id {C} _.
Arguments t_due {C} _.
Arguments t_cb {C} _.
Arguments now {C} _.
Arguments next_id {C} _.
Arguments pending {C} _.
Arguments start {C}.
Arguments setTimeout {C} _ _ _.
Arguments drop {C} _ _.
Arguments clearTimeout {C} _ _.
Arguments earliest {C} _.
Arguments next_due {C} _ _.
Arguments fired {C} _ _.
Arguments elapsed {C} _ _.

End Timers.

(** ** Exceptions over a mutable world

    A computation changes the world and either returns or throws; what it
    changed before it threw stays changed. *)
Module Eff.

Inductive outcome (A : Type) :=
| Ok (a : A)
| Thrown.

Arguments Ok {A} _.
Arguments Thrown {A}.

Definition M (W A : Type) : Type := W -> outcome A * W.

Definition ret {W A} (a : A) : M W A := fun w => (Ok a, w).

Definition throw {W A} : M W A := fun w => (Thrown, w).

Definition bind {W A B} (c : M W A) (k : A -> M W B) : M W B :=
  fun w =>
    match c w with
    | (Ok a, w') => k a w'
    | (Thrown, w') => (Thrown, w')
    end.

(** A statement that cannot throw. *)
Definition exec {W} (f : W -> W) : M W unit := fun w => (Ok tt, f w).

Definition read {W A} (f : W -> A) : M W A := fun w => (Ok (f w), w).

(** [try { body } finally { cleanup }]. *)
Definition try_finally {W A} (body : M W A) (cleanup : M W unit) : M W A :=
  fun w =>
    let (r, w1) := body w in
    match cleanup w1 with
    | (Ok _, w2) => (r, w2)
    | (Thrown, w2) => (Thrown, w2)
    end.

(** [try { body } catch (error) { handler } finally { cleanup }]. *)
Definition try_catch_finally {W} (body handler cleanup : M W unit)
  : M W unit :=
  try_finally
    (fun w =>
       match body w with
       | (Ok _, w1) => (Ok tt, w1)
       | (Thrown, w1) => handler w1
       end)
    cleanup.

Definition returns {A} (r : outcome A) : bool :=
  match r with Ok _ => true | Thrown => false end.

End Eff.

Declare Scope eff_scope.
Delimit Scope eff_scope with eff.
Notation "x <- c ;; k" := (Eff.bind c (fun x => k))
  (at level 61, c at next level, right associativity) : eff_scope.
Notation "c ;;; k" := (Eff.bind c (fun _ => k))
  (at level 61, right associativity) : eff_scope.

(** ** The engines behind the two surfaces

    The markdown parser and serializer of Milkdown, the size and the equality
    of ProseMirror documents and the way the two editors map a selection
    through a replacement are not part of the sources: they are the interface
    the synchronisation code is written against. *)
Inductive parsed (D : Type) :=
| ParseError            (* the parser throws *)
| NoDoc                 (* the parser returns null *)
| Parsed (d : D).

Arguments ParseError {D}.
Arguments NoDoc {D}.
Arguments Parsed {D} _.

Class Engine := {
  Doc : Type;
  (** [doc.content.size] *)
  size : Doc -> Z;
  (** [ctx.get(parserCtx)] *)
  parser : jsstring -> parsed Doc;
  (** [ctx.get(serializerCtx)]; [None] when it throws *)
  serializer : Doc -> option jsstring;
  (** [prevDoc.eq(doc)] *)
  sameDoc : Doc -> Doc -> bool;
  (** [Selection.near(doc.resolve(pos))] as [(from, to)] *)
  near : Doc -> Z -> Z * Z;
  (** the ProseMirror selection after the whole content was replaced *)
  mapSelection : Doc -> Doc -> Z * Z -> Z * Z;
  (** the CodeMirror cursor after the whole text was replaced *)
  mapPos : jsstring -> jsstring -> Z -> Z;
  (** whether [schema.nodes.doc.createAndFill()] yields a document *)
  createAndFill : bool
}.

(** ** The SyncManager class and its two surfaces *)
Module SyncManager.

Import Eff.

Inductive source := codemirror | milkdown.

(** Where a change notification comes from: an edit of the user, or the
    dispatch of a programmatic replace. The code has no such mark; it is
    carried along for the statements only and nothing branches on it. *)
Inductive origin := User | Programmatic.

(** The text of the [#sync-status] element. *)
Inductive status_t := ready | syncing | error.

(** The closures the sources hand to [setTimeout]. *)
Inductive callback :=
| sync_to_milkdown (content : jsstring) (o : origin)
| sync_to_codemirror (content : jsstring) (o : origin)
| release
| internal_release.

Definition is_sync (cb : callback) : bool :=
  match cb with
  | sync_to_milkdown _ _ | sync_to_codemirror _ _ => true
  | _ => false
  end.

Definition is_release (cb : callback) : bool :=
  match cb with release => true | _ => false end.

Section Model.

Context {E : Engine}.

(** What a timer runs: a closure of the sources, or the handler that the
    listener plugin of Milkdown debounces for a transaction that changed the
    document to [d]. *)
Inductive task :=
| closure (cb : callback)
| notification (d : Doc) (o : origin).

#[global] Coercion closure : callback >-> task.

Definition is_sync_task (k : task) : bool :=
  match k with closure cb => is_sync cb | notification _ _ => false end.

Definition is_release_task (k : task) : bool :=
  match k with closure cb => is_release cb | notification _ _ => false end.

Definition is_notification (k : task) : bool :=
  match k with notification _ _ => true | closure _ => false end.

(** The handler of the listener plugin runs 200 ms after its transaction. *)
Definition listener_delay : Z := 200.

(** What the surfaces and the critical section were asked to do, in order. *)
Inductive event :=
| Sync (from : source) (content : jsstring) (o : origin)
| CmChanges (insert : jsstring)
| CmSelection (pos : Z)
| MdReplace (d : Doc)
| MdSelection (sel : Z * Z).

Record manager := {
  isUpdating : bool;
  lastSource : option source;
  debounceTimer : option Z;
  codemirrorEditor : bool;       (* false: null *)
  milkdownEditor : bool;         (* false: null *)
  syncDelay : Z
}.

Record cm_view := { cm_doc : jsstring; cm_head : Z }.

(** The Milkdown editor with the variable [isInternalUpdate] of its wrapper
    and the two variables of its listener plugin: the document of the last
    handler that ran and the markdown of the last announcement. *)
Record md_view := {
  md_doc : Doc;
  md_selection : Z * Z;
  isInternalUpdate : bool;
  prevDoc : Doc;
  prevMarkdown : option jsstring
}.

Record world := {
  this : manager;
  cm : cm_view;
  md : md_view;
  clk : Timers.clock task;
  status : status_t;
  log : list event
}.

Definition M := Eff.M world.

(** *** Field updates *)

Definition set_this (m : manager) (w : world) : world :=
  {| this := m; cm := cm w; md := md w; clk := clk w;
     status := status w; log := log w |}.

Definition set_isUpdating (b : bool) (w : world) : world :=
  let m := this w in
  set_this {| isUpdating := b; lastSource := lastSource m;
              debounceTimer := debounceTimer m;
              codemirrorEditor := codemirrorEditor m;
              milkdownEditor := milkdownEditor m;
              syncDelay := syncDelay m |} w.

Definition set_lastSource (s : option source) (w : world) : world :=
  let m := this w in
  set_this {| isUpdating := isUpdating m; lastSource := s;
              debounceTimer := debounceTimer m;
              codemirrorEditor := codemirrorEditor m;
              milkdownEditor := milkdownEditor m;
              syncDelay := syncDelay m |} w.

Definition set_debounceTimer (h : option Z) (w : world) : world :=
  let m := this w in
  set_this {| isUpdating := isUpdating m; lastSource := lastSource m;
              debounceTimer := h;
              codemirrorEditor := codemirrorEditor m;
              milkdownEditor := milkdownEditor m;
              syncDelay := syncDelay m |} w.

Definition set_editors (c d : bool) (w : world) : world :=
  let m := this w in
  set_this {| isUpdating := isUpdating m; lastSource := lastSource m;
              debounceTimer := debounceTimer m;
              codemirrorEditor := c;
              milkdownEditor := d;
              syncDelay := syncDelay m |} w.

Definition set_syncDelay (d : Z) (w : world) : world :=
  let m := this w in
  set_this {| isUpdating := isUpdating m; lastSource := lastSource m;
              debounceTimer := debounceTimer m;
              codemirrorEditor := codemirrorEditor m;
              milkdownEditor := milkdownEditor m;
              syncDelay := d |} w.

Definition set_cm (v : cm_view) (w : world) : world :=
  {| this := this w; cm := v; md := md w; clk := clk w;
     status := status w; log := log w |}.

Definition set_md (v : md_view) (w : world) : world :=
  {| this := this w; cm := cm w; md := v; clk := clk w;
     status := status w; log := log w |}.

Definition set_isInternalUpdate (b : bool) (w : world) : world :=
  set_md {| md_doc := md_doc (md w); md_selection := md_selection (md w);
            isInternalUpdate := b;
            prevDoc := prevDoc (md w); prevMarkdown := prevMarkdown (md w) |} w.

Definition set_prev (d : Doc) (markdown : option jsstring) (w : world)
  : world :=
  set_md {| md_doc := md_doc (md w); md_selection := md_selection (md w);
            isInternalUpdate := isInternalUpdate (md w);
            prevDoc := d; prevMarkdown := markdown |} w.

Definition set_clk (k : Timers.clock task) (w : world) : world :=
  {| this := this w; cm := cm w; md := md w; clk := k;
     status := status w; log := log w |}.

Definition emit (e : event) (w : world) : world :=
  {| this := this w; cm := cm w; md := md w; clk := clk w;
     status := status w; log := log w ++ [e] |}.

(** [setTimeout(cb, delay)] in the world. *)
Definition schedule (k : task) (delay : Z) (w : world) : Z * world :=
  let (id, c) := Timers.setTimeout k delay (clk w) in (id, set_clk c w).

(** *** sync-manager.js *)

(** [constructor()]. *)
Definition constructor : manager :=
  {| isUpdating := false; lastSource := None; debounceTimer := None;
     codemirrorEditor := false; milkdownEditor := false; syncDelay := 500 |}.

(** [init(codemirrorEditor, milkdownEditor)]. *)
Definition init (w : world) : world := set_editors true true w.

(** [updateStatus(status)]. *)
Definition updateStatus (s : status_t) (w : world) : world :=
  {| this := this w; cm := cm w; md := md w; clk := clk w;
     status := s; log := log w |}.

(** [handleCodeMirrorChange(content)]: the part that runs at once. *)
Definition handleCodeMirrorChange (content : jsstring) (o : origin)
  (w : world) : world :=
  if isUpdating (this w) then w
  else
    let w := set_clk (Timers.clearTimeout (debounceTimer (this w)) (clk w)) w in
    let w := updateStatus syncing w in
    let (id, w) :=
      schedule (sync_to_milkdown content o) (syncDelay (this w)) w in
    set_debounceTimer (Some id) w.

(** [handleMilkdownChange(content)]: the part that runs at once. *)
Definition handleMilkdownChange (content : jsstring) (o : origin)
  (w : world) : world :=
  if isUpdating (this w) then w
  else
    let w := set_clk (Timers.clearTimeout (debounceTimer (this w)) (clk w)) w in
    let w := updateStatus syncing w in
    let (id, w) :=
      schedule (sync_to_codemirror content o) (syncDelay (this w)) w in
    set_debounceTimer (Some id) w.

(** [destroy()]. *)
Definition destroy (w : world) : world :=
  let w := set_clk (Timers.clearTimeout (debounceTimer (this w)) (clk w)) w in
  set_editors false false w.

(** *** codemirror-setup.js: the object returned by initializeCodeMirror *)

(** [view.dispatch({changes: {from: 0, to: length, insert: content}})]: the
    document becomes the lines of [content]; the update listener runs inside
    the dispatch with the text of the new document, and its [onChange] is
    the closure of main.js that calls [handleCodeMirrorChange]. *)
Definition cm_dispatch_changes (content : jsstring) (o : origin) : M unit :=
  exec (fun w =>
    let v := cm w in
    let text := CodeMirror.toText content in
    let w := set_cm {| cm_doc := text;
                       cm_head := mapPos (cm_doc v) text (cm_head v) |} w in
    let w := emit (CmChanges content) w in
    handleCodeMirrorChange text o w).

Definition cm_getContent : M jsstring := read (fun w => cm_doc (cm w)).

Definition cm_setContent (content : jsstring) : M unit :=
  (currentContent <- cm_getContent ;;
   if JS.eqb currentContent content then ret tt
   else cm_dispatch_changes content Programmatic)%eff.

Definition cm_getCursorPosition : M Z := read (fun w => cm_head (cm w)).

(** [view.dispatch({selection: {anchor: pos, head: pos}})]; CodeMirror throws
    a RangeError on a selection outside the document. *)
Definition cm_setCursorPosition (pos : Z) : M unit :=
  fun w =>
    if (0 <=? pos) && (pos <=? JS.length (cm_doc (cm w))) then
      (Ok tt,
       emit (CmSelection pos)
         (set_cm {| cm_doc := cm_doc (cm w); cm_head := pos |} w))
    else (Thrown, w).

(** *** milkdown-setup.js: the object returned by initializeMilkdown *)

(** [markdown !== prevMarkdown]. *)
Definition differs (markdown : jsstring) (prevMarkdown : option jsstring)
  : bool :=
  match prevMarkdown with
  | Some p => negb (JS.eqb markdown p)
  | None => true
  end.

(** The [markdownUpdated] listener; its [onChange] is the closure of main.js
    that calls [handleMilkdownChange]. *)
Definition md_listener (markdown : jsstring) (prevMarkdown : option jsstring)
  (o : origin) (w : world) : world :=
  if negb (isInternalUpdate (md w)) && differs markdown prevMarkdown
  then handleMilkdownChange markdown o w
  else w.

(** [view.dispatch(tr)] of a transaction that replaces the document: the
    state is updated at once, and the listener plugin starts the 200 ms of
    the handler that will announce the document of the transaction. *)
Definition md_dispatch_replace (d : Doc) (o : origin) : M unit :=
  exec (fun w =>
    let v := md w in
    let w := set_md {| md_doc := d;
                       md_selection := mapSelection (md_doc v) d (md_selection v);
                       isInternalUpdate := isInternalUpdate v;
                       prevDoc := prevDoc v;
                       prevMarkdown := prevMarkdown v |} w in
    let w := emit (MdReplace d) w in
    snd (schedule (notification d o) listener_delay w)).

(** The handler of the listener plugin for a transaction with document [d],
    when its 200 ms have passed: a document equal to the one of the handler
    that ran before is not announced; otherwise it is serialized and handed
    to the [markdownUpdated] listener with the markdown of the last
    announcement. *)
Definition run_notification (d : Doc) (o : origin) : M unit :=
  fun w =>
    let v := md w in
    if sameDoc (prevDoc v) d then (Ok tt, set_prev d (prevMarkdown v) w)
    else
      match serializer d with
      | None => (Thrown, w)
      | Some markdown =>
          (Ok tt,
           set_prev d (Some markdown)
             (md_listener markdown (prevMarkdown v) o w))
      end.

Definition md_setContent (content : jsstring) : M unit :=
  (exec (set_isInternalUpdate true) ;;;
   try_finally
     (match parser content with
      | ParseError => throw
      | NoDoc => ret tt
      | Parsed doc => md_dispatch_replace doc Programmatic
      end)
     (exec (fun w => snd (schedule internal_release 100 w))))%eff.

(** [setCursorPosition(pos)]; [doc.resolve] throws a RangeError on a negative
    position. The transaction changes the selection only, and the listener
    plugin starts no handler for it. *)
Definition md_setCursorPosition (pos : Z) : M unit :=
  fun w =>
    let p := Z.min pos (size (md_doc (md w))) in
    if p <? 0 then (Thrown, w)
    else
      let sel := near (md_doc (md w)) p in
      (Ok tt,
       emit (MdSelection sel)
         (set_md {| md_doc := md_doc (md w); md_selection := sel;
                    isInternalUpdate := isInternalUpdate (md w);
                    prevDoc := prevDoc (md w);
                    prevMarkdown := prevMarkdown (md w) |} w)).

(** *** The debounced callbacks *)

(** A method call on [this.codemirrorEditor] or [this.milkdownEditor]: a
    TypeError when the field is null. *)
Definition on_editor {A} (field : manager -> bool) (c : M A) : M A :=
  fun w => if field (this w) then c w else (Thrown, w).

(** The [finally] block of both callbacks. *)
Definition release_later : M unit :=
  exec (fun w => snd (schedule release 100 w)).

(** The arrow function of [handleCodeMirrorChange]. The awaited call settles
    before any other timer or event is served, so the callback runs as one
    piece. [updateWordCount] writes to the status bar only and is left out;
    the [Sync] event marks the entry into the critical section. *)
Definition run_sync_to_milkdown (content : jsstring) (o : origin) : M unit :=
  fun w =>
    match lastSource (this w) with
    | Some milkdown =>
        (Ok tt, updateStatus ready (set_lastSource None w))
    | _ =>
        let w := set_isUpdating true w in
        let w := set_lastSource (Some codemirror) w in
        let w := emit (Sync codemirror content o) w in
        try_catch_finally
          (cursorPos <- on_editor codemirrorEditor cm_getCursorPosition ;;
           on_editor milkdownEditor (md_setContent content) ;;;
           match calculateApproximatePosition content cursorPos with
           | None => throw
           | Some approximatePos =>
               (if approximatePos >=? 0
                then on_editor milkdownEditor
                       (md_setCursorPosition approximatePos)
                else ret tt) ;;;
               exec (updateStatus ready)
           end)%eff
          (exec (updateStatus error))
          release_later
          w
    end.

(** The arrow function of [handleMilkdownChange]. *)
Definition run_sync_to_codemirror (content : jsstring) (o : origin) : M unit :=
  fun w =>
    match lastSource (this w) with
    | Some codemirror =>
        (Ok tt, updateStatus ready (set_lastSource None w))
    | _ =>
        let w := set_isUpdating true w in
        let w := set_lastSource (Some milkdown) w in
        let w := emit (Sync milkdown content o) w in
        try_catch_finally
          (currentContent <- on_editor codemirrorEditor cm_getContent ;;
           (if negb (JS.eqb currentContent content) then
              cursorPos <- on_editor codemirrorEditor cm_getCursorPosition ;;
              on_editor codemirrorEditor (cm_setContent content) ;;;
              on_editor codemirrorEditor
                (cm_setCursorPosition
                   (adjustCursorPosition currentContent content cursorPos))
            else ret tt) ;;;
           exec (updateStatus ready))%eff
          (exec (updateStatus error))
          release_later
          w
    end.

(** The two inner timers of 100 ms. *)
Definition run_release : M unit :=
  exec (fun w => set_lastSource None (set_isUpdating false w)).

Definition run_internal_release : M unit :=
  exec (set_isInternalUpdate false).

Definition run_callback (cb : callback) : M unit :=
  match cb with
  | sync_to_milkdown content o => run_sync_to_milkdown content o
  | sync_to_codemirror content o => run_sync_to_codemirror content o
  | release => run_release
  | internal_release => run_internal_release
  end.

(** *** The event loop *)

Definition run_task (k : task) : M unit :=
  match k with
  | closure cb => run_callback cb
  | notification d o => run_notification d o
  end.

(** Timer [t] fires: it leaves the queue, the clock moves to its due time and
    its callback runs; an exception that escapes the callback does not stop
    the loop. *)
Definition fire (t : Timers.timer task) (w : world) : outcome unit * world :=
  run_task (Timers.t_cb t) (set_clk (Timers.fired t (clk w)) w).

Fixpoint fire_due (fuel : nat) (deadline : Z) (w : world) : world :=
  match fuel with
  | O => w
  | S fuel' =>
      match Timers.next_due deadline (clk w) with
      | None => w
      | Some t => fire_due fuel' deadline (snd (fire t w))
      end
  end.

(** The timers a timer can lead to, itself included: a release none, the
    callback of [handleMilkdownChange] its release, the handler of the
    listener plugin that callback, and the callback of
    [handleCodeMirrorChange] such a handler and two releases. *)
Definition weight (k : task) : nat :=
  match k with
  | closure (sync_to_milkdown _ _) => 6%nat
  | notification _ _ => 3%nat
  | closure (sync_to_codemirror _ _) => 2%nat
  | closure _ => 1%nat
  end.

Definition total_weight (l : list (Timers.timer task)) : nat :=
  fold_right (fun t n => (weight (Timers.t_cb t) + n)%nat) 0%nat l.

(** [dt] milliseconds pass with no input: every timer due by then fires. *)
Definition advance (dt : Z) (w : world) : world :=
  let deadline := Timers.now (clk w) + Z.max 0 dt in
  let w' := fire_due (total_weight (Timers.pending (clk w))) deadline w in
  set_clk (Timers.elapsed deadline (clk w')) w'.

(** *** What happens to the editor pair *)

Inductive input :=
| UserTypes (content : jsstring) (head : Z)   (* an edit in CodeMirror *)
| UserEdits (d : Doc) (sel : Z * Z)           (* an edit in Milkdown *)
| Wait (dt : Z)
| Tune (delay : Z)                            (* syncManager.syncDelay = delay *)
| Dispose.                                    (* syncManager.destroy() *)

(** The user's edit reaches the update listener of codemirror-setup.js;
    [content] is the text of the document after the edit. *)
Definition user_types (content : jsstring) (head : Z) (w : world) : world :=
  let w := set_cm {| cm_doc := content; cm_head := head |} w in
  handleCodeMirrorChange content User w.

(** The user's edit in Milkdown: the transaction is applied, and the
    listener plugin starts the 200 ms of its handler. *)
Definition user_edits (d : Doc) (sel : Z * Z) (w : world) : world :=
  let v := md w in
  let w := set_md {| md_doc := d; md_selection := sel;
                     isInternalUpdate := isInternalUpdate v;
                     prevDoc := prevDoc v;
                     prevMarkdown := prevMarkdown v |} w in
  snd (schedule (notification d User) listener_delay w).

Definition step (w : world) (i : input) : world :=
  match i with
  | UserTypes content head => user_types content head w
  | UserEdits d sel => user_edits d sel w
  | Wait dt => advance dt w
  | Tune delay => set_syncDelay delay w
  | Dispose => destroy w
  end.

Definition run (inputs : list input) (w : world) : world :=
  fold_left step inputs w.

(** The page after [initialize()] of main.js: CodeMirror holds the lines of
    the initial content, Milkdown the document [doc] it was created with. *)
Definition initial (initialContent : jsstring) (doc : Doc) : world :=
  init {| this := constructor;
          cm := {| cm_doc := CodeMirror.toText initialContent;
                   cm_head := 0 |};
          md := {| md_doc := doc; md_selection := (0, 0);
                   isInternalUpdate := false;
                   prevDoc := doc; prevMarkdown := serializer doc |};
          clk := Timers.start;
          status := ready;
          log := [] |}.

(** *** Observations *)

Definition is_Sync (e : event) : bool :=
  match e with Sync _ _ _ => true | _ => false end.

(** The sync executions so far. *)
Definition syncs (w : world) : list event := filter is_Sync (log w).

Definition is_to_tree (e : event) : bool :=
  match e with Sync codemirror _ _ => true | _ => false end.

(** The executions of the CodeMirror to Milkdown sync so far. *)
Definition tree_syncs (w : world) : list event := filter is_to_tree (log w).

(** The debounced callbacks still pending. *)
Definition pending_syncs (w : world) : list (Timers.timer task) :=
  filter (fun t => is_sync_task (Timers.t_cb t)) (Timers.pending (clk w)).

Definition pending_releases (w : world) : list (Timers.timer task) :=
  filter (fun t => is_release_task (Timers.t_cb t)) (Timers.pending (clk w)).

(** The handlers of the listener plugin still pending. *)
Definition pending_notifications (w : world) : list (Timers.timer task) :=
  filter (fun t => is_notification (Timers.t_cb t)) (Timers.pending (clk w)).

End Model.

End SyncManager.

(** ** The single-file application: the syncManager object, syncToMilkdown
    and syncToCodeMirror *)
Module App.

Import Eff.

Inductive source := codemirror | milkdown.

(** The closures the source hands to [setTimeout]: the one of [handleCodeMirrorChange]
    holds the update, whose document text it reads when it fires; the one of
    [handleMilkdownChange] holds the context. *)
Inductive callback :=
| to_milkdown (content : jsstring)
| to_codemirror.

Section Model.

Context {E : Engine}.

(** What a timer runs: a closure of the source, or the handler that the
    listener plugin of Milkdown debounces for a transaction that changed the
    document to [d]. *)
Inductive task :=
| closure (cb : callback)
| notification (d : Doc).

Definition is_notification (k : task) : bool :=
  match k with notification _ => true | closure _ => false end.

(** The handler of the listener plugin runs 200 ms after its transaction. *)
Definition listener_delay : Z := 200.

Inductive event :=
| CmChanges (insert : jsstring)
| CmSelection (pos : Z)
| MdDispatch (d : Doc) (sel : Z * Z).

Record sync_manager := {
  isUpdating : bool;
  lastSource : option source;
  debounceTimer : option Z;
  debounceDelay : Z;
  scrollSync : bool
}.

(** The object literal [syncManager]. *)
Definition syncManager : sync_manager :=
  {| isUpdating := false; lastSource := None; debounceTimer := None;
     debounceDelay := 300; scrollSync := false |}.

Record cm_state := { cm_doc : jsstring; cm_head : Z }.

(** The state of the Milkdown view and the document of the last handler of
    the listener plugin that ran. *)
Record md_state := { md_doc : Doc; md_selection : Z * Z; prevDoc : Doc }.

Record world := {
  mgr : sync_manager;
  codemirrorView : option cm_state;     (* None: null *)
  milkdownEditor : option md_state;     (* None: null *)
  clk : Timers.clock task;
  log : list event
}.

Definition M := Eff.M world.

Definition set_mgr (m : sync_manager) (w : world) : world :=
  {| mgr := m; codemirrorView := codemirrorView w;
     milkdownEditor := milkdownEditor w; clk := clk w; log := log w |}.

Definition set_isUpdating (b : bool) (w : world) : world :=
  let m := mgr w in
  set_mgr {| isUpdating := b; lastSource := lastSource m;
             debounceTimer := debounceTimer m;
             debounceDelay := debounceDelay m;
             scrollSync := scrollSync m |} w.

Definition set_lastSource (s : option source) (w : world) : world :=
  let m := mgr w in
  set_mgr {| isUpdating := isUpdating m; lastSource := s;
             debounceTimer := debounceTimer m;
             debounceDelay := debounceDelay m;
             scrollSync := scrollSync m |} w.

Definition set_debounceTimer (h : option Z) (w : world) : world :=
  let m := mgr w in
  set_mgr {| isUpdating := isUpdating m; lastSource := lastSource m;
             debounceTimer := h;
             debounceDelay := debounceDelay m;
             scrollSync := scrollSync m |} w.

Definition set_debounceDelay (d : Z) (w : world) : world :=
  let m := mgr w in
  set_mgr {| isUpdating := isUpdating m; lastSource := lastSource m;
             debounceTimer := debounceTimer m;
             debounceDelay := d;
             scrollSync := scrollSync m |} w.

Definition set_codemirrorView (v : option cm_state) (w : world) : world :=
  {| mgr := mgr w; codemirrorView := v;
     milkdownEditor := milkdownEditor w; clk := clk w; log := log w |}.

Definition set_milkdownEditor (v : option md_state) (w : world) : world :=
  {| mgr := mgr w; codemirrorView := codemirrorView w;
     milkdownEditor := v; clk := clk w; log := log w |}.

Definition set_clk (k : Timers.clock task) (w : world) : world :=
  {| mgr := mgr w; codemirrorView := codemirrorView w;
     milkdownEditor := milkdownEditor w; clk := k; log := log w |}.

Definition emit (e : event) (w : world) : world :=
  {| mgr := mgr w; codemirrorView := codemirrorView w;
     milkdownEditor := milkdownEditor w; clk := clk w; log := log w ++ [e] |}.

(** [if (syncManager.debounceTimer) clearTimeout(syncManager.debounceTimer)]:
    the handle 0 is falsy like null. *)
Definition clear_debounce (w : world) : world :=
  match debounceTimer (mgr w) with
  | Some id =>
      if id =? 0 then w
      else set_clk (Timers.clearTimeout (Some id) (clk w)) w
  | None => w
  end.

Definition schedule (cb : callback) (w : world) : world :=
  let (id, k) :=
    Timers.setTimeout (closure cb) (debounceDelay (mgr w)) (clk w) in
  set_debounceTimer (Some id) (set_clk k w).

(** [handleCodeMirrorChange(update)], with the text of [update.state.doc]. *)
Definition handleCodeMirrorChange (content : jsstring) (w : world) : world :=
  schedule (to_milkdown content) (clear_debounce w).

(** [handleMilkdownChange(ctx)]. *)
Definition handleMilkdownChange (w : world) : world :=
  schedule to_codemirror (clear_debounce w).

(** The update listener of the CodeMirror view, on an update that changed the
    document. *)
Definition cm_updateListener (content : jsstring) (w : world) : world :=
  if negb (isUpdating (mgr w)) then handleCodeMirrorChange content w else w.

(** The [updated] listener of Milkdown, on distinct documents. *)
Definition md_updated (w : world) : world :=
  if negb (isUpdating (mgr w)) then handleMilkdownChange w else w.

(** The listener plugin starts the 200 ms of the handler for a transaction
    with document [d]. *)
Definition notify_later (d : Doc) (w : world) : world :=
  set_clk (snd (Timers.setTimeout (notification d) listener_delay (clk w))) w.

(** That handler, when its 200 ms have passed: the [updated] listener is
    called unless [d] equals the document of the handler that ran before. *)
Definition run_notification (d : Doc) : M unit :=
  exec (fun w =>
    match milkdownEditor w with
    | None => w
    | Some view =>
        let w := if sameDoc (prevDoc view) d then w else md_updated w in
        set_milkdownEditor
          (Some {| md_doc := md_doc view; md_selection := md_selection view;
                   prevDoc := d |}) w
    end).

(** The function handed to [milkdownEditor.action] by [syncToMilkdown]. *)
Definition replace_in_milkdown (content : jsstring) (view : md_state)
  : M unit :=
  match parser content with
  | ParseError => throw
  | result =>
      let state := view in
      let (from, to) := md_selection state in
      let docSize := size (md_doc state) in
      let relativeFrom := relative from docSize in
      let relativeTo := relative to docSize in
      match result with
      | Parsed doc =>
          let newDocSize := size doc in
          let newFrom := restored relativeFrom newDocSize in
          let newTo := restored relativeTo newDocSize in
          let dispatch sel :=
            exec (fun w =>
              notify_later doc
                (emit (MdDispatch doc sel)
                   (set_milkdownEditor
                      (Some {| md_doc := doc; md_selection := sel;
                               prevDoc := prevDoc state |}) w))) in
          if Num.strict_eq newFrom newTo then
            if createAndFill then
              match Num.as_int newFrom with
              | Some p =>
                  if (0 <=? p) && (p <=? newDocSize)
                  then dispatch (near doc p)
                  else throw           (* resolve: RangeError *)
              | None => throw          (* resolve: RangeError *)
              end
            else throw                 (* a selection of the old document *)
          else dispatch (mapSelection (md_doc state) doc (from, to))
      | _ => throw                     (* doc.content of null *)
      end
  end.

(** [syncToMilkdown(content)]. *)
Definition syncToMilkdown (content : jsstring) : M unit :=
  fun w =>
    match milkdownEditor w with
    | None => (Ok tt, w)
    | Some view =>
        let w := set_isUpdating true w in
        let w := set_lastSource (Some codemirror) w in
        try_catch_finally
          (replace_in_milkdown content view)
          (ret tt)
          (exec (set_isUpdating false))
          w
    end.

(** [codemirrorView.dispatch(...)] of a selection; CodeMirror throws a
    RangeError on a selection that is no position of the document. *)
Definition cm_dispatch_selection (newPos : Num.number) : M unit :=
  fun w =>
    match codemirrorView w, Num.as_int newPos with
    | Some v, Some p =>
        if (0 <=? p) && (p <=? JS.length (cm_doc v)) then
          (Ok tt,
           emit (CmSelection p)
             (set_codemirrorView
                (Some {| cm_doc := cm_doc v; cm_head := p |}) w))
        else (Thrown, w)
    | _, _ => (Thrown, w)
    end.

(** [syncToCodeMirror(ctx)]; the document of CodeMirror becomes the lines of
    the inserted markdown, and [newLength] is the length of that document. *)
Definition syncToCodeMirror : M unit :=
  fun w =>
    match codemirrorView w with
    | None => (Ok tt, w)
    | Some v =>
        let w := set_isUpdating true w in
        let w := set_lastSource (Some milkdown) w in
        try_catch_finally
          (match milkdownEditor w with
           | None => throw
           | Some view =>
               match serializer (md_doc view) with
               | None => throw
               | Some markdown =>
                   let cursorPos := cm_head v in
                   let docLength := JS.length (cm_doc v) in
                   let relativePos := relative cursorPos docLength in
                   let text := CodeMirror.toText markdown in
                   exec (fun w =>
                     cm_updateListener text
                       (emit (CmChanges markdown)
                          (set_codemirrorView
                             (Some {| cm_doc := text;
                                      cm_head := mapPos (cm_doc v) text
                                                   cursorPos |}) w))) ;;;
                   let newLength := JS.length text in
                   let newPos := restored relativePos newLength in
                   cm_dispatch_selection newPos
               end
           end)%eff
          (ret tt)
          (exec (set_isUpdating false))
          w
    end.

(** The callbacks of the two debounce timers. *)
Definition run_callback (cb : callback) : M unit :=
  match cb with
  | to_milkdown content => syncToMilkdown content
  | to_codemirror => syncToCodeMirror
  end.

Definition run_task (k : task) : M unit :=
  match k with
  | closure cb => run_callback cb
  | notification d => run_notification d
  end.

(** The page after [initialize()]. *)
Definition initial (initialContent : jsstring) (doc : Doc) : world :=
  {| mgr := syncManager;
     codemirrorView := Some {| cm_doc := CodeMirror.toText initialContent;
                               cm_head := 0 |};
     milkdownEditor := Some {| md_doc := doc; md_selection := (0, 0);
                               prevDoc := doc |};
     clk := Timers.start;
     log := [] |}.

End Model.

End App.

(** A callback stands for the timer task that runs it. *)
#[warning="-uniform-inheritance"]
Coercion App.closure : App.callback >-> App.task.

(** ** Statements about the two models *)

(** A property of the world that a computation keeps, whether it returns or
    throws. *)
Definition preserves {W A} (I : W -> Prop) (c : Eff.M W A) : Prop :=
  forall w, I w -> I (snd (c w)).

(** A computation that takes the worlds of [P] to worlds of [Q], whether it
    returns or throws. *)
Definition takes {W A} (P Q : W -> Prop) (c : Eff.M W A) : Prop :=
  forall w, P w -> Q (snd (c w)).

Module SyncManagerSpec.

Import SyncManager Timers.

Section Spec.

Context {E : Engine}.

Definition mk (id due : Z) (k : task) : timer task :=
  {| t_id := id; t_due := due; t_cb := k |}.

(** What Milkdown and its wrapper schedule: the release of
    [isInternalUpdate] and the handler of the listener plugin. *)
Definition is_inner (k : task) : bool :=
  match k with
  | closure internal_release | notification _ _ => true
  | _ => false
  end.

(** The timers [l] are such timers, with distinct handles from [n] on. *)
Definition inner (n : Z) (l : list (timer task)) : Prop :=
  NoDup (map t_id l)
  /\ forall u, In u l ->
       n <= t_id u < n + Z.of_nat (List.length l)
       /\ is_inner (t_cb u) = true.

(** The world [w] inside the critical section that was entered at [w0]: the
    manager, the clock time and the list of sync executions stand still, the
    only new timers are those of Milkdown and its wrapper, of weight [k] at
    most. *)
Definition during (w0 : world) (k : nat) (w : world) : Prop :=
  this w = this w0
  /\ now (clk w) = now (clk w0)
  /\ syncs w = syncs w0
  /\ exists l,
       (total_weight l <= k)%nat
       /\ inner (next_id (clk w0)) l
       /\ pending (clk w) = pending (clk w0) ++ l
       /\ next_id (clk w) = next_id (clk w0) + Z.of_nat (List.length l).

(** The weight of what a critical section leaves in the queue besides the
    release of the flag. *)
Definition budget (src : source) : nat :=
  match src with codemirror => 4%nat | milkdown => 0%nat end.

(** The world [w'] a debounced callback leaves behind when it has gone
    through its critical section, entered at [w]. *)
Definition entered (src : source) (content : jsstring) (o : origin)
  (w w' : world) : Prop :=
  this w' = this (set_lastSource (Some src) (set_isUpdating true w))
  /\ now (clk w') = now (clk w)
  /\ syncs w' = syncs w ++ [Sync src content o]
  /\ exists l,
       (total_weight l <= budget src)%nat
       /\ inner (next_id (clk w)) l
       /\ pending (clk w') =
            pending (clk w) ++ l
            ++ [mk (next_id (clk w) + Z.of_nat (List.length l))
                  (now (clk w) + 100) release]
       /\ next_id (clk w') =
            next_id (clk w) + Z.of_nat (List.length l) + 1.

(** The queue after [clearTimeout(handle)]. *)
Definition cleared (h : option Z) (l : list (timer task)) :=
  match h with
  | None => l
  | Some id => drop id l
  end.

(** The states the manager and its timers go through. *)
Record WF (w : world) : Prop := {
  wf_ids : forall t, In t (pending (clk w)) -> t_id t < next_id (clk w);
  wf_nodup : NoDup (map t_id (pending (clk w)));
  wf_handle : forall id, debounceTimer (this w) = Some id -> id < next_id (clk w);
  wf_handle_sync :
    forall t, In t (pending (clk w)) ->
              debounceTimer (this w) = Some (t_id t) ->
              is_sync_task (t_cb t) = true;
  wf_busy :
    isUpdating (this w) = true ->
    pending_syncs w = [] /\ exists r, pending_releases w = [r];
  wf_idle :
    isUpdating (this w) = false ->
    lastSource (this w) = None
    /\ pending_releases w = []
    /\ forall t, In t (pending_syncs w) -> debounceTimer (this w) = Some (t_id t)
}.

(** A burst of edits in CodeMirror: the first one now, each further one
    [gap] milliseconds after the one before. *)
Definition typing (w : world) (call : Z * jsstring * Z) : world :=
  let '(gap, content, head) := call in
  user_types content head (advance gap w).

Definition burst (first : jsstring * Z) (rest : list (Z * jsstring * Z))
  (w : world) : world :=
  fold_left typing rest (user_types (fst first) (snd first) w).

(** The text of the last call of a burst. *)
Definition last_content (first : jsstring * Z)
  (rest : list (Z * jsstring * Z)) : jsstring :=
  last (map (fun call => snd (fst call)) rest) (fst first).

(** Every gap of the burst is shorter than the debounce window. *)
Definition rapid (delay : Z) (rest : list (Z * jsstring * Z)) : Prop :=
  Forall (fun call => 0 <= fst (fst call) < delay) rest.

(** What a burst of edits in CodeMirror and the waiting in between leave as
    they were in [w0]: the delay, the two editor fields, the log of what the
    surfaces were asked to do and the Milkdown document. *)
Definition unchanged (w0 w : world) : Prop :=
  syncDelay (this w) = syncDelay (this w0)
  /\ codemirrorEditor (this w) = codemirrorEditor (this w0)
  /\ milkdownEditor (this w) = milkdownEditor (this w0)
  /\ log w = log w0
  /\ md_doc (md w) = md_doc (md w0)
  /\ md_selection (md w) = md_selection (md w0).

(** While the flag is clear, no handler of the listener plugin is pending and
    every pending debounced callback is due later than [deadline], waiting
    until [deadline] runs no sync. *)
Definition quiet (deadline : Z) (w0 w : world) : Prop :=
  WF w /\ isUpdating (this w) = false /\ unchanged w0 w
  /\ pending_notifications w = []
  /\ forall t, In t (pending_syncs w) -> deadline < t_due t.

(** The debounced callback of the last call is the only one pending, and no
    handler of the listener plugin is. *)
Definition armed (w0 : world) (content : jsstring) (w : world) : Prop :=
  WF w /\ isUpdating (this w) = false /\ unchanged w0 w
  /\ pending_notifications w = []
  /\ exists id,
       pending_syncs w =
         [mk id (now (clk w) + Z.max 0 (syncDelay (this w0)))
            (sync_to_milkdown content User)].

(** The Milkdown document is the parsed [content], when both editors were
    attached in [w0] and [content] parses. *)
Definition delivered (w0 : world) (content : jsstring) (w : world) : Prop :=
  codemirrorEditor (this w0) = true -> milkdownEditor (this w0) = true ->
  forall d, parser content = Parsed d -> md_doc (md w) = d.

Definition is_to_milkdown (k : task) : bool :=
  match k with closure (sync_to_milkdown _ _) => true | _ => false end.

(** No callback of [handleCodeMirrorChange] is pending. *)
Definition one_way (w : world) : Prop :=
  forall t, In t (pending (clk w)) -> is_to_milkdown (t_cb t) = false.

(** From the armed state, the debounced callback runs once when the window
    has passed, and no other sync into Milkdown follows it. *)
Definition settling (deadline : Z) (w0 : world) (content : jsstring)
  (w : world) : Prop :=
  WF w
  /\ ((isUpdating (this w) = false
       /\ unchanged w0 w
       /\ pending_notifications w = []
       /\ exists t0,
            pending_syncs w = [t0]
            /\ t_cb t0 = sync_to_milkdown content User
            /\ t_due t0 <= deadline)
      \/ (tree_syncs w = tree_syncs w0 ++ [Sync codemirror content User]
          /\ one_way w
          /\ delivered w0 content w)).

(** After a sync attempt, before its release is due. *)
Definition holding (deadline : Z) (w : world) : Prop :=
  WF w
  /\ isUpdating (this w) = true
  /\ forall r, In r (pending_releases w) -> deadline < t_due r.

(** The release of the flag is the timer set last and is due at [deadline];
    or it has fired, and no timer is due by [deadline]. *)
Definition releasing (deadline : Z) (w : world) : Prop :=
  WF w
  /\ ((isUpdating (this w) = true
       /\ exists l r, pending (clk w) = l ++ [r]
                      /\ t_cb r = closure release /\ t_due r = deadline)
      \/ (isUpdating (this w) = false
          /\ forall u, In u (pending (clk w)) -> deadline < t_due u)).

(** No debounced callback and no handler of the listener plugin is pending,
    and the two surfaces are as they were in [w0]: nothing was dispatched to
    them. *)
Definition calm (w0 w : world) : Prop :=
  WF w /\ pending_syncs w = [] /\ pending_notifications w = []
  /\ log w = log w0 /\ cm w = cm w0
  /\ md_doc (md w) = md_doc (md w0)
  /\ md_selection (md w) = md_selection (md w0).

End Spec.

End SyncManagerSpec.

(** ** A small engine for the examples

    A document is the text it was parsed from, its size the length of that
    text; a text that starts with the code unit 0 does not parse. *)
Module Toy.

Definition parse (s : jsstring) : parsed jsstring :=
  match s with
  | 0 :: _ => ParseError
  | _ => Parsed s
  end.

#[export] Instance engine : Engine := {|
  Doc := jsstring;
  size := JS.length;
  parser := parse;
  serializer := fun d => Some d;
  sameDoc := JS.eqb;
  near := fun _ p => (p, p);
  mapSelection := fun _ _ sel => sel;
  mapPos := fun _ new p => Z.min p (JS.length new);
  createAndFill := true
|}.

(** ["ab"], ["abc"], ["a\nb"] and a text that does not parse. *)
Definition ab : jsstring := [97; 98].
Definition abc : jsstring := [97; 98; 99].
Definition a_b : jsstring := [97; 10; 98].
Definition bad : jsstring := [0; 97].

(** The page of the SyncManager with ["ab"] in both panes. *)
Definition page : SyncManager.world := SyncManager.initial (E := engine) ab ab.

(** The page after one edit in CodeMirror and 500 ms: the sync has run. *)
Definition synced : SyncManager.world :=
  SyncManager.run
    [SyncManager.UserTypes abc 3; SyncManager.Wait 500] page.

(** The same with a text that does not parse. *)
Definition failed : SyncManager.world :=
  SyncManager.run
    [SyncManager.UserTypes bad 2; SyncManager.Wait 500] page.

(** The page of the single-file application with ["ab"] in both panes. *)
Definition app_page : App.world := App.initial (E := engine) ab ab.

(** The single-file application with a text of 10 code units and the cursor
    at offset 5 in CodeMirror, and a document of 20 code units in Milkdown. *)
Definition app_half : App.world :=
  App.set_codemirrorView
    (Some {| App.cm_doc := repeat 97 10; App.cm_head := 5 |})
    (App.initial (E := engine) (repeat 97 10) (repeat 97 20)).

End Toy.


(** ** How long the flag of the SyncManager is held *)
Module SyncManagerTiming.

Import SyncManager SyncManagerSpec Timers.

Section Spec.

Context {E : Engine}.

(** Every pending release of the flag is due within 100 ms. *)
Definition prompt (w : world) : Prop :=
  forall r, In r (pending (clk w)) -> t_cb r = closure release ->
            t_due r <= now (clk w) + 100.

(** The text CodeMirror shows after [setContent(markdown)]. *)
Definition landed (old markdown : jsstring) : jsstring :=
  if JS.eqb old markdown then old else CodeMirror.toText markdown.

(** The handler of the listener plugin for document [d] is waiting: the flag
    is clear, every pending debounced callback is due after the handler, and
    [isInternalUpdate] is clear or will be when the handler runs. The
    debounced callback that the handler leads to is due by [bound]. *)
Definition waiting (bound : Z) (w0 : world) (d : Doc) (o : origin)
  (w : world) : Prop :=
  isUpdating (this w) = false
  /\ syncDelay (this w) = syncDelay (this w0)
  /\ codemirrorEditor (this w) = codemirrorEditor (this w0)
  /\ cm w = cm w0
  /\ syncs w = syncs w0
  /\ prevDoc (md w) = prevDoc (md w0)
  /\ prevMarkdown (md w) = prevMarkdown (md w0)
  /\ exists n,
       pending_notifications w = [n]
       /\ t_cb n = notification d o
       /\ now (clk w) <= t_due n
       /\ t_due n + Z.max 0 (syncDelay (this w0)) <= bound
       /\ (forall s, In s (pending_syncs w) -> t_due n < t_due s)
       /\ (isInternalUpdate (md w) = true ->
           exists i, In i (pending (clk w))
                     /\ t_cb i = closure internal_release
                     /\ t_due i < t_due n).

(** The callback of [handleMilkdownChange] for [markdown] is pending, due by
    [deadline]. *)
Definition scheduled (deadline : Z) (w0 : world) (markdown : jsstring)
  (o : origin) (w : world) : Prop :=
  isUpdating (this w) = false
  /\ codemirrorEditor (this w) = codemirrorEditor (this w0)
  /\ cm w = cm w0
  /\ syncs w = syncs w0
  /\ pending_notifications w = []
  /\ exists t0,
       pending_syncs w = [t0]
       /\ t_cb t0 = closure (sync_to_codemirror markdown o)
       /\ t_due t0 <= deadline.

(** That callback has run, once, and nothing that could start a sync is
    pending; CodeMirror shows [markdown] when its editor was attached. *)
Definition arrived (w0 : world) (markdown : jsstring) (o : origin)
  (w : world) : Prop :=
  syncs w = syncs w0 ++ [Sync milkdown markdown o]
  /\ pending_syncs w = []
  /\ pending_notifications w = []
  /\ (codemirrorEditor (this w0) = true ->
      cm_doc (cm w) = landed (cm_doc (cm w0)) markdown).

(** From the transaction that made [d] the document of Milkdown to
    CodeMirror showing its markdown; Milkdown keeps its document
    throughout. *)
Definition carried (deadline : Z) (w0 : world) (d : Doc) (o : origin)
  (markdown : jsstring) (w : world) : Prop :=
  WF w
  /\ md_doc (md w) = md_doc (md w0)
  /\ (waiting deadline w0 d o w
      \/ scheduled deadline w0 markdown o w
      \/ arrived w0 markdown o w).

(** An edit in CodeMirror with text [content] has its debounced callback
    pending, both editors are attached and no handler of the listener plugin
    is waiting. The echo of the replace it leads to is due by [deadline]. *)
Definition typed (deadline : Z) (w0 : world) (content : jsstring)
  (w : world) : Prop :=
  isUpdating (this w) = false
  /\ syncDelay (this w) = syncDelay (this w0)
  /\ codemirrorEditor (this w) = true
  /\ milkdownEditor (this w) = true
  /\ cm w = cm w0
  /\ syncs w = syncs w0
  /\ prevDoc (md w) = prevDoc (md w0)
  /\ prevMarkdown (md w) = prevMarkdown (md w0)
  /\ pending_notifications w = []
  /\ exists s,
       pending_syncs w = [s]
       /\ t_cb s = closure (sync_to_milkdown content User)
       /\ now (clk w) <= t_due s
       /\ t_due s + listener_delay + Z.max 0 (syncDelay (this w0))
          <= deadline.

(** That callback has replaced the document of Milkdown by [d]: the flag is
    set, its release is due before the handler of the listener plugin for
    [d], and so is the release of [isInternalUpdate] when it is set. *)
Definition replaced (deadline : Z) (w0 : world) (content : jsstring)
  (d : Doc) (w : world) : Prop :=
  isUpdating (this w) = true
  /\ syncDelay (this w) = syncDelay (this w0)
  /\ codemirrorEditor (this w) = true
  /\ cm w = cm w0
  /\ syncs w = syncs w0 ++ [Sync codemirror content User]
  /\ md_doc (md w) = d
  /\ prevDoc (md w) = prevDoc (md w0)
  /\ prevMarkdown (md w) = prevMarkdown (md w0)
  /\ exists n r,
       pending_notifications w = [n]
       /\ t_cb n = notification d Programmatic
       /\ In r (pending (clk w))
       /\ t_cb r = closure release
       /\ t_due r < t_due n
       /\ now (clk w) <= t_due n
       /\ t_due n + Z.max 0 (syncDelay (this w0)) <= deadline
       /\ (isInternalUpdate (md w) = true ->
           exists i, In i (pending (clk w))
                     /\ t_cb i = closure internal_release
                     /\ t_due i < t_due n).

(** The flag has been released in [wr], and the replace is carried back to
    CodeMirror from there. *)
Definition returning (deadline : Z) (w0 : world) (content : jsstring)
  (d : Doc) (markdown : jsstring) (w : world) : Prop :=
  exists wr,
    syncs wr = syncs w0 ++ [Sync codemirror content User]
    /\ md_doc (md wr) = d
    /\ cm wr = cm w0
    /\ codemirrorEditor (this wr) = true
    /\ prevDoc (md wr) = prevDoc (md w0)
    /\ prevMarkdown (md wr) = prevMarkdown (md w0)
    /\ carried deadline wr d Programmatic markdown w.

(** From an edit in CodeMirror to the sync that takes the replace it caused
    in Milkdown back to CodeMirror. *)
Definition echoed (deadline : Z) (w0 : world) (content : jsstring)
  (d : Doc) (markdown : jsstring) (w : world) : Prop :=
  WF w
  /\ (typed deadline w0 content w
      \/ replaced deadline w0 content d w
      \/ returning deadline w0 content d markdown w).

(** A pending debounced callback is announced by the status element. *)
Definition announced (w : world) : Prop :=
  pending_syncs w = [] \/ status w = syncing.

End Spec.

End SyncManagerTiming.

(** ** The single-file application between its events *)
Module AppLoop.

Import App Timers Eff.

Section Model.

Context {E : Engine}.

(** Timer [t] fires: it leaves the queue and its callback runs. *)
Definition fire (t : timer task) (w : world) : outcome unit * world :=
  run_task (t_cb t) (set_clk (fired t (clk w)) w).

Inductive input :=
| UserTypes (content : jsstring) (head : Z)   (* an edit in CodeMirror *)
| UserEdits (d : Doc) (sel : Z * Z)           (* an edit in Milkdown *)
| NextTimer                                   (* the timer due first fires *)
| Idle (dt : Z).                              (* time passes, no timer fires *)

(** The user's edit reaches the update listener of the CodeMirror view;
    [content] is the text of the document after the edit. *)
Definition user_types (content : jsstring) (head : Z) (w : world) : world :=
  match codemirrorView w with
  | None => w
  | Some _ =>
      cm_updateListener content
        (set_codemirrorView (Some {| cm_doc := content; cm_head := head |}) w)
  end.

(** The user's edit in Milkdown: the transaction is applied, and the
    listener plugin starts the 200 ms of its handler. *)
Definition user_edits (d : Doc) (sel : Z * Z) (w : world) : world :=
  match milkdownEditor w with
  | None => w
  | Some view =>
      notify_later d
        (set_milkdownEditor
           (Some {| md_doc := d; md_selection := sel;
                    prevDoc := prevDoc view |}) w)
  end.

Definition next_timer (w : world) : world :=
  match earliest (pending (clk w)) with
  | None => w
  | Some t => snd (fire t w)
  end.

Definition step (w : world) (i : input) : world :=
  match i with
  | UserTypes content head => user_types content head w
  | UserEdits d sel => user_edits d sel w
  | NextTimer => next_timer w
  | Idle dt => set_clk (elapsed (now (clk w) + Z.max 0 dt) (clk w)) w
  end.

Definition run (inputs : list input) (w : world) : world :=
  fold_left step inputs w.

(** The callbacks of the debounce timer still pending. *)
Definition pending_debounced (w : world) : list (timer task) :=
  filter (fun t => negb (is_notification (t_cb t))) (pending (clk w)).

(** Between two events: both editors are there, the flag is clear, and the
    only callback of the source that can be pending is the one whose handle
    [debounceTimer] holds. *)
Record settled (w : world) : Prop := {
  st_cm : codemirrorView w <> None;
  st_md : milkdownEditor w <> None;
  st_flag : isUpdating (mgr w) = false;
  st_next : 0 < next_id (clk w);
  st_pending :
    pending_debounced w = []
    \/ exists t, pending_debounced w = [t]
                 /\ debounceTimer (mgr w) = Some (t_id t)
                 /\ t_id t <> 0
}.

End Model.

End AppLoop.

(** ** The word count of the status bar

    [updateWordCount] of the SyncManager and [updateStatusBar] of the
    single-file application count the words of the text with the same
    expression, [text.trim().split(/\s+/).filter(word => word.length > 0)]. *)
Module WordCount.

(** The code units [\s] matches and [trim] removes: the white space and the
    line terminators of ECMAScript. *)
Definition is_space (c : code_unit) : bool :=
  ((9 <=? c) && (c <=? 13))              (* TAB, LF, VT, FF, CR *)
  || (c =? 32) || (c =? 160) || (c =? 5760)
  || ((8192 <=? c) && (c <=? 8202))
  || (c =? 8232) || (c =? 8233) || (c =? 8239) || (c =? 8287)
  || (c =? 12288) || (c =? 65279).

(** The string without its leading white space. *)
Fixpoint trimStart (s : jsstring) : jsstring :=
  match s with
  | [] => []
  | c :: r => if is_space c then trimStart r else s
  end.

Definition trim (s : jsstring) : jsstring :=
  rev (trimStart (rev (trimStart s))).

(** [s.split(/\s+/)], read from left to right: [piece] holds the code units
    since the last separator in reverse, [in_separator] tells that the code
    unit before was white space. A run of white space ends the piece before
    it, also the empty piece at the start of the string; the end of the
    string ends the last piece, also the empty one after a trailing run. *)
Fixpoint split_spaces (s piece : jsstring) (in_separator : bool)
  : list jsstring :=
  match s with
  | [] => [rev piece]
  | c :: r =>
      if is_space c then
        if in_separator then split_spaces r [] true
        else rev piece :: split_spaces r [] true
      else split_spaces r (c :: piece) false
  end.

Definition split (s : jsstring) : list jsstring := split_spaces s [] false.

(** [const words = content.trim().split(/\s+/).filter(word => word.length > 0)] *)
Definition words (content : jsstring) : list jsstring :=
  filter (fun word => JS.length word >? 0) (split (trim content)).

(** [words.length], the number shown after [Words:]. *)
Definition wordCount (content : jsstring) : Z := alength (words content).

(** The number of maximal runs of code units that are no white space, counted
    from left to right; [inside] tells that the code unit before belongs to
    such a run. *)
Fixpoint runs (s : jsstring) (inside : bool) : Z :=
  match s with
  | [] => if inside then 1 else 0
  | c :: r =>
      if is_space c then (if inside then 1 else 0) + runs r false
      else runs r true
  end.

End WordCount.

(** ** The slash menu of block-edit.js

    The state of [SlashMenuComponent]: the filter typed into the search box,
    the index of the highlighted entry and the entries handed to
    [handleSelect] so far. What an entry does when it is selected is left to
    Milkdown; only its label is looked at. *)
Module SlashMenu.

(** [s.startsWith(t)] *)
Fixpoint startsWith (s t : jsstring) : bool :=
  match t, s with
  | [], _ => true
  | y :: t', x :: s' => (x =? y) && startsWith s' t'
  | _ :: _, [] => false
  end.

(** [s.includes(t)] *)
Fixpoint includes (s t : jsstring) : bool :=
  startsWith s t
  || match s with
     | [] => false
     | _ :: r => includes r t
     end.

Section Menu.

Variable Item : Type.
Variable label : Item -> jsstring.

(** [String.prototype.toLowerCase] *)
Variable toLowerCase : jsstring -> jsstring.

Record group := { group_label : jsstring; items : list Item }.

(** The computed [filteredItems]; the empty filter is falsy. *)
Definition filteredItems (filter_value : jsstring) (props_items : list group)
  : list group :=
  match filter_value with
  | [] => props_items
  | _ =>
      let searchTerm := toLowerCase filter_value in
      filter (fun g => alength (items g) >? 0)
        (map (fun g =>
                {| group_label := group_label g;
                   items :=
                     filter (fun item =>
                               includes (toLowerCase (label item)) searchTerm)
                       (items g) |})
           props_items)
  end.

Definition getTotalItems (shown : list group) : Z :=
  fold_left (fun acc g => acc + alength (items g)) shown 0.

(** The inner loop of [getItemByIndex]: the entry it returns, or the count
    it ends with. *)
Fixpoint item_in_group (its : list Item) (count index : Z) : Item + Z :=
  match its with
  | [] => inr count
  | item :: r =>
      if count =? index then inl item else item_in_group r (count + 1) index
  end.

Fixpoint item_in_groups (gs : list group) (count index : Z) : option Item :=
  match gs with
  | [] => None
  | g :: r =>
      match item_in_group (items g) count index with
      | inl item => Some item
      | inr count' => item_in_groups r count' index
      end
  end.

(** [getItemByIndex(index)]; [None] is [null]. *)
Definition getItemByIndex (shown : list group) (index : Z) : option Item :=
  item_in_groups shown 0 index.

Record state := {
  selectedIndex : Z;
  filter_value : jsstring;
  selected : list Item       (* the calls of handleSelect *)
}.

Definition initial : state :=
  {| selectedIndex := 0; filter_value := []; selected := [] |}.

Inductive key := ArrowDown | ArrowUp | Enter | OtherKey.

Definition handleKeyDown (props_items : list group) (e : key) (st : state)
  : state :=
  let shown := filteredItems (filter_value st) props_items in
  match e with
  | ArrowDown =>
      {| selectedIndex :=
           Z.min (selectedIndex st + 1) (getTotalItems shown - 1);
         filter_value := filter_value st; selected := selected st |}
  | ArrowUp =>
      {| selectedIndex := Z.max (selectedIndex st - 1) 0;
         filter_value := filter_value st; selected := selected st |}
  | Enter =>
      match getItemByIndex shown (selectedIndex st) with
      | Some item =>
          {| selectedIndex := selectedIndex st;
             filter_value := filter_value st;
             selected := selected st ++ [item] |}
      | None => st
      end
  | OtherKey => st
  end.

(** The [onInput] handler of the search box. *)
Definition onInput (value : jsstring) (st : state) : state :=
  {| selectedIndex := selectedIndex st; filter_value := value;
     selected := selected st |}.

(** The entries of the menu in the order they are drawn. *)
Definition entries (shown : list group) : list Item :=
  concat (map items shown).

End Menu.

Arguments group_label {Item} _.
Arguments items {Item} _.
Arguments filteredItems {Item} _ _ _ _.
Arguments getTotalItems {Item} _.
Arguments item_in_group {Item} _ _ _.
Arguments item_in_groups {Item} _ _ _.
Arguments getItemByIndex {Item} _ _.
Arguments selectedIndex {Item} _.
Arguments filter_value {Item} _.
Arguments selected {Item} _.
Arguments initial {Item}.
Arguments handleKeyDown {Item} _ _ _ _ _.
Arguments onInput {Item} _ _.
Arguments entries {Item} _.

End SlashMenu.

(** ** The draggable divider

    main.js of the SyncManager page ([setupPaneDivider]) and the single-file
    application ([initializeDivider]) each have their own three mouse
    handlers. The widths the browser reports come with the events:
    [offsetWidth] of the two panes at [mousedown], of the container at
    [mousemove]. *)
Module Divider.

Record state := {
  isDragging : bool;
  startX : Z;
  startWidths : option (Z * Z);               (* None: not yet assigned *)
  col_resize : bool;                          (* document.body.style.cursor *)
  flex : option (Num.number * Num.number)     (* the two percentages *)
}.

Definition initial : state :=
  {| isDragging := false; startX := 0; startWidths := None;
     col_resize := false; flex := None |}.

Inductive event :=
| MouseDown (clientX leftWidth rightWidth : Z)
| MouseMove (clientX totalWidth : Z)
| MouseUp.


Definition mousedown (clientX leftWidth rightWidth : Z) (st : state) : state :=
  {| isDragging := true; startX := clientX;
     startWidths := Some (leftWidth, rightWidth);
     col_resize := true; flex := flex st |}.

Definition mouseup (st : state) : state :=
  if isDragging st then
    {| isDragging := false; startX := startX st;
       startWidths := startWidths st; col_resize := false; flex := flex st |}
  else st.




Definition handle (move : Z -> Z -> state -> state) (st : state) (e : event)
  : state :=
  match e with
  | MouseDown x l r => mousedown x l r st
  | MouseMove x total => move x total st
  | MouseUp => mouseup st
  end.

Definition run (move : Z -> Z -> state -> state) (events : list event)
  : state :=
  fold_left (handle move) events initial.


End Divider.

(** ** More examples *)
Module Samples.

(** The toy engine with a serializer that always throws. *)
Definition mute : Engine := {|
  Doc := jsstring;
  size := JS.length;
  parser := Toy.parse;
  serializer := fun _ => None;
  sameDoc := JS.eqb;
  near := fun _ p => (p, p);
  mapSelection := fun _ _ sel => sel;
  mapPos := fun _ new p => Z.min p (JS.length new);
  createAndFill := true
|}.

(** The single-file application over that engine, ["ab"] in both panes. *)
Definition mute_page : App.world := App.initial (E := mute) Toy.ab Toy.ab.

(** A menu of two groups with the labels ["ab"], ["abc"] and ["a\nb"]; an
    entry is its label, and lower case is left as it is. *)
Definition menu : list (SlashMenu.group jsstring) :=
  [ {| SlashMenu.group_label := Toy.ab;
       SlashMenu.items := [Toy.ab; Toy.abc] |};
    {| SlashMenu.group_label := Toy.abc; SlashMenu.items := [Toy.a_b] |} ].

End Samples.
(** ** Facts about doubles *)
Section FloatFacts.
Import Float.

Lemma nearest_even_nonneg (num den : Z) :
  0 <= num -> 0 < den -> 0 <= nearest_even num den.
Proof.
  intros Hn Hd. unfold nearest_even.
  assert (0 <= num / den) by (apply Z.div_pos; assumption).
  destruct (2 * (num mod den) ?= den); [destruct (Z.even _)| |]; lia.
Qed.

Lemma round_pos_nonneg (a d : Z) : 0 < a -> 0 < d -> (0 <= round_pos a d)%Q.
Proof.
  intros Ha Hd. unfold round_pos.
  set (e := exponent a d).
  assert (Hs : 0 <= fst (scaled a d e) /\ 0 < snd (scaled a d e)).
  { unfold scaled. destruct (0 <=? e) eqn:He; cbn [fst snd].
    - split; [lia|]. apply Z.leb_le in He.
      apply Z.mul_pos_pos; [exact Hd|]. apply Z.pow_pos_nonneg; lia.
    - split; [|exact Hd]. apply Z.leb_gt in He.
      apply Z.mul_nonneg_nonneg; [lia|]. apply Z.pow_nonneg; lia. }
  destruct (scaled a d e) as [n dd]. cbn [fst snd] in Hs.
  pose proof (nearest_even_nonneg n dd (proj1 Hs) (proj2 Hs)) as Hm.
  destruct (0 <=? e) eqn:He.
  - change 0%Q with (inject_Z 0). rewrite <- Zle_Qle.
    apply Z.mul_nonneg_nonneg; [exact Hm|]. apply Z.pow_nonneg; lia.
  - unfold Qle. cbn. lia.
Qed.

(** Rounding to a double keeps the sign. *)
Lemma double_nonneg (q : Q) : (0 <= q)%Q -> (0 <= double q)%Q.
Proof.
  intros Hq. unfold double. rewrite Qred_correct.
  destruct q as [[|p|p] den]; cbn [Qnum Qden].
  - discriminate.
  - apply round_pos_nonneg; reflexivity.
  - exfalso. unfold Qle in Hq. cbn in Hq. lia.
Qed.

(** Zero is a double. *)
Lemma double_zero (q : Q) : Qnum q = 0 -> double q = 0%Q.
Proof. intros H. unfold double. rewrite H. reflexivity. Qed.

End FloatFacts.

(** *** The line and column round trip *)

Section ApproximatePosition.

Lemma split_LF_nonempty (s : jsstring) : split_LF s <> [].
Proof.
  destruct s as [|c r]; simpl; [discriminate|].
  destruct (c =? LF); [discriminate|].
  destruct (split_LF r); discriminate.
Qed.

Lemma sum_lines_acc lines idx acc d :
  sum_lines lines idx (acc + d) =
  option_map (fun r => r + d) (sum_lines lines idx acc).
Proof.
  revert acc; induction idx as [|i idx IH]; intros acc; simpl.
  - reflexivity.
  - destruct (nth_error lines i) as [l|]; [|reflexivity].
    replace (acc + d + JS.length l + 1) with (acc + JS.length l + 1 + d) by lia.
    apply IH.
Qed.

Lemma sum_lines_shift l lines idx acc :
  sum_lines (l :: lines) (map S idx) acc = sum_lines lines idx acc.
Proof.
  revert acc; induction idx as [|i idx IH]; intros acc; simpl; [reflexivity|].
  destruct (nth_error lines i); [apply IH|reflexivity].
Qed.

Lemma sum_lines_head l l' lines idx acc :
  sum_lines (l :: lines) (map S idx) acc =
  sum_lines (l' :: lines) (map S idx) acc.
Proof. now rewrite !sum_lines_shift. Qed.

(** The state of the computation after the loop, for an in-range offset [p]:
    the loop has added up the [k] complete lines before the cursor, the last
    line of the prefix is a prefix of line [k]. *)
Lemma round_trip_nat (content : jsstring) :
  forall (p : nat) (acc : Z), (p <= List.length content)%nat ->
  let pre := split_LF (firstn p content) in
  let lines := split_LF content in
  let k := (List.length pre - 1)%nat in
  let lastLine := last pre [] in
  sum_lines lines (seq 0 k) acc = Some (acc + Z.of_nat p - JS.length lastLine)
  /\ (k < List.length lines)%nat
  /\ JS.length lastLine <= JS.length (nth k lines []).
Proof.
  induction content as [|c r IH]; intros p acc Hp.
  - simpl in Hp. assert (p = 0%nat) by lia. subst p. simpl.
    repeat split; try lia. f_equal. unfold JS.length. simpl. lia.
  - destruct p as [|p'].
    + simpl firstn. change (split_LF []) with [@nil code_unit].
      pose proof (split_LF_nonempty (c :: r)) as Hne.
      destruct (split_LF (c :: r)) as [|l0 ls]; [congruence|].
      simpl. unfold JS.length. simpl List.length.
      repeat split; try lia. f_equal; lia.
    + simpl in Hp. assert (Hp' : (p' <= List.length r)%nat) by lia.
      specialize (IH p').
      cbn [firstn split_LF].
      pose proof (split_LF_nonempty (firstn p' r)) as Hne.
      pose proof (split_LF_nonempty r) as Hne'.
      destruct (c =? LF).
      * (* a newline closes the first line *)
        specialize (IH (acc + 1) Hp'). cbv zeta in IH.
        destruct IH as (Hs & Hk & Hl).
        destruct (split_LF (firstn p' r)) as [|q0 qs] eqn:Epre; [congruence|].
        cbn [List.length Nat.sub] in *. rewrite Nat.sub_0_r in *.
        cbn [seq sum_lines nth_error].
        rewrite <- seq_shift, sum_lines_shift.
        replace (acc + JS.length [] + 1) with (acc + 1)
          by (unfold JS.length; simpl; lia).
        repeat split.
        -- rewrite Hs. f_equal.
           change (last ([] :: q0 :: qs) []) with (last (q0 :: qs) []).
           lia.
        -- simpl. lia.
        -- change (last ([] :: q0 :: qs) []) with (last (q0 :: qs) []).
           simpl nth. exact Hl.
      * (* an ordinary code unit extends the first line *)
        destruct (split_LF (firstn p' r)) as [|q0 qs] eqn:Epre; [congruence|].
        destruct (split_LF r) as [|l0 ls] eqn:Elines; [congruence|].
        cbn [List.length Nat.sub] in *. rewrite Nat.sub_0_r in *.
        destruct qs as [|q1 qs'].
        -- specialize (IH acc Hp'). cbv zeta in IH.
           destruct IH as (Hs & Hk & Hl).
           cbn [List.length seq sum_lines last nth] in *.
           injection Hs as Hs.
           repeat split; try lia.
           ++ f_equal. unfold JS.length in *. simpl List.length. lia.
           ++ unfold JS.length in *. simpl List.length. lia.
        -- specialize (IH acc Hp'). cbv zeta in IH.
           destruct IH as (Hs & Hk & Hl).
           cbn [List.length seq sum_lines nth_error] in *.
           rewrite <- seq_shift in *.
           rewrite (sum_lines_head _ l0).
           replace (acc + JS.length (c :: l0) + 1)
             with (acc + JS.length l0 + 1 + 1)
             by (unfold JS.length; simpl List.length; lia).
           rewrite sum_lines_acc, Hs. cbn [option_map].
           repeat split; try lia.
           ++ f_equal.
              change (last ((c :: q0) :: q1 :: qs') [])
                with (last (q1 :: qs') []).
              change (last (q0 :: q1 :: qs') [])
                with (last (q1 :: qs') []).
              lia.
           ++ change (last ((c :: q0) :: q1 :: qs') [])
                with (last (q1 :: qs') []).
              change (last (q0 :: q1 :: qs') [])
                with (last (q1 :: qs') []) in Hl.
              simpl nth in *. exact Hl.
Qed.

Lemma last_default {A} (a : list A) (d d' : A) :
  a <> [] -> last a d = last a d'.
Proof.
  induction a as [|x r IH]; [congruence|]. intros _.
  destruct r as [|y r']; [reflexivity|].
  change (last (y :: r') d = last (y :: r') d'). apply IH. discriminate.
Qed.

Lemma pop_last {A} (a : list A) (d : A) : a <> [] -> pop a = Some (last a d).
Proof.
  destruct a as [|x r]; [congruence|]. intros _. simpl pop. f_equal.
  destruct r as [|y r']; [reflexivity|].
  change (last (x :: y :: r') d) with (last (y :: r') d).
  apply last_default. discriminate.
Qed.

Lemma calculateApproximatePosition_in_range (content : jsstring) (position : Z) :
  0 <= position <= JS.length content ->
  calculateApproximatePosition content position = Some position.
Proof.
  intros Hpos. unfold calculateApproximatePosition, substring0.
  assert (Hp : (Z.to_nat position <= List.length content)%nat)
    by (unfold JS.length in Hpos; lia).
  destruct (round_trip_nat content (Z.to_nat position) 0 Hp) as (Hs & Hk & Hl).
  set (pre := split_LF (firstn (Z.to_nat position) content)) in *.
  rewrite (pop_last pre []) by apply split_LF_nonempty.
  assert (Hpre : (1 <= List.length pre)%nat).
  { pose proof (split_LF_nonempty (firstn (Z.to_nat position) content)).
    fold pre in H. destruct pre; [congruence|simpl; lia]. }
  unfold alength.
  replace (Z.to_nat (Z.min (Z.of_nat (List.length pre) - 1)
                        (Z.of_nat (List.length (split_LF content)))))
    with (List.length pre - 1)%nat by lia.
  rewrite Hs.
  replace (Z.of_nat (List.length pre) <=? Z.of_nat (List.length (split_LF content)))
    with true by (symmetry; apply Z.leb_le; lia).
  unfold index.
  replace (Z.of_nat (List.length pre) - 1 <? 0) with false
    by (symmetry; apply Z.ltb_ge; lia).
  replace (Z.to_nat (Z.of_nat (List.length pre) - 1))
    with (List.length pre - 1)%nat by lia.
  rewrite (nth_error_nth' (split_LF content) (@nil code_unit) Hk).
  unfold length_or_0.
  assert (Hor : (if JS.length (nth (List.length pre - 1) (split_LF content) []) =? 0
                 then 0
                 else JS.length (nth (List.length pre - 1) (split_LF content) []))
                = JS.length (nth (List.length pre - 1) (split_LF content) [])).
  { destruct (Z.eqb_spec
                (JS.length (nth (List.length pre - 1) (split_LF content) [])) 0);
      congruence. }
  rewrite Hor. f_equal. lia.
Qed.

End ApproximatePosition.
(** ** Facts about the timer queue *)
Section TimerFacts.

Import Timers.

Context {C : Type}.

Implicit Types (l : list (timer C)) (t u : timer C) (k : clock C).

Lemma earliest_In l t : earliest l = Some t -> In t l.
Proof.
  revert t; induction l as [|a r IH]; intros t; simpl; [discriminate|].
  destruct (earliest r) as [u|].
  - destruct (t_due u <? t_due a); intros [= <-]; auto.
  - intros [= <-]; auto.
Qed.

Lemma earliest_least l t u :
  earliest l = Some t -> In u l -> t_due t <= t_due u.
Proof.
  revert t; induction l as [|a r IH]; intros t; simpl; [discriminate|].
  intros He Hin.
  destruct (earliest r) as [v|] eqn:Ev.
  - specialize (IH v eq_refl).
    destruct (Z.ltb_spec (t_due v) (t_due a)); injection He as <-;
      destruct Hin as [<-|Hin]; try lia; try (specialize (IH Hin); lia).
  - injection He as <-. destruct Hin as [<-|Hin]; [lia|].
    destruct r; [contradiction|]. simpl in Ev.
    destruct (earliest r); [destruct (_ <? _)|]; discriminate.
Qed.

Lemma earliest_None l : earliest l = None -> l = [].
Proof.
  destruct l as [|a r]; [reflexivity|]. simpl.
  destruct (earliest r); [destruct (_ <? _)|]; discriminate.
Qed.

Lemma next_due_Some deadline k t :
  next_due deadline k = Some t ->
  In t (pending k) /\ t_due t <= deadline.
Proof.
  unfold next_due. destruct (earliest (pending k)) as [u|] eqn:Eu; [|discriminate].
  destruct (Z.leb_spec (t_due u) deadline); [|discriminate].
  intros [= <-]. split; [eapply earliest_In; eauto|assumption].
Qed.

Lemma next_due_earliest deadline k t :
  next_due deadline k = Some t -> earliest (pending k) = Some t.
Proof.
  unfold next_due. destruct (earliest (pending k)) as [u|]; [|discriminate].
  destruct (t_due u <=? deadline); [|discriminate]. intros [= <-]. reflexivity.
Qed.

Lemma next_due_None deadline k u :
  next_due deadline k = None -> In u (pending k) -> deadline < t_due u.
Proof.
  unfold next_due. destruct (earliest (pending k)) as [t|] eqn:Et.
  - destruct (Z.leb_spec (t_due t) deadline); [discriminate|].
    intros _ Hin. pose proof (earliest_least _ _ _ Et Hin). lia.
  - intros _ Hin. apply earliest_None in Et. rewrite Et in Hin. contradiction.
Qed.

(** The timer that fires first is the first one with the least due time. *)
Lemma earliest_first l t :
  earliest l = Some t ->
  exists l1 l2, l = l1 ++ t :: l2
                /\ (forall u, In u l1 -> t_due t < t_due u)
                /\ (forall u, In u l2 -> t_due t <= t_due u).
Proof.
  revert t; induction l as [|a l IH]; intros t; simpl; [discriminate|].
  destruct (earliest l) as [v|] eqn:Ev.
  - destruct (IH v eq_refl) as (l1 & l2 & Hl & H1 & H2).
    destruct (Z.ltb_spec (t_due v) (t_due a)) as [Hlt|Hge]; intros [= <-].
    + exists (a :: l1), l2. rewrite Hl. split; [reflexivity|].
      split; [|exact H2]. intros u [<-|Hu]; [exact Hlt|now apply H1].
    + exists [], l. split; [reflexivity|]. split; [intros u []|].
      intros u Hu. pose proof (earliest_least _ _ _ Ev Hu). lia.
  - intros [= <-]. apply earliest_None in Ev. subst l.
    exists [], []. repeat split; intros u [].
Qed.

(** When the timer set last fires first, every other one is due later. *)
Lemma earliest_last l r u :
  ~ In r l -> earliest (l ++ [r]) = Some r -> In u l -> t_due r < t_due u.
Proof.
  intros Hnot He Hu.
  destruct (earliest_first _ _ He) as (l1 & l2 & Hl & H1 & _).
  destruct l2 as [|b l2] using rev_ind.
  - apply app_inj_tail in Hl. destruct Hl as [-> _]. now apply H1.
  - exfalso. apply Hnot.
    change (l1 ++ r :: l2 ++ [b]) with (l1 ++ (r :: l2) ++ [b]) in Hl.
    rewrite app_assoc in Hl. apply app_inj_tail in Hl. destruct Hl as [-> _].
    apply in_app_iff. right. left. reflexivity.
Qed.
Lemma drop_In id l t : In t (drop id l) <-> In t l /\ t_id t <> id.
Proof.
  unfold drop. rewrite filter_In. split; intros [H1 H2]; split; auto.
  - intros e. apply Z.eqb_eq in e. rewrite e in H2. discriminate.
  - apply Z.eqb_neq in H2. rewrite H2. reflexivity.
Qed.

Lemma drop_filter id (f : timer C -> bool) l :
  filter f (drop id l) = drop id (filter f l).
Proof.
  unfold drop. induction l as [|a r IH]; [reflexivity|]. simpl.
  destruct (negb (t_id a =? id)) eqn:Ea, (f a) eqn:Fa; simpl;
    rewrite ?Ea, ?Fa, IH; reflexivity.
Qed.

End TimerFacts.

(** Splits a conjunction, and leaves a record such as [WF] whole. *)
Ltac conjuncts := repeat match goal with |- _ /\ _ => split end.

(** ** Facts about computations *)
Section EffFacts.

Import Eff.

Context {W : Type} (I : W -> Prop).

Lemma preserves_ret {A} (a : A) : preserves I (ret a).
Proof. intros w H; exact H. Qed.

Lemma preserves_throw {A} : preserves I (@throw W A).
Proof. intros w H; exact H. Qed.

Lemma preserves_read {A} (f : W -> A) : preserves I (read f).
Proof. intros w H; exact H. Qed.

Lemma preserves_exec (f : W -> W) :
  (forall w, I w -> I (f w)) -> preserves I (exec f).
Proof. intros Hf w H; apply Hf, H. Qed.

Lemma preserves_bind {A B} (c : M W A) (k : A -> M W B) :
  preserves I c -> (forall a, preserves I (k a)) -> preserves I (bind c k).
Proof.
  intros Hc Hk w H. unfold bind. specialize (Hc w H).
  destruct (c w) as [[a|] w']; simpl in *; [apply Hk|]; assumption.
Qed.

Lemma preserves_try_finally {A} (body : M W A) (cleanup : M W unit) :
  preserves I body -> preserves I cleanup ->
  preserves I (try_finally body cleanup).
Proof.
  intros Hb Hc w H. unfold try_finally. specialize (Hb w H).
  destruct (body w) as [r w1]; simpl in *. specialize (Hc w1 Hb).
  destruct (cleanup w1) as [[u|] w2]; simpl in *; assumption.
Qed.

Lemma takes_bind {A B} (P R Q : W -> Prop) (c : M W A) (k : A -> M W B) :
  takes P R c -> (forall a, takes R Q (k a)) -> (forall w, R w -> Q w) ->
  takes P Q (bind c k).
Proof.
  intros Hc Hk Hw w H. unfold bind. specialize (Hc w H).
  destruct (c w) as [[a|] w']; simpl in *; [apply Hk|apply Hw]; assumption.
Qed.

Lemma takes_try_finally {A} (P R Q : W -> Prop) (body : M W A)
  (cleanup : M W unit) :
  takes P R body -> takes R Q cleanup -> takes P Q (try_finally body cleanup).
Proof.
  intros Hb Hc w H. unfold try_finally. specialize (Hb w H).
  destruct (body w) as [r w1]; simpl in *. specialize (Hc w1 Hb).
  destruct (cleanup w1) as [[u|] w2]; simpl in *; assumption.
Qed.

(** A [try] whose handler and cleanup cannot throw lets nothing escape. *)
Lemma try_catch_finally_returns (body : M W unit) (h c : W -> W) (w : W) :
  fst (try_catch_finally body (exec h) (exec c) w) = Ok tt.
Proof.
  unfold try_catch_finally, try_finally, exec.
  destruct (body w) as [[[]|] w1]; reflexivity.
Qed.

(** The world after such a [try]: the cleanup applied to what the body, and
    the handler after a throw, left behind. *)
Lemma try_catch_finally_world (body : M W unit) (h c : W -> W) (w : W) :
  snd (try_catch_finally body (exec h) (exec c) w) =
  c (match body w with
     | (Ok _, w1) => w1
     | (Thrown, w1) => h w1
     end).
Proof.
  unfold try_catch_finally, try_finally, exec.
  destruct (body w) as [[[]|] w1]; reflexivity.
Qed.

End EffFacts.

(** ** Facts about the SyncManager class *)
Section SyncManagerFacts.

Import SyncManager SyncManagerSpec Timers Eff.

Context {E : Engine}.

Implicit Types (w : world) (t : timer task) (cb : callback).

(** *** The handlers under a set flag *)

Lemma handleCodeMirrorChange_suppressed content o w :
  isUpdating (this w) = true -> handleCodeMirrorChange content o w = w.
Proof. intros H. unfold handleCodeMirrorChange. now rewrite H. Qed.

Lemma handleMilkdownChange_suppressed content o w :
  isUpdating (this w) = true -> handleMilkdownChange content o w = w.
Proof. intros H. unfold handleMilkdownChange. now rewrite H. Qed.

(** *** Inside the critical section *)

Lemma syncs_emit e w :
  syncs (emit e w) = syncs w ++ (if is_Sync e then [e] else []).
Proof. unfold syncs, emit; simpl. now rewrite filter_app. Qed.

Lemma total_weight_app (l l' : list (timer task)) :
  total_weight (l ++ l') = (total_weight l + total_weight l')%nat.
Proof.
  induction l as [|a r IH]; simpl; [reflexivity|]. rewrite IH. lia.
Qed.

Lemma NoDup_ids_drop id (l : list (timer task)) :
  NoDup (map t_id l) -> NoDup (map t_id (drop id l)).
Proof.
  induction l as [|a r IH]; simpl; [auto|]. intros Hnd.
  inversion Hnd as [|x xs Hnotin Hnd' Heq]; subst.
  destruct (negb (t_id a =? id)); simpl; [|auto].
  constructor; [|auto]. rewrite in_map_iff. intros (u & Hu & Hin).
  apply drop_In in Hin. apply Hnotin. rewrite in_map_iff. exists u. tauto.
Qed.

Lemma NoDup_ids_app n (l l' : list (timer task)) :
  NoDup (map t_id l) -> NoDup (map t_id l') ->
  (forall u, In u l -> t_id u < n) -> (forall u, In u l' -> n <= t_id u) ->
  NoDup (map t_id (l ++ l')).
Proof.
  intros Hl Hl' Hlt Hge. induction l as [|a r IH]; simpl; [exact Hl'|].
  inversion Hl as [|x xs Hnotin Hnd Heq]; subst. constructor.
  - rewrite map_app, in_app_iff. intros [H|H]; [contradiction|].
    rewrite in_map_iff in H. destruct H as (u & Hu & Hin).
    specialize (Hge u Hin). specialize (Hlt a (or_introl eq_refl)). lia.
  - apply IH; [exact Hnd|]. intros u Hu. apply Hlt. right. exact Hu.
Qed.

Lemma same_id (l : list (timer task)) t u :
  NoDup (map t_id l) -> In t l -> In u l -> t_id t = t_id u -> t = u.
Proof.
  induction l as [|a r IH]; simpl; [contradiction|]. intros Hnd Ht Hu Heq.
  inversion Hnd as [|x xs Hnotin Hnd' Hx]; subst.
  destruct Ht as [<-|Ht], Hu as [<-|Hu]; auto.
  - exfalso. apply Hnotin. rewrite Heq. now apply in_map.
  - exfalso. apply Hnotin. rewrite <- Heq. now apply in_map.
Qed.

Lemma drop_all id (l : list (timer task)) :
  (forall u, In u l -> t_id u = id) -> drop id l = [].
Proof.
  induction l as [|a r IH]; intros H; [reflexivity|]. simpl.
  rewrite (H a (or_introl eq_refl)), Z.eqb_refl. simpl.
  apply IH. intros u Hu. apply H. right. exact Hu.
Qed.

Lemma inner_nil n : inner n [].
Proof. split; [constructor|intros u []]. Qed.

(** One more timer of Milkdown, with the next handle. *)
Lemma inner_snoc n l due k :
  is_inner k = true -> inner n l ->
  inner n (l ++ [mk (n + Z.of_nat (List.length l)) due k]).
Proof.
  intros Hk [Hnd Hin]. split.
  - apply (NoDup_ids_app (n + Z.of_nat (List.length l))).
    + exact Hnd.
    + repeat constructor. intros [].
    + intros u Hu. apply Hin in Hu. lia.
    + intros u [<-|[]]. cbn [mk t_id]. lia.
  - intros u Hu. rewrite length_app. cbn [List.length].
    apply in_app_iff in Hu. destruct Hu as [Hu|[<-|[]]].
    + apply Hin in Hu. split; [lia|tauto].
    + cbn [mk t_id t_cb]. split; [lia|exact Hk].
Qed.

Section During.

Variable w0 : world.
Variable k : nat.
Hypothesis busy : isUpdating (this w0) = true.

Lemma during_refl : during w0 0 w0.
Proof.
  repeat split. exists []. simpl. rewrite app_nil_r, Z.add_0_r.
  split; [lia|]. split; [apply inner_nil|]. split; reflexivity.
Qed.

Lemma during_more w : during w0 k w -> during w0 (S k) w.
Proof.
  intros (H1 & H2 & H3 & l & Hl & H4). repeat split; try assumption.
  exists l. split; [lia|exact H4].
Qed.

Lemma during_busy w : during w0 k w -> isUpdating (this w) = true.
Proof. intros [H _]. now rewrite H. Qed.

Lemma during_set_cm v w : during w0 k w -> during w0 k (set_cm v w).
Proof. intros H; exact H. Qed.

Lemma during_set_md v w : during w0 k w -> during w0 k (set_md v w).
Proof. intros H; exact H. Qed.

Lemma during_emit e w :
  is_Sync e = false -> during w0 k w -> during w0 k (emit e w).
Proof.
  intros He (H1 & H2 & H3 & H4). repeat split; try assumption.
  rewrite syncs_emit, He, app_nil_r. exact H3.
Qed.

(** Milkdown or its wrapper schedules a timer. *)
Lemma during_schedule task delay w :
  is_inner task = true ->
  during w0 k w ->
  during w0 (k + weight task) (snd (schedule task delay w)).
Proof.
  intros Hk (H1 & H2 & H3 & l & Hl & Hin & H4 & H5).
  repeat split; try assumption.
  exists (l ++ [mk (next_id (clk w0) + Z.of_nat (List.length l))
                  (now (clk w) + Z.max 0 delay) task]).
  unfold schedule, setTimeout, set_clk; cbn [snd clk pending next_id].
  rewrite H4, H5, <- app_assoc, length_app, total_weight_app.
  cbn [List.length total_weight fold_right mk t_cb].
  split; [lia|]. split; [now apply inner_snoc|].
  split; [rewrite H2; reflexivity|lia].
Qed.

Lemma during_weaken k' w : (k <= k')%nat -> during w0 k w -> during w0 k' w.
Proof.
  intros Hk (H1 & H2 & H3 & l & Hl & H4). repeat split; try assumption.
  exists l. split; [lia|exact H4].
Qed.

Lemma during_cm_dispatch_changes content o :
  preserves (during w0 k) (cm_dispatch_changes content o).
Proof.
  apply preserves_exec. intros w H. cbv zeta.
  rewrite handleCodeMirrorChange_suppressed.
  - now apply during_emit, during_set_cm.
  - eapply during_busy, during_emit, during_set_cm; eauto.
Qed.

Lemma during_cm_setContent content :
  preserves (during w0 k) (cm_setContent content).
Proof.
  apply preserves_bind; [apply preserves_read|]. intros cur.
  destruct (JS.eqb cur content);
    [apply preserves_ret|apply during_cm_dispatch_changes].
Qed.

Lemma during_cm_setCursorPosition pos :
  preserves (during w0 k) (cm_setCursorPosition pos).
Proof.
  intros w H. unfold cm_setCursorPosition.
  destruct (_ && _); simpl; [|exact H].
  now apply during_emit, during_set_cm.
Qed.

Lemma during_md_listener markdown prev o w :
  during w0 k w -> during w0 k (md_listener markdown prev o w).
Proof.
  intros H. unfold md_listener. destruct (_ && _); [|exact H].
  rewrite handleMilkdownChange_suppressed; [exact H|].
  now apply during_busy.
Qed.

Lemma during_md_dispatch_replace d o :
  takes (during w0 k) (during w0 (k + 3)) (md_dispatch_replace d o).
Proof.
  intros w H. unfold md_dispatch_replace, exec. cbn [snd]. cbv zeta.
  apply (during_schedule (notification d o)); [reflexivity|].
  now apply during_emit, during_set_md.
Qed.

End During.

Section DuringCallback.

Variable w0 : world.
Hypothesis busy : isUpdating (this w0) = true.

Lemma during_md_setContent content :
  takes (during w0 0) (during w0 4) (md_setContent content).
Proof.
  unfold md_setContent.
  apply (takes_bind _ (during w0 0));
    [apply preserves_exec; intros w H; exact H|
    |intros w; apply during_weaken; lia].
  intros _. apply (takes_try_finally _ (during w0 3)).
  - destruct (parser content).
    + intros w H. apply (during_weaken w0 0); [lia|exact H].
    + intros w H. apply (during_weaken w0 0); [lia|exact H].
    + apply (during_md_dispatch_replace w0 0).
  - intros w H. apply (during_schedule w0 3 internal_release); [reflexivity|].
    exact H.
Qed.

Lemma during_on_editor {A} n field (c : SyncManager.M A) :
  preserves (during w0 n) c -> preserves (during w0 n) (on_editor field c).
Proof.
  intros Hc w H. unfold on_editor. destruct (field (this w)); [apply Hc|]; exact H.
Qed.

(** The [try] block of the callback of [handleCodeMirrorChange]... *)
Lemma during_body_to_milkdown content :
  takes (during w0 0) (during w0 4)
    (cursorPos <- on_editor codemirrorEditor cm_getCursorPosition ;;
     on_editor milkdownEditor (md_setContent content) ;;;
     match calculateApproximatePosition content cursorPos with
     | None => throw
     | Some approximatePos =>
         (if approximatePos >=? 0
          then on_editor milkdownEditor (md_setCursorPosition approximatePos)
          else ret tt) ;;;
         exec (updateStatus ready)
     end)%eff.
Proof.
  apply (takes_bind _ (during w0 0));
    [apply during_on_editor, preserves_read|
    |intros w; apply during_weaken; lia].
  intros pos.
  apply (takes_bind _ (during w0 4)); [|intros _|auto].
  - intros w H. unfold on_editor.
    destruct (milkdownEditor (this w));
      [apply during_md_setContent, H|apply (during_weaken w0 0); [lia|exact H]].
  - destruct (calculateApproximatePosition content pos) as [a|];
      [|apply preserves_throw].
    apply preserves_bind.
    + destruct (a >=? 0); [|apply preserves_ret].
      intros w H. unfold on_editor, md_setCursorPosition.
      destruct (milkdownEditor (this w)); [|exact H].
      destruct (_ <? 0); simpl; [exact H|].
      destruct H as (H1 & H2 & H3 & H4). repeat split; try assumption.
      rewrite syncs_emit. simpl. rewrite app_nil_r. exact H3.
    + intros _. apply preserves_exec. intros w H; exact H.
Qed.

(** ... and the one of the callback of [handleMilkdownChange]. *)
Lemma during_body_to_codemirror content :
  preserves (during w0 0)
    (currentContent <- on_editor codemirrorEditor cm_getContent ;;
     (if negb (JS.eqb currentContent content) then
        cursorPos <- on_editor codemirrorEditor cm_getCursorPosition ;;
        on_editor codemirrorEditor (cm_setContent content) ;;;
        on_editor codemirrorEditor
          (cm_setCursorPosition
             (adjustCursorPosition currentContent content cursorPos))
      else ret tt) ;;;
     exec (updateStatus ready))%eff.
Proof.
  apply preserves_bind; [apply during_on_editor, preserves_read|]. intros cur.
  apply preserves_bind.
  - destruct (negb (JS.eqb cur content)); [|apply preserves_ret].
    apply preserves_bind; [apply during_on_editor, preserves_read|]. intros pos.
    apply preserves_bind;
      [apply during_on_editor, during_cm_setContent; exact busy|].
    intros _. apply during_on_editor, during_cm_setCursorPosition.
  - intros _. apply preserves_exec. intros w H; exact H.
Qed.

End DuringCallback.

(** *** What a debounced callback leaves behind *)

Lemma critical_section_entered src content o (body : SyncManager.M unit) w :
  (forall w0, isUpdating (this w0) = true ->
              takes (during w0 0) (during w0 (budget src)) body) ->
  entered src content o w
    (snd (try_catch_finally body (exec (updateStatus error)) release_later
            (emit (Sync src content o)
               (set_lastSource (Some src) (set_isUpdating true w))))).
Proof.
  intros Hbody.
  set (w1 := emit (Sync src content o)
               (set_lastSource (Some src) (set_isUpdating true w))).
  assert (Hbusy : isUpdating (this w1) = true) by reflexivity.
  unfold release_later. rewrite try_catch_finally_world.
  pose proof (Hbody w1 Hbusy w1 (during_refl w1)) as Hd.
  set (w2 := match body w1 with
             | (Ok _, w2) => w2
             | (Thrown, w2) => updateStatus error w2
             end).
  assert (Hd2 : during w1 (budget src) w2).
  { subst w2. destruct (body w1) as [[u|] w2]; simpl in Hd; exact Hd. }
  destruct Hd2 as (H1 & H2 & H3 & l & Hl & Hin & H4 & H5).
  assert (Hs : syncs w1 = syncs w ++ [Sync src content o]).
  { subst w1. rewrite syncs_emit. reflexivity. }
  unfold entered, schedule, setTimeout, set_clk; cbn [snd this clk now pending next_id].
  split; [rewrite H1; reflexivity|].
  split; [rewrite H2; reflexivity|].
  split; [unfold syncs in *; cbn [log]; rewrite H3; exact Hs|].
  exists l. rewrite H4, H5, H2, <- app_assoc.
  split; [exact Hl|]. split; [exact Hin|]. split; reflexivity.
Qed.

Lemma run_sync_to_milkdown_entered content o w :
  lastSource (this w) <> Some milkdown ->
  entered codemirror content o w (snd (run_sync_to_milkdown content o w)).
Proof.
  intros Hl. unfold run_sync_to_milkdown.
  destruct (lastSource (this w)) as [[|]|]; try congruence;
    apply critical_section_entered; intros w0 Hb;
    apply during_body_to_milkdown; exact Hb.
Qed.

Lemma run_sync_to_codemirror_entered content o w :
  lastSource (this w) <> Some codemirror ->
  entered milkdown content o w (snd (run_sync_to_codemirror content o w)).
Proof.
  intros Hl. unfold run_sync_to_codemirror.
  destruct (lastSource (this w)) as [[|]|]; try congruence;
    apply critical_section_entered; intros w0 Hb;
    apply during_body_to_codemirror; exact Hb.
Qed.

(** No callback lets an exception escape to the timer that runs it. *)
Lemma run_callback_returns cb w : fst (run_callback cb w) = Ok tt.
Proof.
  destruct cb as [content o|content o| |]; simpl; try reflexivity.
  - unfold run_sync_to_milkdown.
    destruct (lastSource (this w)) as [[|]|]; try reflexivity;
      apply try_catch_finally_returns.
  - unfold run_sync_to_codemirror.
    destruct (lastSource (this w)) as [[|]|]; try reflexivity;
      apply try_catch_finally_returns.
Qed.

(** *** What a handler leaves behind *)

Lemma handleCodeMirrorChange_idle content o w :
  isUpdating (this w) = false ->
  let w' := handleCodeMirrorChange content o w in
  let n := next_id (clk w) in
  this w' = this (set_debounceTimer (Some n) w)
  /\ now (clk w') = now (clk w)
  /\ next_id (clk w') = n + 1
  /\ pending (clk w') =
       cleared (debounceTimer (this w)) (pending (clk w))
       ++ [mk n (now (clk w) + Z.max 0 (syncDelay (this w)))
             (sync_to_milkdown content o)]
  /\ log w' = log w /\ cm w' = cm w /\ md w' = md w.
Proof.
  intros H. unfold handleCodeMirrorChange. rewrite H.
  destruct (debounceTimer (this w)); repeat split.
Qed.

Lemma handleMilkdownChange_idle content o w :
  isUpdating (this w) = false ->
  let w' := handleMilkdownChange content o w in
  let n := next_id (clk w) in
  this w' = this (set_debounceTimer (Some n) w)
  /\ now (clk w') = now (clk w)
  /\ next_id (clk w') = n + 1
  /\ pending (clk w') =
       cleared (debounceTimer (this w)) (pending (clk w))
       ++ [mk n (now (clk w) + Z.max 0 (syncDelay (this w)))
             (sync_to_codemirror content o)]
  /\ log w' = log w /\ cm w' = cm w /\ md w' = md w.
Proof.
  intros H. unfold handleMilkdownChange. rewrite H.
  destruct (debounceTimer (this w)); repeat split.
Qed.

(** *** The timers of a well-formed world *)

Lemma inner_filter (f : task -> bool) n (l : list (timer task)) :
  (forall k, is_inner k = true -> f k = false) ->
  inner n l -> filter (fun t => f (t_cb t)) l = [].
Proof.
  intros Hf [_ Hin].
  assert (H : forall u, In u l -> is_inner (t_cb u) = true)
    by (intros u Hu; apply (Hin u Hu)).
  clear Hin. induction l as [|a r IH]; [reflexivity|]. simpl.
  rewrite (Hf (t_cb a)) by (apply (H a); left; reflexivity).
  apply IH. intros u Hu. apply H. right. exact Hu.
Qed.

Lemma pending_syncs_In w t :
  In t (pending_syncs w) <->
  In t (pending (clk w)) /\ is_sync_task (t_cb t) = true.
Proof. unfold pending_syncs. apply filter_In. Qed.

Lemma pending_releases_In w t :
  In t (pending_releases w) <-> In t (pending (clk w)) /\ t_cb t = release.
Proof.
  unfold pending_releases. rewrite filter_In.
  split; intros [H1 H2]; split; auto.
  - destruct (t_cb t) as [[]|]; simpl in H2; congruence.
  - now rewrite H2.
Qed.

Lemma pending_notifications_In w t :
  In t (pending_notifications w) <->
  In t (pending (clk w)) /\ is_notification (t_cb t) = true.
Proof. unfold pending_notifications. apply filter_In. Qed.

(** A debounced callback is only pending while the flag is clear. *)
Lemma sync_pending_idle w t :
  WF w -> In t (pending (clk w)) -> is_sync_task (t_cb t) = true ->
  isUpdating (this w) = false /\ lastSource (this w) = None.
Proof.
  intros Hwf Hin Hs. destruct (isUpdating (this w)) eqn:Eu.
  - destruct (wf_busy w Hwf Eu) as [Hnone _].
    assert (Ht : In t (pending_syncs w)) by now apply pending_syncs_In.
    rewrite Hnone in Ht. contradiction.
  - split; [reflexivity|]. apply (wf_idle w Hwf Eu).
Qed.

(** A release is only pending while the flag is set. *)
Lemma release_pending_busy w t :
  WF w -> In t (pending (clk w)) -> t_cb t = release ->
  isUpdating (this w) = true /\ pending_releases w = [t].
Proof.
  intros Hwf Hin Hr.
  assert (Ht : In t (pending_releases w)) by now apply pending_releases_In.
  destruct (isUpdating (this w)) eqn:Eu.
  - split; [reflexivity|]. destruct (wf_busy w Hwf Eu) as [_ [r Hr']].
    rewrite Hr' in Ht |- *. destruct Ht as [->|[]]. reflexivity.
  - destruct (wf_idle w Hwf Eu) as (_ & Hnone & _). rewrite Hnone in Ht.
    contradiction.
Qed.

(** *** The well-formed worlds are closed under every step *)

Lemma cleared_In h (l : list (timer task)) u :
  In u (cleared h l) -> In u l.
Proof. destruct h; simpl; [rewrite drop_In; tauto|auto]. Qed.

Lemma cleared_filter h (f : timer task -> bool) l :
  filter f (cleared h l) = cleared h (filter f l).
Proof. destruct h; simpl; [apply drop_filter|reflexivity]. Qed.

Lemma cleared_NoDup h (l : list (timer task)) :
  NoDup (map t_id l) -> NoDup (map t_id (cleared h l)).
Proof. destruct h; simpl; [apply NoDup_ids_drop|auto]. Qed.

Lemma WF_initial content doc : WF (initial content doc).
Proof.
  constructor; simpl; try contradiction; try discriminate.
  - constructor.
  - intros _. repeat split. intros t [].
Qed.

(** Well-formedness looks at the manager and the clock only. *)
Lemma WF_frame w w' :
  this w' = this w -> pending (clk w') = pending (clk w) ->
  next_id (clk w') = next_id (clk w) -> WF w -> WF w'.
Proof.
  intros Ht Hp Hn [H1 H2 H3 H4 H5 H6].
  constructor; unfold pending_syncs, pending_releases in *;
    rewrite ?Ht, ?Hp, ?Hn; assumption.
Qed.

Lemma WF_set_syncDelay delay w : WF w -> WF (set_syncDelay delay w).
Proof. intros [H1 H2 H3 H4 H5 H6]. constructor; assumption. Qed.

(** A handler has replaced the pending debounced callback by a new one. *)
Lemma WF_scheduled w w' cb due :
  WF w -> isUpdating (this w) = false -> is_sync cb = true ->
  this w' = this (set_debounceTimer (Some (next_id (clk w))) w) ->
  next_id (clk w') = next_id (clk w) + 1 ->
  pending (clk w') =
    cleared (debounceTimer (this w)) (pending (clk w))
    ++ [mk (next_id (clk w)) due cb] ->
  WF w'.
Proof.
  intros Hwf Hidle Hcb Hthis Hnext Hpend.
  destruct (wf_idle w Hwf Hidle) as (Hlast & Hrel & Hsync).
  assert (Hold : forall u,
             In u (cleared (debounceTimer (this w)) (pending (clk w))) ->
             t_id u < next_id (clk w)).
  { intros u Hu. apply (wf_ids w Hwf), (cleared_In _ _ _ Hu). }
  constructor.
  - intros u. rewrite Hpend, Hnext, in_app_iff. intros [Hu|[<-|[]]].
    + specialize (Hold u Hu). lia.
    + simpl. lia.
  - rewrite Hpend. apply (NoDup_ids_app (next_id (clk w))).
    + apply cleared_NoDup, (wf_nodup w Hwf).
    + repeat constructor. intros [].
    + exact Hold.
    + intros u [<-|[]]. simpl. lia.
  - rewrite Hthis, Hnext. simpl. intros id [= <-]. lia.
  - intros u. rewrite Hpend, Hthis, in_app_iff. simpl.
    intros Hu Hid. injection Hid as Hid. destruct Hu as [Hu|[<-|[]]].
    + specialize (Hold u Hu). lia.
    + exact Hcb.
  - rewrite Hthis. simpl. congruence.
  - rewrite Hthis. simpl. intros _. repeat split.
    + exact Hlast.
    + unfold pending_releases in *. rewrite Hpend, filter_app, cleared_filter, Hrel.
      simpl. destruct cb; simpl in *; try discriminate;
        destruct (debounceTimer (this w)); reflexivity.
    + intros u. unfold pending_syncs in *.
      rewrite Hpend, filter_app, cleared_filter, in_app_iff. simpl.
      rewrite Hcb. intros [Hu|[<-|[]]]; [|reflexivity].
      exfalso. destruct (debounceTimer (this w)) as [id|] eqn:Eh; simpl in Hu.
      * apply drop_In in Hu. destruct Hu as [Hu Hne].
        specialize (Hsync u Hu). congruence.
      * specialize (Hsync u Hu). discriminate.
Qed.

Lemma WF_handleCodeMirrorChange content o w :
  WF w -> WF (handleCodeMirrorChange content o w).
Proof.
  intros Hwf. destruct (isUpdating (this w)) eqn:Eu.
  - now rewrite handleCodeMirrorChange_suppressed.
  - destruct (handleCodeMirrorChange_idle content o w Eu)
      as (H1 & H2 & H3 & H4 & _).
    eapply WF_scheduled; eauto. reflexivity.
Qed.

Lemma WF_handleMilkdownChange content o w :
  WF w -> WF (handleMilkdownChange content o w).
Proof.
  intros Hwf. destruct (isUpdating (this w)) eqn:Eu.
  - now rewrite handleMilkdownChange_suppressed.
  - destruct (handleMilkdownChange_idle content o w Eu)
      as (H1 & H2 & H3 & H4 & _).
    eapply WF_scheduled; eauto. reflexivity.
Qed.

(** A debounced callback has fired and gone through its critical section. *)
Lemma WF_entered w t w' src content o :
  WF w -> In t (pending (clk w)) -> is_sync_task (t_cb t) = true ->
  entered src content o (set_clk (fired t (clk w)) w) w' ->
  WF w'.
Proof.
  intros Hwf Hin Hs (Hthis & Hnow & _ & l & _ & Hinner & Hpend & Hnext).
  cbn [set_clk clk this fired pending next_id now] in *.
  destruct (sync_pending_idle w t Hwf Hin Hs) as [Hidle Hlast].
  destruct (wf_idle w Hwf Hidle) as (_ & Hrel & Hsync).
  set (n := next_id (clk w)) in *.
  set (due := Z.max (now (clk w)) (t_due t) + 100) in *.
  set (m := Z.of_nat (List.length l)) in *.
  assert (Hold : forall u, In u (drop (t_id t) (pending (clk w))) -> t_id u < n).
  { intros u Hu. apply drop_In in Hu. apply (wf_ids w Hwf), Hu. }
  assert (Hnew : forall u,
             In u (l ++ [mk (n + m) due release]) ->
             n <= t_id u < n + m + 1 /\ is_sync_task (t_cb u) = false).
  { intros u. rewrite in_app_iff. intros [Hu|[<-|[]]].
    - apply (proj2 Hinner) in Hu. destruct Hu as [H1 H2]. fold m in H1.
      split; [lia|]. destruct (t_cb u) as [[]|]; try discriminate; reflexivity.
    - simpl. split; [lia|reflexivity]. }
  constructor.
  - intros u. rewrite Hpend, Hnext, in_app_iff. intros [Hu|Hu].
    + specialize (Hold u Hu). lia.
    + apply Hnew in Hu. lia.
  - rewrite Hpend. apply (NoDup_ids_app n).
    + apply NoDup_ids_drop, (wf_nodup w Hwf).
    + apply (NoDup_ids_app (n + m)).
      * apply Hinner.
      * repeat constructor. intros [].
      * intros u Hu. apply (proj2 Hinner) in Hu. fold m in Hu. lia.
      * intros u [<-|[]]. simpl. lia.
    + exact Hold.
    + intros u Hu. apply Hnew in Hu. lia.
  - rewrite Hthis, Hnext. simpl. intros id Hid.
    pose proof (wf_handle w Hwf id Hid). lia.
  - intros u. rewrite Hpend, Hthis, in_app_iff. simpl. intros [Hu|Hu] Hid.
    + apply drop_In in Hu. apply (wf_handle_sync w Hwf u); tauto.
    + apply Hnew in Hu. pose proof (wf_handle w Hwf _ Hid). lia.
  - intros _. split.
    + unfold pending_syncs in *. rewrite Hpend, !filter_app, drop_filter.
      rewrite (inner_filter is_sync_task n l);
        [|intros [[]|]; try discriminate; reflexivity|exact Hinner].
      simpl. rewrite app_nil_r. apply drop_all. intros u Hu.
      pose proof (Hsync u Hu) as H1.
      assert (Ht : In t (filter (fun t => is_sync_task (t_cb t))
                           (pending (clk w))))
        by (apply filter_In; auto).
      pose proof (Hsync t Ht) as H2. congruence.
    + unfold pending_releases in *. rewrite Hpend, !filter_app, drop_filter, Hrel.
      rewrite (inner_filter is_release_task n l);
        [|intros [[]|]; try discriminate; reflexivity|exact Hinner].
      simpl. eauto.
  - rewrite Hthis. simpl. discriminate.
Qed.

Lemma WF_release_fired w t :
  WF w -> In t (pending (clk w)) -> t_cb t = release ->
  WF (set_lastSource None (set_isUpdating false (set_clk (fired t (clk w)) w))).
Proof.
  intros Hwf Hin Hr.
  destruct (release_pending_busy w t Hwf Hin Hr) as [Hbusy Hrel].
  destruct (wf_busy w Hwf Hbusy) as [Hsync _].
  constructor; cbn [set_lastSource set_isUpdating set_this set_clk this clk
                    fired pending next_id isUpdating lastSource debounceTimer].
  - intros u Hu. apply drop_In in Hu. apply (wf_ids w Hwf), Hu.
  - apply NoDup_ids_drop, (wf_nodup w Hwf).
  - apply (wf_handle w Hwf).
  - intros u Hu. apply drop_In in Hu. apply (wf_handle_sync w Hwf), Hu.
  - discriminate.
  - intros _. unfold pending_syncs, pending_releases in *.
    cbn [set_lastSource set_isUpdating set_this set_clk this clk
         fired pending].
    rewrite !drop_filter, Hrel, Hsync. simpl. rewrite Z.eqb_refl. simpl.
    repeat split. intros u [].
Qed.

(** A timer of Milkdown has left the queue. *)
Lemma WF_inner_fired w t :
  WF w -> In t (pending (clk w)) -> is_inner (t_cb t) = true ->
  WF (set_clk (fired t (clk w)) w).
Proof.
  intros Hwf Hin Hi.
  constructor; cbn [set_clk this clk fired pending next_id].
  - intros u Hu. apply drop_In in Hu. apply (wf_ids w Hwf), Hu.
  - apply NoDup_ids_drop, (wf_nodup w Hwf).
  - apply (wf_handle w Hwf).
  - intros u Hu. apply drop_In in Hu. apply (wf_handle_sync w Hwf), Hu.
  - intros Hbusy. destruct (wf_busy w Hwf Hbusy) as [Hsync [r Hrel]].
    assert (Hr : In r (pending (clk w)) /\ t_cb r = release).
    { apply pending_releases_In. rewrite Hrel. left. reflexivity. }
    unfold pending_syncs, pending_releases in *. cbn [set_clk clk fired pending].
    rewrite !drop_filter, Hsync, Hrel. split; [reflexivity|]. exists r.
    simpl. destruct (Z.eqb_spec (t_id r) (t_id t)) as [e|_]; [|reflexivity].
    exfalso. assert (r = t)
      by (eapply same_id; eauto; [apply (wf_nodup w Hwf)|tauto]).
    subst r. destruct Hr as [_ Hr]. rewrite Hr in Hi. discriminate.
  - intros Hidle. destruct (wf_idle w Hwf Hidle) as (Hlast & Hrel & Hsync).
    unfold pending_syncs, pending_releases in *. cbn [set_clk clk fired pending].
    rewrite !drop_filter, Hrel. repeat split; [exact Hlast|].
    intros u Hu. apply drop_In in Hu. apply Hsync, Hu.
Qed.

(** A timer of Milkdown has joined the queue. *)
Lemma WF_inner_scheduled k delay w :
  is_inner k = true -> WF w -> WF (snd (schedule k delay w)).
Proof.
  intros Hk Hwf. unfold schedule, setTimeout, set_clk. cbn [snd].
  assert (Hns : is_sync_task k = false)
    by (destruct k as [[]|]; try discriminate; reflexivity).
  assert (Hnr : is_release_task k = false)
    by (destruct k as [[]|]; try discriminate; reflexivity).
  constructor; cbn [clk this pending next_id].
  - intros u Hu. apply in_app_iff in Hu. destruct Hu as [Hu|[<-|[]]].
    + pose proof (wf_ids w Hwf u Hu). lia.
    + simpl. lia.
  - apply (NoDup_ids_app (next_id (clk w))).
    + apply (wf_nodup w Hwf).
    + repeat constructor. intros [].
    + apply (wf_ids w Hwf).
    + intros u [<-|[]]. simpl. lia.
  - intros id Hid. pose proof (wf_handle w Hwf id Hid). lia.
  - intros u Hu Hid. apply in_app_iff in Hu. destruct Hu as [Hu|[<-|[]]].
    + apply (wf_handle_sync w Hwf u Hu Hid).
    + simpl in Hid. pose proof (wf_handle w Hwf _ Hid). lia.
  - intros Hb. destruct (wf_busy w Hwf Hb) as [H1 H2].
    unfold pending_syncs, pending_releases in *. cbn [clk pending].
    rewrite !filter_app. simpl. rewrite Hns, Hnr, !app_nil_r. auto.
  - intros Hi. destruct (wf_idle w Hwf Hi) as (H1 & H2 & H3).
    unfold pending_syncs, pending_releases in *. cbn [clk pending].
    rewrite !filter_app. simpl. rewrite Hns, Hnr, !app_nil_r. auto.
Qed.

(** Well-formedness looks at the manager and the clock only. *)
Lemma WF_set_prev d markdown w : WF w -> WF (set_prev d markdown w).
Proof. intros Hwf. eapply WF_frame; [| | |exact Hwf]; reflexivity. Qed.

Lemma WF_md_listener markdown prev o w :
  WF w -> WF (md_listener markdown prev o w).
Proof.
  intros Hwf. unfold md_listener. destruct (_ && _); [|exact Hwf].
  now apply WF_handleMilkdownChange.
Qed.

Lemma WF_run_notification d o w : WF w -> WF (snd (run_notification d o w)).
Proof.
  intros Hwf. unfold run_notification.
  destruct (sameDoc _ d); [now apply WF_set_prev|].
  destruct (serializer d); [|exact Hwf].
  now apply WF_set_prev, WF_md_listener.
Qed.

Lemma WF_fire w t :
  WF w -> In t (pending (clk w)) -> WF (snd (fire t w)).
Proof.
  intros Hwf Hin. unfold fire.
  destruct (t_cb t) as [[content o|content o| |]|d o] eqn:Ecb; simpl.
  - assert (Hs : is_sync_task (t_cb t) = true) by now rewrite Ecb.
    destruct (sync_pending_idle w t Hwf Hin Hs) as [_ Hlast].
    eapply WF_entered; eauto. apply run_sync_to_milkdown_entered.
    simpl. rewrite Hlast. discriminate.
  - assert (Hs : is_sync_task (t_cb t) = true) by now rewrite Ecb.
    destruct (sync_pending_idle w t Hwf Hin Hs) as [_ Hlast].
    eapply WF_entered; eauto. apply run_sync_to_codemirror_entered.
    simpl. rewrite Hlast. discriminate.
  - now apply WF_release_fired.
  - eapply WF_frame; [| | |apply (WF_inner_fired w t)]; auto.
    now rewrite Ecb.
  - apply WF_run_notification, (WF_inner_fired w t); auto.
    now rewrite Ecb.
Qed.

(** An invariant of every firing is an invariant of the event loop. *)
Lemma fire_due_invariant (I : world -> Prop) deadline :
  (forall w t, I w -> next_due deadline (clk w) = Some t -> I (snd (fire t w))) ->
  forall fuel w, I w -> I (fire_due fuel deadline w).
Proof.
  intros Hstep. induction fuel as [|fuel IH]; intros w Hw; simpl; [exact Hw|].
  destruct (next_due deadline (clk w)) as [t|] eqn:Et; [|exact Hw].
  apply IH, Hstep; assumption.
Qed.

Lemma WF_fire_due fuel deadline w : WF w -> WF (fire_due fuel deadline w).
Proof.
  apply (fire_due_invariant WF). intros w' t Hwf Ht.
  apply WF_fire; [exact Hwf|]. apply (next_due_Some _ _ _ Ht).
Qed.

Lemma WF_advance dt w : WF w -> WF (advance dt w).
Proof.
  intros Hwf. unfold advance. eapply WF_frame; [| | |eapply WF_fire_due, Hwf];
    reflexivity.
Qed.

Lemma WF_destroy w : WF w -> WF (destroy w).
Proof.
  intros Hwf. unfold destroy.
  constructor; cbn [set_editors set_this set_clk this clk isUpdating lastSource
                    debounceTimer].
  - destruct (debounceTimer (this w)); simpl; [|apply (wf_ids w Hwf)].
    intros u Hu. apply drop_In in Hu. apply (wf_ids w Hwf), Hu.
  - destruct (debounceTimer (this w)); simpl; [|apply (wf_nodup w Hwf)].
    apply NoDup_ids_drop, (wf_nodup w Hwf).
  - destruct (debounceTimer (this w)) eqn:Eh; simpl; rewrite <- Eh;
      apply (wf_handle w Hwf).
  - destruct (debounceTimer (this w)) as [id|] eqn:Eh; simpl.
    + intros u Hu Hid. apply drop_In in Hu. injection Hid as Hid.
      destruct Hu as [_ Hne]. congruence.
    + discriminate.
  - intros Hbusy. destruct (wf_busy w Hwf Hbusy) as [Hsync [r Hrel]].
    assert (Hr : In r (pending (clk w)) /\ t_cb r = release).
    { apply pending_releases_In. rewrite Hrel. left. reflexivity. }
    unfold pending_syncs, pending_releases in *.
    cbn [set_editors set_this set_clk clk].
    destruct (debounceTimer (this w)) as [id|] eqn:Eh; simpl;
      [|split; eauto].
    rewrite !drop_filter, Hsync, Hrel. split; [reflexivity|]. exists r.
    simpl. destruct (Z.eqb_spec (t_id r) id) as [e|_]; [|reflexivity].
    exfalso. subst id. destruct Hr as [Hr1 Hr2].
    pose proof (wf_handle_sync w Hwf r Hr1 Eh) as Hs.
    rewrite Hr2 in Hs. discriminate.
  - intros Hidle. destruct (wf_idle w Hwf Hidle) as (Hlast & Hrel & Hsync).
    unfold pending_syncs, pending_releases in *.
    cbn [set_editors set_this set_clk clk].
    destruct (debounceTimer (this w)) as [id|] eqn:Eh; simpl.
    + rewrite !drop_filter, Hrel. repeat split; [exact Hlast|].
      intros u Hu. apply drop_In in Hu. destruct Hu as [Hu Hne].
      specialize (Hsync u Hu). congruence.
    + repeat split; assumption.
Qed.

Lemma WF_user_edits d sel w : WF w -> WF (user_edits d sel w).
Proof.
  intros Hwf. unfold user_edits. cbv zeta.
  apply WF_inner_scheduled; [reflexivity|].
  eapply WF_frame; [| | |exact Hwf]; reflexivity.
Qed.

Lemma WF_step w i : WF w -> WF (step w i).
Proof.
  intros Hwf. destruct i as [content head|d sel|dt|delay|]; simpl.
  - apply WF_handleCodeMirrorChange. eapply WF_frame; [| | |exact Hwf]; reflexivity.
  - now apply WF_user_edits.
  - now apply WF_advance.
  - now apply WF_set_syncDelay.
  - now apply WF_destroy.
Qed.

Lemma WF_run inputs w : WF w -> WF (run inputs w).
Proof.
  revert w; induction inputs as [|i inputs IH]; intros w Hwf; simpl; [exact Hwf|].
  apply IH, WF_step, Hwf.
Qed.

(** *** The event loop serves every due timer *)

Lemma total_weight_drop id (l : list (timer task)) :
  (total_weight (drop id l) <= total_weight l)%nat.
Proof.
  induction l as [|a r IH]; simpl; [lia|].
  destruct (negb (t_id a =? id)); simpl; lia.
Qed.

Lemma total_weight_fired t (l : list (timer task)) :
  In t l ->
  (total_weight (drop (t_id t) l) + weight (t_cb t) <= total_weight l)%nat.
Proof.
  induction l as [|a r IH]; simpl; [contradiction|]. intros [->|Hin].
  - rewrite Z.eqb_refl. simpl. pose proof (total_weight_drop (t_id t) r). lia.
  - specialize (IH Hin). destruct (negb (t_id a =? t_id t)); simpl; lia.
Qed.

Lemma weight_positive (k : task) : (1 <= weight k)%nat.
Proof. destruct k as [[]|]; simpl; lia. Qed.

Lemma entered_weight src content o w w' :
  entered src content o w w' ->
  (total_weight (pending (clk w'))
   <= total_weight (pending (clk w)) + budget src + 1)%nat.
Proof.
  intros (_ & _ & _ & l & Hl & _ & Hpend & _).
  rewrite Hpend, !total_weight_app. simpl. lia.
Qed.

Lemma handleMilkdownChange_weight content o w :
  (total_weight (pending (clk (handleMilkdownChange content o w)))
   <= total_weight (pending (clk w)) + 2)%nat.
Proof.
  destruct (isUpdating (this w)) eqn:Eu.
  - rewrite handleMilkdownChange_suppressed by exact Eu. lia.
  - destruct (handleMilkdownChange_idle content o w Eu)
      as (_ & _ & _ & Hp & _).
    rewrite Hp, total_weight_app. simpl.
    assert (H : (total_weight (cleared (debounceTimer (this w))
                                 (pending (clk w)))
                 <= total_weight (pending (clk w)))%nat)
      by (destruct (debounceTimer (this w)); simpl;
          [apply total_weight_drop|lia]).
    lia.
Qed.

Lemma run_notification_weight d o w :
  (total_weight (pending (clk (snd (run_notification d o w))))
   <= total_weight (pending (clk w)) + 2)%nat.
Proof.
  unfold run_notification.
  destruct (sameDoc _ d); [simpl; lia|].
  destruct (serializer d); [|simpl; lia].
  cbn [snd set_prev set_md clk]. unfold md_listener.
  destruct (_ && _); [apply handleMilkdownChange_weight|lia].
Qed.

Lemma fire_lighter w t :
  In t (pending (clk w)) ->
  (total_weight (pending (clk (snd (fire t w))))
   < total_weight (pending (clk w)))%nat.
Proof.
  intros Hin. pose proof (total_weight_fired t _ Hin) as Hw.
  unfold fire.
  destruct (t_cb t) as [[content o|content o| |]|d o] eqn:Ecb;
    cbn [run_task run_callback].
  - change (weight (sync_to_milkdown content o)) with 6%nat in Hw.
    set (wf := set_clk (fired t (clk w)) w).
    destruct (lastSource (this wf)) as [[|]|] eqn:El.
    + pose proof (entered_weight _ _ _ _ _
                    (run_sync_to_milkdown_entered content o wf
                       ltac:(rewrite El; discriminate))) as He.
      subst wf. cbn [set_clk clk fired pending budget] in He. lia.
    + unfold run_sync_to_milkdown. rewrite El. subst wf. simpl. lia.
    + pose proof (entered_weight _ _ _ _ _
                    (run_sync_to_milkdown_entered content o wf
                       ltac:(rewrite El; discriminate))) as He.
      subst wf. cbn [set_clk clk fired pending budget] in He. lia.
  - change (weight (sync_to_codemirror content o)) with 2%nat in Hw.
    set (wf := set_clk (fired t (clk w)) w).
    destruct (lastSource (this wf)) as [[|]|] eqn:El.
    + unfold run_sync_to_codemirror. rewrite El. subst wf. simpl. lia.
    + pose proof (entered_weight _ _ _ _ _
                    (run_sync_to_codemirror_entered content o wf
                       ltac:(rewrite El; discriminate))) as He.
      subst wf. cbn [set_clk clk fired pending budget] in He. lia.
    + pose proof (entered_weight _ _ _ _ _
                    (run_sync_to_codemirror_entered content o wf
                       ltac:(rewrite El; discriminate))) as He.
      subst wf. cbn [set_clk clk fired pending budget] in He. lia.
  - simpl in *. lia.
  - simpl in *. lia.
  - change (weight (notification d o)) with 3%nat in Hw.
    pose proof (run_notification_weight d o (set_clk (fired t (clk w)) w))
      as Hn.
    cbn [set_clk clk fired pending] in Hn. lia.
Qed.

Lemma fire_due_settles deadline fuel :
  forall w, (total_weight (pending (clk w)) <= fuel)%nat ->
  next_due deadline (clk (fire_due fuel deadline w)) = None.
Proof.
  induction fuel as [|fuel IH]; intros w Hw; simpl.
  - destruct (next_due deadline (clk w)) as [t|] eqn:Et; [|reflexivity].
    apply next_due_Some in Et. destruct Et as [Hin _].
    pose proof (total_weight_fired t _ Hin).
    pose proof (weight_positive (t_cb t)). lia.
  - destruct (next_due deadline (clk w)) as [t|] eqn:Et; [|exact Et].
    apply IH. apply next_due_Some in Et. destruct Et as [Hin _].
    pose proof (fire_lighter w t Hin). lia.
Qed.

(** After [advance] no pending timer is due. *)
Lemma advance_settled dt w u :
  In u (pending (clk (advance dt w))) ->
  now (clk w) + Z.max 0 dt < t_due u.
Proof.
  unfold advance. cbn [set_clk clk elapsed pending]. intros Hin.
  eapply next_due_None; [|exact Hin].
  apply fire_due_settles. lia.
Qed.

(** An invariant of every firing is an invariant of [advance], when it does
    not look at the clock time. *)
Lemma advance_invariant (I : world -> Prop) dt w :
  (forall w' t, I w' ->
     next_due (now (clk w) + Z.max 0 dt) (clk w') = Some t ->
     I (snd (fire t w'))) ->
  I w -> I (fire_due (total_weight (pending (clk w)))
              (now (clk w) + Z.max 0 dt) w).
Proof. intros Hstep Hw. now apply fire_due_invariant. Qed.

End SyncManagerFacts.

(** ** Debouncing *)
Section Debounce.

Import SyncManager SyncManagerSpec Timers Eff.

Context {E : Engine}.

Implicit Types (w : world) (t : timer task).

Lemma fire_internal w t :
  t_cb t = internal_release ->
  snd (fire t w) = set_isInternalUpdate false (set_clk (fired t (clk w)) w).
Proof. intros H. unfold fire. rewrite H. reflexivity. Qed.

Lemma fire_release w t :
  t_cb t = release ->
  snd (fire t w) =
  set_lastSource None (set_isUpdating false (set_clk (fired t (clk w)) w)).
Proof. intros H. unfold fire. rewrite H. reflexivity. Qed.

Lemma fire_notification w t d o :
  t_cb t = notification d o ->
  snd (fire t w) = snd (run_notification d o (set_clk (fired t (clk w)) w)).
Proof. intros H. unfold fire. rewrite H. reflexivity. Qed.

Lemma fire_sync_to_milkdown w t content o :
  WF w -> In t (pending (clk w)) -> t_cb t = sync_to_milkdown content o ->
  entered codemirror content o (set_clk (fired t (clk w)) w) (snd (fire t w)).
Proof.
  intros Hwf Hin Hcb. unfold fire. rewrite Hcb. simpl.
  apply run_sync_to_milkdown_entered. simpl.
  destruct (sync_pending_idle w t Hwf Hin) as [_ ->];
    [rewrite Hcb; reflexivity|discriminate].
Qed.

Lemma fire_sync_to_codemirror w t content o :
  WF w -> In t (pending (clk w)) -> t_cb t = sync_to_codemirror content o ->
  entered milkdown content o (set_clk (fired t (clk w)) w) (snd (fire t w)).
Proof.
  intros Hwf Hin Hcb. unfold fire. rewrite Hcb. simpl.
  apply run_sync_to_codemirror_entered. simpl.
  destruct (sync_pending_idle w t Hwf Hin) as [_ ->];
    [rewrite Hcb; reflexivity|discriminate].
Qed.

(** The timers that can fire while the flag is clear and neither a debounced
    callback nor a handler of the listener plugin is due are those of
    milkdown-setup.js. *)
Lemma idle_fires_internal w t :
  WF w -> isUpdating (this w) = false -> In t (pending (clk w)) ->
  is_sync_task (t_cb t) = false -> is_notification (t_cb t) = false ->
  t_cb t = internal_release.
Proof.
  intros Hwf Hidle Hin Hns Hnn.
  destruct (t_cb t) as [[]|] eqn:Ecb; try discriminate.
  - destruct (release_pending_busy w t Hwf Hin Ecb). congruence.
  - reflexivity.
Qed.

Lemma no_notification_due w t :
  pending_notifications w = [] -> In t (pending (clk w)) ->
  is_notification (t_cb t) = false.
Proof.
  intros Hnone Hin. destruct (is_notification (t_cb t)) eqn:En; [|reflexivity].
  assert (H : In t (pending_notifications w))
    by now apply pending_notifications_In.
  rewrite Hnone in H. contradiction.
Qed.

Lemma unchanged_refl w : unchanged w w.
Proof. repeat split. Qed.

Lemma quiet_fire deadline w0 w t :
  quiet deadline w0 w -> next_due deadline (clk w) = Some t ->
  quiet deadline w0 (snd (fire t w)).
Proof.
  intros (Hwf & Hidle & Hsame & Hnone & Hlate) Ht.
  apply next_due_Some in Ht. destruct Ht as [Hin Hdue].
  assert (Hns : is_sync_task (t_cb t) = false).
  { destruct (is_sync_task (t_cb t)) eqn:Es; [|reflexivity].
    assert (In t (pending_syncs w)) by now apply pending_syncs_In.
    specialize (Hlate t H). lia. }
  pose proof (no_notification_due w t Hnone Hin) as Hnn.
  pose proof (idle_fires_internal w t Hwf Hidle Hin Hns Hnn) as Hcb.
  pose proof (WF_fire w t Hwf Hin) as Hwf'.
  rewrite fire_internal in * by exact Hcb.
  unfold quiet; conjuncts; try assumption.
  - unfold pending_notifications in *.
    cbn [set_isInternalUpdate set_md set_clk clk fired pending].
    now rewrite drop_filter, Hnone.
  - intros u Hu. apply Hlate. unfold pending_syncs in *.
    cbn [set_isInternalUpdate set_md set_clk clk fired pending] in Hu.
    rewrite drop_filter in Hu. apply drop_In in Hu. tauto.
Qed.

Lemma quiet_advance dt w0 w :
  quiet (now (clk w) + Z.max 0 dt) w0 w ->
  quiet (now (clk w) + Z.max 0 dt) w0 (advance dt w).
Proof.
  intros Hq. unfold advance.
  pose proof (advance_invariant (quiet (now (clk w) + Z.max 0 dt) w0)
                dt w (fun w' t => quiet_fire _ _ w' t) Hq) as H.
  destruct H as (Hwf & Hidle & Hsame & Hnone & Hlate).
  unfold quiet; conjuncts; try assumption.
  eapply WF_frame; [| | |exact Hwf]; reflexivity.
Qed.

Lemma idle_cleared_syncs w :
  WF w -> isUpdating (this w) = false ->
  filter (fun t => is_sync_task (t_cb t))
    (cleared (debounceTimer (this w)) (pending (clk w))) = [].
Proof.
  intros Hwf Hidle. destruct (wf_idle w Hwf Hidle) as (_ & _ & Hsync).
  rewrite cleared_filter. fold (pending_syncs w).
  destruct (debounceTimer (this w)) as [id|] eqn:Eh; simpl.
  - apply drop_all. intros u Hu. specialize (Hsync u Hu). congruence.
  - destruct (pending_syncs w) as [|u r]; [reflexivity|].
    specialize (Hsync u (or_introl eq_refl)). discriminate.
Qed.

Lemma user_types_armed content head w0 w :
  WF w -> isUpdating (this w) = false -> unchanged w0 w ->
  pending_notifications w = [] ->
  armed w0 content (user_types content head w).
Proof.
  intros Hwf Hidle Hsame Hnone. unfold user_types.
  set (w1 := set_cm _ w).
  assert (Hwf1 : WF w1) by (eapply WF_frame; [| | |exact Hwf]; reflexivity).
  destruct (handleCodeMirrorChange_idle content User w1 Hidle)
    as (Hthis & Hnow & Hnext & Hpend & Hlog & _ & Hmd).
  destruct Hsame as (A1 & A2 & A3 & A4 & A5 & A6).
  unfold armed, unchanged; conjuncts.
  - now apply WF_handleCodeMirrorChange.
  - rewrite Hthis. exact Hidle.
  - rewrite Hthis. exact A1.
  - rewrite Hthis. exact A2.
  - rewrite Hthis. exact A3.
  - rewrite Hlog. exact A4.
  - rewrite Hmd. exact A5.
  - rewrite Hmd. exact A6.
  - unfold pending_notifications in *. rewrite Hpend, filter_app, cleared_filter.
    change (pending (clk w1)) with (pending (clk w)). rewrite Hnone.
    destruct (debounceTimer (this w1)); reflexivity.
  - exists (next_id (clk w1)). unfold pending_syncs.
    rewrite Hpend, filter_app, (idle_cleared_syncs w1 Hwf1 Hidle), Hnow.
    change (syncDelay (this w1)) with (syncDelay (this w)). rewrite A1.
    reflexivity.
Qed.

Lemma typing_armed w0 content w call :
  armed w0 content w -> 0 <= fst (fst call) < syncDelay (this w0) ->
  armed w0 (snd (fst call)) (typing w call).
Proof.
  intros (Hwf & Hidle & Hsame & Hnone & id & Hpend) Hgap.
  destruct call as [[gap content'] head]. simpl in Hgap |- *.
  assert (Hq : quiet (now (clk w) + Z.max 0 gap) w0 w).
  { unfold quiet; conjuncts; try assumption. intros t. rewrite Hpend.
    intros [<-|[]]. simpl. lia. }
  apply quiet_advance in Hq.
  destruct Hq as (Hwf' & Hidle' & Hsame' & Hnone' & _).
  now apply user_types_armed.
Qed.

Lemma burst_armed first rest w :
  WF w -> isUpdating (this w) = false -> pending_notifications w = [] ->
  rapid (syncDelay (this w)) rest ->
  armed w (last_content first rest) (burst first rest w).
Proof.
  intros Hwf Hidle Hnone Hrapid. unfold burst, last_content.
  pose proof (user_types_armed (fst first) (snd first) w w Hwf Hidle
                (unchanged_refl w) Hnone) as Ha.
  revert Ha. generalize (user_types (fst first) (snd first) w).
  generalize (fst first). clear first.
  induction Hrapid as [|call rest Hgap Hrapid IH]; intros c w1 Ha.
  - exact Ha.
  - simpl fold_left.
    replace (last (map (fun call => snd (fst call)) (call :: rest)) c)
      with (last (map (fun call => snd (fst call)) rest) (snd (fst call))).
    + apply IH. apply (typing_armed _ c); assumption.
    + simpl. destruct (map _ rest) eqn:Em; [reflexivity|].
      apply last_default. discriminate.
Qed.

(** The Milkdown document after the callback of [handleCodeMirrorChange] on
    a text that parses, with both editors attached. *)
Lemma run_sync_to_milkdown_Parsed content o d w :
  lastSource (this w) <> Some milkdown ->
  codemirrorEditor (this w) = true -> milkdownEditor (this w) = true ->
  parser content = Parsed d ->
  md_doc (md (snd (run_sync_to_milkdown content o w))) = d.
Proof.
  intros Hl Hc Hm Hp. unfold run_sync_to_milkdown.
  destruct (lastSource (this w)) as [[|]|]; try congruence.
  all: unfold release_later; rewrite try_catch_finally_world;
    unfold bind, on_editor, cm_getCursorPosition, read, md_setContent, exec,
      try_finally, md_dispatch_replace, md_setCursorPosition;
    cbn -[calculateApproximatePosition];
    rewrite ?Hc, ?Hm, ?Hp; cbn -[calculateApproximatePosition];
      rewrite ?Hm;
      destruct (calculateApproximatePosition content (cm_head (cm w)))
        as [a|]; cbn; try reflexivity;
      destruct (a >=? 0); cbn; rewrite ?Hm; cbn; try reflexivity;
      destruct (Z.min a (size d) <? 0); reflexivity.
Qed.

(** *** When no callback of [handleCodeMirrorChange] is pending *)

Lemma tree_syncs_syncs w : tree_syncs w = filter is_to_tree (syncs w).
Proof.
  unfold tree_syncs, syncs. induction (log w) as [|e l IH]; simpl; [reflexivity|].
  destruct e as [[] ? ?| | | |]; simpl; rewrite ?IH; reflexivity.
Qed.

Lemma preserves_on_editor {A} (I : world -> Prop) field
  (c : SyncManager.M A) :
  preserves I c -> preserves I (on_editor field c).
Proof.
  intros Hc w H. unfold on_editor. destruct (field (this w)); [apply Hc|]; exact H.
Qed.

Lemma handleCodeMirrorChange_md content o w :
  md (handleCodeMirrorChange content o w) = md w.
Proof.
  unfold handleCodeMirrorChange. destruct (isUpdating (this w)); reflexivity.
Qed.

Lemma handleMilkdownChange_frame content o w :
  md (handleMilkdownChange content o w) = md w
  /\ cm (handleMilkdownChange content o w) = cm w
  /\ log (handleMilkdownChange content o w) = log w.
Proof.
  unfold handleMilkdownChange. destruct (isUpdating (this w)); repeat split.
Qed.

(** The callback of [handleMilkdownChange] leaves Milkdown alone. *)
Lemma run_sync_to_codemirror_md content o w :
  md (snd (run_sync_to_codemirror content o w)) = md w.
Proof.
  unfold run_sync_to_codemirror.
  destruct (lastSource (this w)) as [[|]|]; try reflexivity.
  all: unfold release_later; rewrite try_catch_finally_world;
    set (w1 := emit _ _);
    change (md w) with (md w1);
    set (body := bind _ _);
    assert (Hb : preserves (fun w' => md w' = md w1) body);
    [|specialize (Hb w1 eq_refl);
      destruct (body w1) as [[u|] w2]; cbn [snd] in Hb; exact Hb].
  all: subst body;
    apply preserves_bind; [apply preserves_on_editor, preserves_read|];
    intros cur; apply preserves_bind;
    [|intros _; apply preserves_exec; intros w' H; exact H];
    destruct (negb (JS.eqb cur content)); [|apply preserves_ret];
    apply preserves_bind; [apply preserves_on_editor, preserves_read|];
    intros pos; apply preserves_bind.
  all: try (intros _; apply preserves_on_editor; intros w' H;
            unfold cm_setCursorPosition; destruct (_ && _); exact H).
  all: apply preserves_on_editor, preserves_bind; [apply preserves_read|];
    intros cur'; destruct (JS.eqb cur' content); [apply preserves_ret|];
    apply preserves_exec; intros w' H; cbv zeta;
    rewrite handleCodeMirrorChange_md; exact H.
Qed.

Lemma one_way_dropped w w' id :
  pending (clk w') = drop id (pending (clk w)) -> one_way w -> one_way w'.
Proof.
  intros Hp H t Ht. rewrite Hp in Ht. apply drop_In in Ht. apply H, Ht.
Qed.

Lemma one_way_handleMilkdownChange content o w :
  one_way w -> one_way (handleMilkdownChange content o w).
Proof.
  intros H. destruct (isUpdating (this w)) eqn:Eu.
  - now rewrite handleMilkdownChange_suppressed.
  - destruct (handleMilkdownChange_idle content o w Eu)
      as (_ & _ & _ & Hp & _).
    intros t Ht. rewrite Hp in Ht. apply in_app_iff in Ht.
    destruct Ht as [Ht|[<-|[]]]; [|reflexivity].
    apply H, (cleared_In _ _ _ Ht).
Qed.

Lemma run_notification_frame d o w :
  let w' := snd (run_notification d o w) in
  md_doc (md w') = md_doc (md w)
  /\ md_selection (md w') = md_selection (md w)
  /\ cm w' = cm w /\ log w' = log w
  /\ (one_way w -> one_way w').
Proof.
  unfold run_notification.
  destruct (sameDoc _ d); [repeat split; auto|].
  destruct (serializer d) as [markdown|]; [|repeat split; auto].
  cbn [snd]. unfold md_listener.
  destruct (_ && _); [|repeat split; auto].
  destruct (handleMilkdownChange_frame markdown o w) as (H1 & H2 & H3).
  cbn [set_prev set_md md md_doc md_selection cm log].
  rewrite H1, H2, H3. repeat split.
  intros H. now apply (one_way_handleMilkdownChange markdown o).
Qed.

(** Nothing that fires then starts a sync into Milkdown. *)
Lemma one_way_fire w t :
  WF w -> one_way w -> In t (pending (clk w)) ->
  one_way (snd (fire t w))
  /\ tree_syncs (snd (fire t w)) = tree_syncs w
  /\ md_doc (md (snd (fire t w))) = md_doc (md w).
Proof.
  intros Hwf Hone Hin.
  destruct (t_cb t) as [[content o|content o| |]|d o] eqn:Ecb.
  - specialize (Hone t Hin). rewrite Ecb in Hone. discriminate.
  - pose proof (fire_sync_to_codemirror w t content o Hwf Hin Ecb)
      as (_ & _ & Hs & l & _ & Hinner & Hp & _).
    cbn [set_clk clk fired pending] in Hp. conjuncts.
    + intros u Hu. rewrite Hp in Hu. apply in_app_iff in Hu.
      destruct Hu as [Hu|Hu]; [apply drop_In in Hu; apply Hone, Hu|].
      apply in_app_iff in Hu. destruct Hu as [Hu|[<-|[]]]; [|reflexivity].
      apply (proj2 Hinner) in Hu. destruct Hu as [_ Hu].
      destruct (t_cb u) as [[]|]; try discriminate; reflexivity.
    + rewrite !tree_syncs_syncs, Hs, filter_app. simpl. now rewrite app_nil_r.
    + unfold fire. rewrite Ecb. cbn [run_task run_callback].
      now rewrite run_sync_to_codemirror_md.
  - rewrite fire_release by exact Ecb. conjuncts; try reflexivity.
    eapply one_way_dropped; [|exact Hone]. reflexivity.
  - rewrite fire_internal by exact Ecb. conjuncts; try reflexivity.
    eapply one_way_dropped; [|exact Hone]. reflexivity.
  - rewrite fire_notification with (d := d) (o := o) by exact Ecb.
    destruct (run_notification_frame d o (set_clk (fired t (clk w)) w))
      as (H1 & _ & _ & H2 & H3).
    conjuncts.
    + apply H3. eapply one_way_dropped; [|exact Hone]. reflexivity.
    + unfold tree_syncs. now rewrite H2.
    + exact H1.
Qed.

Lemma settling_fire deadline w0 content w t :
  settling deadline w0 content w ->
  next_due deadline (clk w) = Some t ->
  settling deadline w0 content (snd (fire t w)).
Proof.
  intros (Hwf & Hcase) Ht.
  apply next_due_Some in Ht. destruct Ht as [Hin Hdue].
  pose proof (WF_fire w t Hwf Hin) as Hwf'.
  split; [exact Hwf'|].
  destruct Hcase as [(Hidle & Hsame & Hnone & t0 & Hpend & Hcb & Hdue0)
                    |(Hsyncs & Hone & Hdel)].
  - destruct (is_sync_task (t_cb t)) eqn:Es.
    + (* the debounced callback itself *)
      assert (Ht0 : In t (pending_syncs w)) by now apply pending_syncs_In.
      rewrite Hpend in Ht0. destruct Ht0 as [<-|[]].
      pose proof (fire_sync_to_milkdown w t0 content User Hwf Hin Hcb)
        as (Hthis & _ & Hs & l & _ & Hinner & Hp & _).
      cbn [set_clk clk fired pending] in Hp.
      destruct Hsame as (A1 & A2 & A3 & A4 & A5 & A6).
      right. conjuncts.
      * rewrite !tree_syncs_syncs, Hs, filter_app. simpl.
        unfold syncs. cbn [set_clk log]. now rewrite A4.
      * intros u Hu. rewrite Hp in Hu. apply in_app_iff in Hu.
        destruct Hu as [Hu|Hu].
        -- apply drop_In in Hu. destruct Hu as [Hu Hne].
           destruct (is_to_milkdown (t_cb u)) eqn:Em; [|reflexivity].
           exfalso. assert (Hu' : In u (pending_syncs w)).
           { apply pending_syncs_In. split; [exact Hu|].
             destruct (t_cb u) as [[]|]; try discriminate; reflexivity. }
           rewrite Hpend in Hu'. destruct Hu' as [<-|[]]. now apply Hne.
        -- apply in_app_iff in Hu. destruct Hu as [Hu|[<-|[]]]; [|reflexivity].
           apply (proj2 Hinner) in Hu. destruct Hu as [_ Hu].
           destruct (t_cb u) as [[]|]; try discriminate; reflexivity.
      * intros Hc Hm d Hp'. unfold fire. rewrite Hcb.
        cbn [run_task run_callback].
        apply run_sync_to_milkdown_Parsed; cbn [set_clk this];
          try congruence.
        destruct (wf_idle w Hwf Hidle) as (-> & _). discriminate.
    + pose proof (no_notification_due w t Hnone Hin) as Hnn.
      pose proof (idle_fires_internal w t Hwf Hidle Hin Es Hnn) as Hi.
      rewrite fire_internal in * by exact Hi.
      left. conjuncts; try assumption.
      { unfold pending_notifications in *.
        cbn [set_isInternalUpdate set_md set_clk clk fired pending].
        now rewrite drop_filter, Hnone. }
      exists t0. conjuncts; try assumption.
      assert (Hin0 : In t0 (pending (clk w)) /\ is_sync_task (t_cb t0) = true).
      { apply pending_syncs_In. rewrite Hpend. left. reflexivity. }
      unfold pending_syncs in *.
      cbn [set_isInternalUpdate set_md set_clk clk fired pending].
      rewrite drop_filter, Hpend. simpl.
      destruct (Z.eqb_spec (t_id t0) (t_id t)) as [e|_]; [|reflexivity].
      exfalso.
      assert (t0 = t)
        by (eapply same_id; eauto; [apply (wf_nodup w Hwf)|tauto]).
      subst t0. rewrite Hcb in Es. discriminate.
  - right. destruct (one_way_fire w t Hwf Hone Hin) as (H1 & H2 & H3).
    conjuncts.
    + now rewrite H2.
    + exact H1.
    + intros Hc Hm d Hp. rewrite H3. now apply Hdel.
Qed.

Lemma armed_fires w0 content dt w :
  armed w0 content w -> syncDelay (this w0) <= dt ->
  tree_syncs (advance dt w) = tree_syncs w0 ++ [Sync codemirror content User]
  /\ delivered w0 content (advance dt w).
Proof.
  intros (Hwf & Hidle & Hsame & Hnone & id & Hpend) Hdt.
  set (deadline := now (clk w) + Z.max 0 dt).
  assert (Hs : settling deadline w0 content w).
  { split; [exact Hwf|]. left. conjuncts; try assumption.
    eexists. split; [exact Hpend|]. simpl. split; [reflexivity|].
    subst deadline. lia. }
  pose proof (advance_invariant (settling deadline w0 content) dt w
                (fun w' t => settling_fire _ _ _ w' t) Hs) as H.
  fold deadline in H.
  set (w' := fire_due _ deadline w) in H.
  assert (Hadv : advance dt w = set_clk (elapsed deadline (clk w')) w')
    by reflexivity.
  rewrite Hadv.
  destruct H as (_ & [(_ & _ & _ & t0 & Hp & _ & Hdue)|(Hdone & _ & Hdel)]);
    [|split; assumption].
  exfalso.
  assert (Hin : In t0 (pending (clk (advance dt w)))).
  { rewrite Hadv. cbn [set_clk clk elapsed pending].
    apply (pending_syncs_In w' t0). rewrite Hp. left. reflexivity. }
  apply advance_settled in Hin. fold deadline in Hin. lia.
Qed.

Lemma armed_waits w0 content dt w :
  armed w0 content w -> 0 <= dt < syncDelay (this w0) ->
  unchanged w0 (advance dt w).
Proof.
  intros (Hwf & Hidle & Hsame & Hnone & id & Hpend) Hdt.
  assert (Hq : quiet (now (clk w) + Z.max 0 dt) w0 w).
  { unfold quiet; conjuncts; try assumption. intros t. rewrite Hpend.
    intros [<-|[]]. simpl. lia. }
  apply quiet_advance in Hq. apply Hq.
Qed.

End Debounce.
(** ** The suppression flag after a sync attempt, and disposal *)
Section Flag.

Import SyncManager SyncManagerSpec Timers Eff.

Context {E : Engine}.

Implicit Types (w : world) (t : timer task).

Lemma entered_release src content o w w' :
  entered src content o w w' ->
  isUpdating (this w') = true
  /\ exists r, In r (pending (clk w')) /\ t_cb r = release
               /\ t_due r = now (clk w') + 100.
Proof.
  intros (Hthis & Hnow & _ & l & _ & _ & Hpend & _). split.
  - rewrite Hthis. reflexivity.
  - eexists. rewrite Hpend, Hnow, !in_app_iff. split.
    + right. right. left. reflexivity.
    + split; reflexivity.
Qed.

Lemma entered_pending_syncs src content o w w' :
  entered src content o w w' -> pending_syncs w' = pending_syncs w.
Proof.
  intros (_ & _ & _ & l & _ & Hinner & Hpend & _). unfold pending_syncs.
  rewrite Hpend, !filter_app.
  rewrite (inner_filter is_sync_task (next_id (clk w)) l);
    [|intros [[]|]; try discriminate; reflexivity|exact Hinner].
  simpl. now rewrite app_nil_r.
Qed.

(** No callback schedules a debounced callback: the listeners that run
    inside its dispatches find the flag set. *)
Lemma run_callback_schedules_no_sync cb w :
  pending_syncs (snd (run_callback cb w)) = pending_syncs w.
Proof.
  destruct cb as [content o|content o| |]; cbn [run_callback];
    try reflexivity.
  - destruct (lastSource (this w)) as [[|]|] eqn:El.
    + eapply entered_pending_syncs, run_sync_to_milkdown_entered.
      rewrite El. discriminate.
    + unfold run_sync_to_milkdown. rewrite El. reflexivity.
    + eapply entered_pending_syncs, run_sync_to_milkdown_entered.
      rewrite El. discriminate.
  - destruct (lastSource (this w)) as [[|]|] eqn:El.
    + unfold run_sync_to_codemirror. rewrite El. reflexivity.
    + eapply entered_pending_syncs, run_sync_to_codemirror_entered.
      rewrite El. discriminate.
    + eapply entered_pending_syncs, run_sync_to_codemirror_entered.
      rewrite El. discriminate.
Qed.

(** A timer of another kind survives the firing of [t]. *)
Lemma survives w t r :
  WF w -> In t (pending (clk w)) -> In r (pending (clk w)) ->
  t_cb r <> t_cb t -> In r (drop (t_id t) (pending (clk w))).
Proof.
  intros Hwf Ht Hr Hne. apply drop_In. split; [exact Hr|]. intros e.
  apply Hne. f_equal. eapply same_id; eauto. apply (wf_nodup w Hwf).
Qed.

Lemma no_sync_due w t :
  pending_syncs w = [] -> In t (pending (clk w)) ->
  is_sync_task (t_cb t) = false.
Proof.
  intros Hnone Hin. destruct (is_sync_task (t_cb t)) eqn:Es; [|reflexivity].
  assert (H : In t (pending_syncs w)) by now apply pending_syncs_In.
  rewrite Hnone in H. contradiction.
Qed.

Lemma pending_syncs_fired_release w t :
  pending_syncs w = [] ->
  pending_syncs
    (set_lastSource None (set_isUpdating false (set_clk (fired t (clk w)) w)))
  = [].
Proof.
  unfold pending_syncs.
  cbn [set_lastSource set_isUpdating set_this set_clk clk fired pending].
  intros H. now rewrite drop_filter, H.
Qed.

Lemma pending_syncs_fired_internal w t :
  pending_syncs w = [] ->
  pending_syncs (set_isInternalUpdate false (set_clk (fired t (clk w)) w)) = [].
Proof.
  unfold pending_syncs.
  cbn [set_isInternalUpdate set_md set_clk clk fired pending].
  intros H. now rewrite drop_filter, H.
Qed.

(** The handler of the listener plugin under a set flag: the listener of
    milkdown-setup.js may be called, and [handleMilkdownChange] returns at
    once. *)
Lemma run_notification_busy d o w :
  isUpdating (this w) = true ->
  this (snd (run_notification d o w)) = this w
  /\ clk (snd (run_notification d o w)) = clk w
  /\ log (snd (run_notification d o w)) = log w
  /\ cm (snd (run_notification d o w)) = cm w
  /\ status (snd (run_notification d o w)) = status w.
Proof.
  intros Hb. unfold run_notification.
  destruct (sameDoc _ d); [repeat split|].
  destruct (serializer d); [|repeat split].
  cbn [snd]. unfold md_listener.
  destruct (_ && _); [|repeat split].
  rewrite handleMilkdownChange_suppressed by exact Hb. repeat split.
Qed.

(** While the flag is set, the timers that fire before its release are
    those of Milkdown: they leave the manager and the other timers alone. *)
Lemma busy_fire w t :
  WF w -> isUpdating (this w) = true -> In t (pending (clk w)) ->
  t_cb t <> release ->
  this (snd (fire t w)) = this w
  /\ pending (clk (snd (fire t w))) = drop (t_id t) (pending (clk w))
  /\ now (clk (snd (fire t w))) = Z.max (now (clk w)) (t_due t)
  /\ log (snd (fire t w)) = log w
  /\ cm (snd (fire t w)) = cm w
  /\ status (snd (fire t w)) = status w.
Proof.
  intros Hwf Hb Hin Hnr.
  destruct (wf_busy w Hwf Hb) as [Hnone _].
  pose proof (no_sync_due w t Hnone Hin) as Hns.
  destruct (t_cb t) as [[]|d o] eqn:Ecb; try discriminate.
  - now destruct Hnr.
  - rewrite fire_internal by exact Ecb. repeat split.
  - rewrite fire_notification with (d := d) (o := o) by exact Ecb.
    destruct (run_notification_busy d o (set_clk (fired t (clk w)) w) Hb)
      as (H1 & H2 & H3 & H4 & H5).
    rewrite H1, H2, H3, H4, H5. repeat split.
Qed.

Lemma holding_fire deadline w t :
  holding deadline w -> next_due deadline (clk w) = Some t ->
  holding deadline (snd (fire t w)).
Proof.
  intros (Hwf & Hbusy & Hlate) Ht.
  apply next_due_Some in Ht. destruct Ht as [Hin Hdue].
  pose proof (WF_fire w t Hwf Hin) as Hwf'.
  assert (Hnr : t_cb t <> release).
  { intros Hcb.
    assert (H : In t (pending_releases w)) by now apply pending_releases_In.
    specialize (Hlate t H). lia. }
  destruct (busy_fire w t Hwf Hbusy Hin Hnr) as (H1 & H2 & _).
  unfold holding; conjuncts; [exact Hwf'|now rewrite H1|].
  intros r Hr. apply Hlate. unfold pending_releases in *.
  rewrite H2, drop_filter in Hr. apply drop_In in Hr. tauto.
Qed.

Lemma holding_advance dt w :
  holding (now (clk w) + Z.max 0 dt) w ->
  isUpdating (this (advance dt w)) = true.
Proof.
  intros Hh.
  pose proof (advance_invariant (holding (now (clk w) + Z.max 0 dt)) dt w
                (fun w' t => holding_fire _ w' t) Hh) as (_ & H & _).
  exact H.
Qed.

Lemma last_not_in (l : list (timer task)) r :
  NoDup (map t_id (l ++ [r])) -> forall u, In u l -> t_id u <> t_id r.
Proof.
  rewrite map_app. cbn [map]. intros Hnd u Hu e.
  apply NoDup_remove_2 in Hnd. apply Hnd. rewrite app_nil_r, <- e.
  now apply in_map.
Qed.

Lemma releasing_fire deadline w t :
  releasing deadline w -> next_due deadline (clk w) = Some t ->
  releasing deadline (snd (fire t w)).
Proof.
  intros (Hwf & Hcase) Ht.
  pose proof (next_due_earliest _ _ _ Ht) as He.
  apply next_due_Some in Ht. destruct Ht as [Hin Hdue].
  pose proof (WF_fire w t Hwf Hin) as Hwf'.
  split; [exact Hwf'|].
  destruct Hcase as [(Hbusy & l & r & Hp & Hrcb & Hrdue)|(_ & Hlate)];
    [|specialize (Hlate t Hin); lia].
  pose proof (wf_nodup w Hwf) as Hnd. rewrite Hp in Hnd.
  pose proof (last_not_in l r Hnd) as Hids.
  assert (Hr : In r (pending (clk w)))
    by (rewrite Hp; apply in_app_iff; right; left; reflexivity).
  destruct (release_pending_busy w r Hwf Hr Hrcb) as [_ Hrel].
  assert (Hcases : t = r \/ t_cb t <> release).
  { destruct (t_cb t) as [[]|] eqn:Ecb; try (right; discriminate).
    left. assert (H : In t (pending_releases w))
      by now apply pending_releases_In.
    rewrite Hrel in H. destruct H as [H|[]]. now symmetry. }
  destruct Hcases as [->|Hnr].
  - (* the release itself *)
    rewrite fire_release by exact Hrcb. right. split; [reflexivity|].
    cbn [set_lastSource set_isUpdating set_this set_clk clk fired pending].
    intros u Hu. apply drop_In in Hu. destruct Hu as [Hu Hne].
    rewrite Hp in Hu, He. apply in_app_iff in Hu.
    destruct Hu as [Hu|[<-|[]]]; [|now destruct Hne].
    rewrite <- Hrdue. apply (earliest_last l r u); [|exact He|exact Hu].
    intros Hrl. now apply (Hids r Hrl).
  - destruct (busy_fire w t Hwf Hbusy Hin Hnr) as (H1 & H2 & _).
    left. split; [now rewrite H1|].
    exists (drop (t_id t) l), r. split; [|split; assumption].
    rewrite H2, Hp. unfold drop. rewrite filter_app. simpl.
    destruct (Z.eqb_spec (t_id r) (t_id t)) as [e|_]; [|reflexivity].
    exfalso. apply Hnr. replace t with r; [exact Hrcb|].
    apply (same_id (pending (clk w)));
      [apply (wf_nodup w Hwf)|exact Hr|exact Hin|exact e].
Qed.

(** The flag is clear when the due time of its release has passed. *)
Lemma releasing_advance dt w :
  releasing (now (clk w) + Z.max 0 dt) w ->
  isUpdating (this (advance dt w)) = false.
Proof.
  intros Hr. set (deadline := now (clk w) + Z.max 0 dt) in *.
  pose proof (advance_invariant (releasing deadline) dt w
                (fun w' t => releasing_fire deadline w' t) Hr) as H.
  fold deadline in H. set (w' := fire_due _ deadline w) in H.
  assert (Hadv : advance dt w = set_clk (elapsed deadline (clk w')) w')
    by reflexivity.
  rewrite Hadv. cbn [set_clk this].
  destruct H as (_ & [(_ & l & r & Hp & _ & Hdue)|(Hidle & _)]); [|exact Hidle].
  exfalso.
  assert (Hin : In r (pending (clk (advance dt w)))).
  { rewrite Hadv. cbn [set_clk clk elapsed pending]. rewrite Hp.
    apply in_app_iff. right. left. reflexivity. }
  apply advance_settled in Hin. fold deadline in Hin. lia.
Qed.

Lemma calm_fire w0 deadline w t :
  calm w0 w -> next_due deadline (clk w) = Some t -> calm w0 (snd (fire t w)).
Proof.
  intros (Hwf & Hnone & Hquiet & Hrest) Ht.
  apply next_due_Some in Ht. destruct Ht as [Hin Hdue].
  pose proof (WF_fire w t Hwf Hin) as Hwf'.
  pose proof (no_sync_due w t Hnone Hin) as Hns.
  pose proof (no_notification_due w t Hquiet Hin) as Hnn.
  destruct (t_cb t) as [[]|] eqn:Hcb; try discriminate.
  - rewrite fire_release in * by exact Hcb.
    split; [exact Hwf'|]. split; [now apply pending_syncs_fired_release|].
    split; [|exact Hrest].
    unfold pending_notifications in *.
    cbn [set_lastSource set_isUpdating set_this set_clk clk fired pending].
    now rewrite drop_filter, Hquiet.
  - rewrite fire_internal in * by exact Hcb.
    split; [exact Hwf'|]. split; [now apply pending_syncs_fired_internal|].
    split; [|exact Hrest].
    unfold pending_notifications in *.
    cbn [set_isInternalUpdate set_md set_clk clk fired pending].
    now rewrite drop_filter, Hquiet.
Qed.

Lemma calm_advance w0 dt w : calm w0 w -> calm w0 (advance dt w).
Proof.
  intros Hc.
  pose proof (advance_invariant (calm w0) dt w
                (fun w' t => calm_fire w0 _ w' t) Hc)
    as (Hwf & Hnone & Hquiet & Hrest).
  split; [|split; [exact Hnone|split; [exact Hquiet|exact Hrest]]].
  eapply WF_frame; [| | |exact Hwf]; reflexivity.
Qed.

(** [destroy] cancels the pending debounced callback. *)
Lemma destroy_cancels w : WF w -> pending_syncs (destroy w) = [].
Proof.
  intros Hwf. unfold pending_syncs, destroy.
  cbn [set_editors set_this set_clk clk].
  assert (Hc : pending (clearTimeout (debounceTimer (this w)) (clk w))
               = cleared (debounceTimer (this w)) (pending (clk w)))
    by (destruct (debounceTimer (this w)); reflexivity).
  rewrite Hc. destruct (isUpdating (this w)) eqn:Eu.
  - destruct (wf_busy w Hwf Eu) as [Hnone _]. unfold pending_syncs in Hnone.
    rewrite cleared_filter, Hnone. destruct (debounceTimer (this w)); reflexivity.
  - now apply idle_cleared_syncs.
Qed.

(** While no callback of [handleCodeMirrorChange] is pending, waiting starts
    no sync into Milkdown. *)
Lemma one_way_advance dt w :
  WF w -> one_way w ->
  one_way (advance dt w)
  /\ tree_syncs (advance dt w) = tree_syncs w
  /\ md_doc (md (advance dt w)) = md_doc (md w).
Proof.
  intros Hwf Hone.
  pose proof (advance_invariant
                (fun w' => WF w' /\ one_way w'
                           /\ tree_syncs w' = tree_syncs w
                           /\ md_doc (md w') = md_doc (md w)) dt w) as H.
  cbv beta in H. apply H; [|auto].
  intros w' t (Hwf' & Hone' & Hs & Hd) Ht. apply next_due_Some in Ht.
  destruct Ht as [Hin _].
  destruct (one_way_fire w' t Hwf' Hone' Hin) as (H1 & H2 & H3).
  split; [now apply WF_fire|]. split; [exact H1|].
  split; congruence.
Qed.

End Flag.

(** ** Single paths through the callbacks *)
Section Paths.

Import Timers Eff.

Context {E : Engine}.

Lemma eqb_refl (a : jsstring) : JS.eqb a a = true.
Proof.
  induction a as [|x a IH]; simpl; [reflexivity|].
  now rewrite Z.eqb_refl, IH.
Qed.

Lemma eqb_eq (a b : jsstring) : JS.eqb a b = true <-> a = b.
Proof.
  split; [|intros ->; apply eqb_refl].
  revert b; induction a as [|x a IH]; intros [|y b]; simpl;
    try discriminate; [reflexivity|].
  intros H. apply andb_true_iff in H. destruct H as [H1 H2].
  apply Z.eqb_eq in H1. apply IH in H2. congruence.
Qed.

(** *** SyncManager: the parser throws *)

Import SyncManager SyncManagerSpec.

Lemma md_setContent_ParseError content (w : SyncManager.world) :
  parser content = ParseError ->
  md_setContent content w =
  (Thrown, snd (schedule internal_release 100 (set_isInternalUpdate true w))).
Proof.
  intros H. unfold md_setContent, bind, exec, try_finally. rewrite H.
  reflexivity.
Qed.

(** The world after the callback of [handleCodeMirrorChange] on a text that
    does not parse: the status says so, the release is scheduled, and of the
    Milkdown wrapper only [isInternalUpdate] and its timer have moved. *)
Lemma run_sync_to_milkdown_ParseError content o (w : SyncManager.world) :
  parser content = ParseError ->
  let w' := snd (run_sync_to_milkdown content o w) in
  md_doc (md w') = md_doc (md w)
  /\ md_selection (md w') = md_selection (md w)
  /\ cm w' = cm w
  /\ (log w' = log w \/ log w' = log w ++ [Sync codemirror content o]).
Proof.
  intros Hp. unfold run_sync_to_milkdown.
  destruct (lastSource (this w)) as [[|]|].
  2: { simpl. auto. }
  all: unfold release_later; rewrite try_catch_finally_world;
    destruct (codemirrorEditor (this w)) eqn:Hc,
             (milkdownEditor (this w)) eqn:Hm;
    unfold bind, on_editor, cm_getCursorPosition, read;
    cbn -[md_setContent calculateApproximatePosition];
    rewrite ?Hc, ?Hm, ?md_setContent_ParseError by exact Hp;
    cbn -[calculateApproximatePosition]; rewrite ?Hm;
    cbn -[calculateApproximatePosition]; auto.
Qed.

(** *** SyncManager: the text has not changed *)

Lemma run_sync_to_codemirror_same content o (w : SyncManager.world) :
  lastSource (this w) <> Some codemirror ->
  codemirrorEditor (this w) = true ->
  cm_doc (cm w) = content ->
  snd (run_sync_to_codemirror content o w) =
  snd (schedule release 100
         (updateStatus ready
            (emit (Sync milkdown content o)
               (set_lastSource (Some milkdown) (set_isUpdating true w))))).
Proof.
  intros Hl Hed Hcm. unfold run_sync_to_codemirror.
  destruct (lastSource (this w)) as [[|]|]; try congruence;
    unfold release_later; rewrite try_catch_finally_world;
    unfold bind, on_editor, cm_getContent, read, ret, exec;
    cbn [set_isUpdating set_lastSource set_this emit this codemirrorEditor cm];
    rewrite Hed, Hcm, eqb_refl; reflexivity.
Qed.

End Paths.

(** ** Facts about the single-file application *)
Section AppFacts.

Import App Eff.

Context {E : Engine}.

Lemma syncToMilkdown_returns content (w : App.world) :
  fst (syncToMilkdown content w) = Ok tt.
Proof.
  unfold syncToMilkdown. destruct (milkdownEditor w); [|reflexivity].
  apply (try_catch_finally_returns _ (fun w => w)).
Qed.

Lemma syncToCodeMirror_returns (w : App.world) :
  fst (syncToCodeMirror w) = Ok tt.
Proof.
  unfold syncToCodeMirror. destruct (codemirrorView w); [|reflexivity].
  apply (try_catch_finally_returns _ (fun w => w)).
Qed.

Lemma syncToMilkdown_released content (w : App.world) :
  milkdownEditor w <> None ->
  isUpdating (mgr (snd (syncToMilkdown content w))) = false.
Proof.
  intros H. unfold syncToMilkdown. destruct (milkdownEditor w); [|congruence].
  change (@ret App.world unit tt) with (@exec App.world (fun w => w)).
  rewrite try_catch_finally_world. reflexivity.
Qed.

Lemma syncToCodeMirror_released (w : App.world) :
  codemirrorView w <> None ->
  isUpdating (mgr (snd (syncToCodeMirror w))) = false.
Proof.
  intros H. unfold syncToCodeMirror. destruct (codemirrorView w); [|congruence].
  change (@ret App.world unit tt) with (@exec App.world (fun w => w)).
  rewrite try_catch_finally_world. reflexivity.
Qed.

Lemma syncToMilkdown_ParseError content (w : App.world) :
  parser content = ParseError ->
  milkdownEditor (snd (syncToMilkdown content w)) = milkdownEditor w
  /\ log (snd (syncToMilkdown content w)) = log w.
Proof.
  intros Hp. unfold syncToMilkdown. destruct (milkdownEditor w) eqn:Em.
  - change (@ret App.world unit tt) with (@exec App.world (fun w => w)).
    rewrite try_catch_finally_world.
    unfold replace_in_milkdown. rewrite Hp. simpl. auto.
  - simpl. auto.
Qed.

(** [syncToCodeMirror] compares nothing: whatever the text, the replace of
    the whole buffer is dispatched. *)
Lemma syncToCodeMirror_replaces (w : App.world) v view markdown :
  codemirrorView w = Some v -> milkdownEditor w = Some view ->
  serializer (md_doc view) = Some markdown ->
  exists events,
    log (snd (syncToCodeMirror w)) = log w ++ CmChanges markdown :: events.
Proof.
  intros Hv Hm Hs. unfold syncToCodeMirror. rewrite Hv.
  change (@ret App.world unit tt) with (@exec App.world (fun w => w)).
  rewrite try_catch_finally_world.
  cbn [set_isUpdating set_lastSource set_mgr milkdownEditor].
  rewrite Hm, Hs. unfold bind, exec, cm_updateListener, cm_dispatch_selection.
  cbn -[restored relative].
  destruct (Num.as_int _) as [p|]; cbn -[restored relative].
  - destruct (_ && _); cbn; rewrite <- ?app_assoc; eexists; reflexivity.
  - eexists; reflexivity.
Qed.

(** The listeners under a set flag. *)
Lemma listeners_suppressed content (w : App.world) :
  isUpdating (mgr w) = true ->
  cm_updateListener content w = w /\ md_updated w = w.
Proof.
  intros H. unfold cm_updateListener, md_updated. now rewrite H.
Qed.

(** Both handlers schedule with the delay of the object. *)
Lemma handleCodeMirrorChange_due content (w : App.world) :
  exists l,
    Timers.pending (clk (handleCodeMirrorChange content w)) =
      l ++ [{| Timers.t_id := Timers.next_id (clk w);
               Timers.t_due := Timers.now (clk w)
                               + Z.max 0 (debounceDelay (mgr w));
               Timers.t_cb := to_milkdown content |}].
Proof.
  unfold handleCodeMirrorChange, schedule, clear_debounce.
  destruct (debounceTimer (mgr w)) as [id|]; [destruct (id =? 0)|];
    eexists; reflexivity.
Qed.

End AppFacts.


(** ** From a transaction in Milkdown to CodeMirror *)

Section CarriedFacts.

Import SyncManager SyncManagerSpec SyncManagerTiming Timers Eff.

Context {E : Engine}.

(** The callback of [handleMilkdownChange] with the editor attached: the
    lines of the text are in CodeMirror afterwards, also when the cursor
    could not be restored. *)
Lemma run_sync_to_codemirror_doc content o (w : SyncManager.world) :
  lastSource (this w) <> Some codemirror ->
  codemirrorEditor (this w) = true ->
  cm_doc (cm (snd (run_sync_to_codemirror content o w)))
  = landed (cm_doc (cm w)) content.
Proof.
  intros Hl Hc; unfold landed.
  destruct (JS.eqb (cm_doc (cm w)) content) eqn:Heq.
  - pose proof Heq as Heq'; apply eqb_eq in Heq'.
    now rewrite (run_sync_to_codemirror_same content o w Hl Hc Heq').
  - unfold run_sync_to_codemirror.
    destruct (lastSource (this w)) as [[|]|]; try congruence.
    all: unfold release_later; rewrite try_catch_finally_world;
      unfold bind, on_editor, cm_getContent, cm_getCursorPosition, read,
        cm_setContent, cm_dispatch_changes, cm_setCursorPosition, exec, ret,
        handleCodeMirrorChange;
      cbn -[adjustCursorPosition CodeMirror.toText];
      repeat (progress (rewrite ?Hc, ?Heq;
                        cbn -[adjustCursorPosition CodeMirror.toText]));
      destruct ((0 <=? _) && (_ <=? _)); cbn -[CodeMirror.toText];
      reflexivity.
Qed.

(** Nothing of weight 0 is in the queue. *)
Lemma weightless (l : list (timer task)) : total_weight l = 0%nat -> l = [].
Proof.
  destruct l as [|a l]; [reflexivity|]; cbn.
  pose proof (weight_positive (t_cb a)); lia.
Qed.

Section Carried.

Variables (deadline : Z) (w0 : world) (d : Doc) (o : origin)
  (markdown : jsstring).

Hypothesis serialized : serializer d = Some markdown.
Hypothesis changed : sameDoc (prevDoc (md w0)) d = false.
Hypothesis new_markdown : differs markdown (prevMarkdown (md w0)) = true.

Lemma kept_pending (f : timer task -> bool) w t u :
  WF w -> In t (pending (clk w)) ->
  filter f (pending (clk w)) = [u] -> t_cb u <> t_cb t ->
  filter f (drop (t_id t) (pending (clk w))) = [u].
Proof.
  intros Hwf Ht Hf Hne.
  assert (Hu : In u (pending (clk w)))
    by (apply (proj1 (filter_In f u _)); rewrite Hf; now left).
  rewrite drop_filter, Hf; cbn.
  destruct (Z.eqb_spec (t_id u) (t_id t)) as [e|_]; [|reflexivity].
  exfalso; apply Hne; f_equal.
  apply (same_id (pending (clk w))); auto; apply (wf_nodup w Hwf).
Qed.

(** A timer fires while the handler is waiting: the handler itself, which
    leaves the callback of [handleMilkdownChange] as the only debounced
    callback, or a release of [isInternalUpdate]. *)
Lemma waiting_fire w t :
  WF w -> waiting deadline w0 d o w ->
  earliest (pending (clk w)) = Some t ->
  md_doc (md (snd (fire t w))) = md_doc (md w)
  /\ ((is_notification (t_cb t) = false
       /\ waiting deadline w0 d o (snd (fire t w)))
      \/ (is_notification (t_cb t) = true
          /\ scheduled deadline w0 markdown o (snd (fire t w)))).
Proof.
  intros Hwf (Hidle & Hdelay & Hed & Hcm & Hsy & Hpd & Hpm
              & n & Hn & Hncb & Hnow & Hdue & Hlate & Hint) He.
  pose proof (earliest_In _ _ He) as Hin.
  assert (Hnin : In n (pending (clk w)))
    by (apply (pending_notifications_In w n); rewrite Hn; now left).
  pose proof (earliest_least _ _ _ He Hnin) as Hle.
  assert (Hns : is_sync_task (t_cb t) = false).
  { destruct (is_sync_task (t_cb t)) eqn:Es; [|reflexivity].
    assert (H : In t (pending_syncs w)) by now apply pending_syncs_In.
    specialize (Hlate t H); lia. }
  destruct (t_cb t) as [[]|d' o'] eqn:Hcb; try discriminate.
  - destruct (release_pending_busy w t Hwf Hin Hcb); congruence.
  - (* a release of [isInternalUpdate] *)
    rewrite fire_internal in * by exact Hcb.
    split; [reflexivity|left; split; [reflexivity|]].
    unfold waiting; conjuncts; try assumption.
    exists n; conjuncts; try assumption.
    + unfold pending_notifications in *.
      cbn [set_isInternalUpdate set_md set_clk clk fired pending].
      apply kept_pending; auto; congruence.
    + cbn [set_isInternalUpdate set_md set_clk clk fired now]; lia.
    + intros s Hs; apply Hlate; unfold pending_syncs in *.
      cbn [set_isInternalUpdate set_md set_clk clk fired pending] in Hs.
      rewrite drop_filter in Hs; apply drop_In in Hs; tauto.
    + cbn; discriminate.
  - (* the handler itself *)
    assert (Htn : t = n).
    { assert (H : In t (pending_notifications w))
        by (apply pending_notifications_In; rewrite Hcb; auto).
      rewrite Hn in H; destruct H as [H|[]]; now symmetry. }
    subst t; rewrite Hncb in Hcb; injection Hcb as <- <-.
    assert (Hclear : isInternalUpdate (md w) = false).
    { destruct (isInternalUpdate (md w)); [|reflexivity].
      destruct (Hint eq_refl) as (i & Hi & _ & Hlt).
      pose proof (earliest_least _ _ _ He Hi); lia. }
    rewrite (fire_notification w n d o Hncb).
    set (wf := set_clk (fired n (clk w)) w).
    assert (Hwff : WF wf)
      by (apply WF_inner_fired; auto; now rewrite Hncb).
    assert (Hidlef : isUpdating (this wf) = false) by exact Hidle.
    unfold run_notification.
    change (prevDoc (md wf)) with (prevDoc (md w)).
    change (prevMarkdown (md wf)) with (prevMarkdown (md w)).
    rewrite Hpd, changed, serialized, Hpm; cbn [snd].
    unfold md_listener.
    change (isInternalUpdate (md wf)) with (isInternalUpdate (md w)).
    rewrite Hclear, new_markdown; cbn [negb andb].
    destruct (handleMilkdownChange_idle markdown o wf Hidlef)
      as (Hthis & Hnow' & _ & Hp & Hlog & Hcm' & Hmd').
    split; [cbn [set_prev set_md md md_doc]; rewrite Hmd'; reflexivity|].
    right; split; [reflexivity|]; unfold scheduled.
    cbn [set_prev set_md this cm].
    conjuncts.
    + now rewrite Hthis.
    + rewrite Hthis; exact Hed.
    + rewrite Hcm'; exact Hcm.
    + unfold syncs in *; cbn [set_prev set_md log]; rewrite Hlog; exact Hsy.
    + unfold pending_notifications in *; cbn [set_prev set_md clk].
      rewrite Hp, filter_app, cleared_filter.
      change (pending (clk wf)) with (drop (t_id n) (pending (clk w))).
      rewrite drop_filter, Hn.
      cbn [drop filter]; rewrite Z.eqb_refl; cbn [negb app].
      change (debounceTimer (this wf)) with (debounceTimer (this w)).
      destruct (debounceTimer (this w)); reflexivity.
    + exists (mk (next_id (clk wf))
                (now (clk wf) + Z.max 0 (syncDelay (this wf)))
                (sync_to_codemirror markdown o)).
      split; [|split; [reflexivity|]].
      * unfold pending_syncs; cbn [set_prev set_md clk].
        rewrite Hp, filter_app, (idle_cleared_syncs wf Hwff Hidlef).
        reflexivity.
      * cbn [mk t_due].
        change (now (clk wf)) with (Z.max (now (clk w)) (t_due n)).
        change (syncDelay (this wf)) with (syncDelay (this w)).
        rewrite Hdelay; lia.
Qed.

Lemma scheduled_fire w t :
  WF w -> md_doc (md w) = md_doc (md w0) ->
  scheduled deadline w0 markdown o w ->
  next_due deadline (clk w) = Some t ->
  carried deadline w0 d o markdown (snd (fire t w)).
Proof.
  intros Hwf Hmd (Hidle & Hed & Hcm & Hsy & Hquiet & t0 & Hpend & Hcb & Hdue0)
    Ht.
  apply next_due_Some in Ht; destruct Ht as [Hin Hdue].
  pose proof (WF_fire w t Hwf Hin) as Hwf'.
  split; [exact Hwf'|].
  destruct (is_sync_task (t_cb t)) eqn:Es.
  - assert (Ht0 : In t (pending_syncs w)) by now apply pending_syncs_In.
    rewrite Hpend in Ht0; destruct Ht0 as [<-|[]].
    pose proof (fire_sync_to_codemirror w t0 markdown o Hwf Hin Hcb)
      as (Hthis & _ & Hs & l & Hl & _ & Hp & _).
    assert (Hl0 : l = []) by (apply weightless; cbn in Hl; lia).
    subst l; cbn [app] in Hp.
    assert (Hlast : lastSource (this (set_clk (fired t0 (clk w)) w))
                    <> Some codemirror).
    { cbn [set_clk this]; destruct (wf_idle w Hwf Hidle) as (-> & _).
      discriminate. }
    split.
    { unfold fire; rewrite Hcb; cbn [run_task run_callback].
      now rewrite run_sync_to_codemirror_md. }
    right; right; unfold arrived; conjuncts.
    + rewrite Hs; unfold syncs in *; cbn [set_clk log]; now rewrite Hsy.
    + apply (wf_busy _ Hwf'); rewrite Hthis; reflexivity.
    + unfold pending_notifications in *; rewrite Hp.
      cbn [set_clk clk fired pending]; rewrite filter_app, drop_filter, Hquiet.
      reflexivity.
    + intros Hc0; rewrite <- Hed in Hc0.
      unfold fire; rewrite Hcb; cbn [run_task run_callback].
      rewrite run_sync_to_codemirror_doc by assumption.
      cbn [set_clk cm]; now rewrite Hcm.
  - pose proof (no_notification_due w t Hquiet Hin) as Hnn.
    pose proof (idle_fires_internal w t Hwf Hidle Hin Es Hnn) as Hi.
    rewrite fire_internal in * by exact Hi.
    split; [exact Hmd|right; left].
    unfold scheduled; conjuncts; try assumption.
    + unfold pending_notifications in *.
      cbn [set_isInternalUpdate set_md set_clk clk fired pending].
      now rewrite drop_filter, Hquiet.
    + exists t0; conjuncts; try assumption.
      unfold pending_syncs in *.
      cbn [set_isInternalUpdate set_md set_clk clk fired pending].
      apply kept_pending; auto; congruence.
Qed.

Lemma arrived_fire w t :
  WF w -> md_doc (md w) = md_doc (md w0) ->
  arrived w0 markdown o w ->
  next_due deadline (clk w) = Some t ->
  carried deadline w0 d o markdown (snd (fire t w)).
Proof.
  intros Hwf Hmd (Hsy & Hnone & Hquiet & Hdoc) Ht.
  apply next_due_Some in Ht; destruct Ht as [Hin Hdue].
  pose proof (WF_fire w t Hwf Hin) as Hwf'.
  split; [exact Hwf'|].
  pose proof (no_sync_due w t Hnone Hin) as Hns.
  pose proof (no_notification_due w t Hquiet Hin) as Hnn.
  destruct (t_cb t) as [[]|] eqn:Hcb; try discriminate.
  - rewrite fire_release in * by exact Hcb.
    split; [exact Hmd|right; right].
    unfold arrived; conjuncts; try assumption.
    + now apply pending_syncs_fired_release.
    + unfold pending_notifications in *.
      cbn [set_lastSource set_isUpdating set_this set_clk clk fired pending].
      now rewrite drop_filter, Hquiet.
  - rewrite fire_internal in * by exact Hcb.
    split; [exact Hmd|right; right].
    unfold arrived; conjuncts; try assumption.
    + now apply pending_syncs_fired_internal.
    + unfold pending_notifications in *.
      cbn [set_isInternalUpdate set_md set_clk clk fired pending].
      now rewrite drop_filter, Hquiet.
Qed.

Lemma carried_fire w t :
  carried deadline w0 d o markdown w ->
  next_due deadline (clk w) = Some t ->
  carried deadline w0 d o markdown (snd (fire t w)).
Proof.
  intros (Hwf & Hmd & [H|[H|H]]) Ht;
    [|now apply scheduled_fire|now apply arrived_fire].
  pose proof (next_due_earliest _ _ _ Ht) as He.
  destruct (waiting_fire w t Hwf H He) as (Hmd' & [[_ Hw]|[_ Hs]]).
  - split; [apply WF_fire; [exact Hwf|now apply earliest_In]|].
    split; [congruence|now left].
  - split; [apply WF_fire; [exact Hwf|now apply earliest_In]|].
    split; [congruence|right; now left].
Qed.

(** Before the handler is due, it stays waiting. *)
Lemma waiting_advance dt w :
  WF w -> waiting deadline w0 d o w ->
  (forall n, In n (pending_notifications w) ->
             now (clk w) + Z.max 0 dt < t_due n) ->
  WF (advance dt w)
  /\ md_doc (md (advance dt w)) = md_doc (md w)
  /\ waiting deadline w0 d o (advance dt w)
  /\ now (clk (advance dt w)) = now (clk w) + Z.max 0 dt
  /\ pending_notifications (advance dt w) = pending_notifications w.
Proof.
  intros Hwf Hw Hlate.
  set (early := now (clk w) + Z.max 0 dt) in *.
  set (I := fun w' => WF w' /\ md_doc (md w') = md_doc (md w)
                      /\ waiting deadline w0 d o w'
                      /\ now (clk w) <= now (clk w') <= early
                      /\ pending_notifications w' = pending_notifications w
                      /\ forall n, In n (pending_notifications w') ->
                                   early < t_due n).
  assert (H : I (fire_due (total_weight (pending (clk w))) early w)).
  { apply advance_invariant.
    - intros w' t (Hwf' & Hmd' & Hw' & Hnow' & Hsame & Hlate') Ht.
      pose proof (next_due_earliest _ _ _ Ht) as He.
      apply next_due_Some in Ht; destruct Ht as [Hin Hdue].
      destruct (waiting_fire w' t Hwf' Hw' He)
        as (Hmd'' & [[Hnn Hw'']|[Hnn _]]).
      + split; [now apply WF_fire|]; split; [congruence|].
        split; [exact Hw''|].
        assert (Hq : pending_notifications (snd (fire t w'))
                     = pending_notifications w'
                     /\ now (clk (snd (fire t w')))
                        = Z.max (now (clk w')) (t_due t)).
        { destruct Hw' as (Hidle & _ & _ & _ & _ & _ & _
                           & n & Hn & Hncb & _ & _ & Hsync & _).
          assert (Hns : is_sync_task (t_cb t) = false).
          { destruct (is_sync_task (t_cb t)) eqn:Es; [|reflexivity].
            assert (Hs : In t (pending_syncs w'))
              by now apply pending_syncs_In.
            assert (Hn' : In n (pending_notifications w'))
              by (rewrite Hn; now left).
            specialize (Hsync t Hs); specialize (Hlate' n Hn'); lia. }
          pose proof (idle_fires_internal w' t Hwf' Hidle Hin Hns Hnn) as Hcb.
          rewrite fire_internal by exact Hcb.
          unfold pending_notifications in *.
          cbn [set_isInternalUpdate set_md set_clk clk fired pending now].
          split; [|reflexivity].
          rewrite Hn; apply kept_pending; auto; congruence. }
        destruct Hq as [Hq1 Hq2]; rewrite Hq1, Hq2.
        split; [lia|split; [exact Hsame|exact Hlate']].
      + exfalso.
        assert (Hn : In t (pending_notifications w'))
          by now apply pending_notifications_In.
        specialize (Hlate' t Hn); lia.
    - unfold I; conjuncts; auto; lia. }
  destruct H as (Hwf' & Hmd' & Hw' & Hnow' & Hsame & Hlate').
  unfold advance; fold early.
  set (w' := fire_due _ early w) in *.
  cbn [set_clk md clk elapsed now].
  split; [eapply WF_frame; [| | |exact Hwf']; reflexivity|].
  split; [exact Hmd'|].
  split; [|split; [lia|exact Hsame]].
  - destruct Hw' as (A1 & A2 & A3 & A4 & A5 & A6 & A7
                     & n & Hn & B1 & B2 & B3 & B4 & B5).
    unfold waiting; conjuncts; try assumption.
    exists n; conjuncts; try assumption.
    cbn [set_clk clk elapsed now].
    assert (Hin : In n (pending_notifications w'))
      by (rewrite Hn; now left).
    specialize (Hlate' n Hin); lia.
Qed.

End Carried.

(** When the time of the handler and the debounce delay after it have
    passed, the markdown has arrived. *)
Lemma carried_advance dt w (d : Doc) o markdown :
  serializer d = Some markdown ->
  sameDoc (prevDoc (md w)) d = false ->
  differs markdown (prevMarkdown (md w)) = true ->
  carried (now (clk w) + Z.max 0 dt) w d o markdown w ->
  md_doc (md (advance dt w)) = md_doc (md w)
  /\ arrived w markdown o (advance dt w).
Proof.
  intros Hs Hc Hn Hcar.
  set (deadline := now (clk w) + Z.max 0 dt) in *.
  pose proof (advance_invariant (carried deadline w d o markdown) dt w
                (fun w' t => carried_fire deadline w d o markdown Hs Hc Hn
                               w' t) Hcar) as H.
  fold deadline in H.
  set (w' := fire_due _ deadline w) in H.
  assert (Hadv : advance dt w = set_clk (elapsed deadline (clk w')) w')
    by reflexivity.
  rewrite Hadv.
  destruct H as (_ & Hmd & [Hw|[Hsch|Harr]]).
  - exfalso.
    destruct Hw as (_ & _ & _ & _ & _ & _ & _ & n & Hn' & _ & _ & Hdue & _).
    assert (Hin : In n (pending (clk (advance dt w)))).
    { rewrite Hadv; cbn [set_clk clk elapsed pending].
      apply (pending_notifications_In w' n); rewrite Hn'; now left. }
    apply advance_settled in Hin; fold deadline in Hin; lia.
  - exfalso.
    destruct Hsch as (_ & _ & _ & _ & _ & t0 & Hp & _ & Hdue).
    assert (Hin : In t0 (pending (clk (advance dt w)))).
    { rewrite Hadv; cbn [set_clk clk elapsed pending].
      apply (pending_syncs_In w' t0); rewrite Hp; now left. }
    apply advance_settled in Hin; fold deadline in Hin; lia.
  - split; [exact Hmd|exact Harr].
Qed.

(** An edit in Milkdown while nothing that could start a sync is pending:
    its handler is waiting. *)
Lemma user_edits_waiting (d : Doc) sel w bound :
  isUpdating (this w) = false ->
  isInternalUpdate (md w) = false ->
  pending_syncs w = [] ->
  pending_notifications w = [] ->
  now (clk w) + listener_delay + Z.max 0 (syncDelay (this w)) <= bound ->
  waiting bound (user_edits d sel w) d User (user_edits d sel w).
Proof.
  intros Hf Hi Hnone Hquiet Hb.
  unfold waiting; conjuncts; try reflexivity; try exact Hf.
  exists (mk (next_id (clk w)) (now (clk w) + listener_delay)
            (notification d User)).
  conjuncts.
  - unfold pending_notifications in *.
    unfold user_edits, schedule, setTimeout.
    cbn [snd set_clk set_md clk pending]; rewrite filter_app, Hquiet.
    reflexivity.
  - reflexivity.
  - cbn; unfold listener_delay; lia.
  - cbn [mk t_due]; exact Hb.
  - intros s Hs; exfalso; revert Hs; unfold pending_syncs in *.
    unfold user_edits, schedule, setTimeout.
    cbn [snd set_clk set_md clk pending]; rewrite filter_app, Hnone.
    cbn; tauto.
  - cbn; rewrite Hi; discriminate.
Qed.

(** The timer that [handleCodeMirrorChange] clears is a debounced callback:
    the handlers of the listener plugin and the releases stay. *)
Lemma cleared_keeps (f : timer task -> bool) w :
  WF w ->
  (forall u, f u = true -> is_sync_task (t_cb u) = false) ->
  filter f (cleared (debounceTimer (this w)) (pending (clk w)))
  = filter f (pending (clk w)).
Proof.
  intros Hwf Hf; rewrite cleared_filter.
  destruct (debounceTimer (this w)) as [id|] eqn:Hh; [|reflexivity].
  cbn [cleared].
  assert (H : forall u, In u (filter f (pending (clk w))) -> t_id u <> id).
  { intros u Hu e; apply filter_In in Hu; destruct Hu as [Hu Hfu].
    pose proof (wf_handle_sync w Hwf u Hu) as Hs.
    rewrite e in Hs; specialize (Hs Hh).
    rewrite (Hf u Hfu) in Hs; discriminate. }
  induction (filter f (pending (clk w))) as [|a l IH]; [reflexivity|].
  cbn [drop filter].
  destruct (Z.eqb_spec (t_id a) id) as [e|_].
  - exfalso; apply (H a); [now left|exact e].
  - cbn [negb]; f_equal; apply IH; intros u Hu; apply H; now right.
Qed.

(** An edit in CodeMirror while the handler is waiting and due before the
    debounce delay is over: the handler is still waiting, now with the
    callback of the edit pending behind it. *)
Lemma user_types_waiting bound w0 (d : Doc) o content head w :
  WF w -> waiting bound w0 d o w ->
  (forall n, In n (pending_notifications w) ->
             t_due n < now (clk w) + Z.max 0 (syncDelay (this w))) ->
  let w2 := user_types content head w in
  waiting bound w2 d o w2
  /\ prevDoc (md w2) = prevDoc (md w0)
  /\ prevMarkdown (md w2) = prevMarkdown (md w0)
  /\ md_doc (md w2) = md_doc (md w)
  /\ syncs w2 = syncs w0
  /\ codemirrorEditor (this w2) = codemirrorEditor (this w0)
  /\ cm_doc (cm w2) = content
  /\ now (clk w2) = now (clk w)
  /\ debounceTimer (this w2) = Some (next_id (clk w))
  /\ pending_syncs w2
     = [mk (next_id (clk w))
          (now (clk w) + Z.max 0 (syncDelay (this w)))
          (sync_to_milkdown content User)].
Proof.
  intros Hwf (Hidle & Hdelay & Hed & Hcm & Hsy & Hpd & Hpm
              & n & Hn & Hncb & Hnow & Hdue & Hlate & Hint) Hsoon.
  cbv zeta; unfold user_types.
  set (wc := set_cm {| cm_doc := content; cm_head := head |} w).
  assert (Hwfc : WF wc) by (eapply WF_frame; [| | |exact Hwf]; reflexivity).
  assert (Hidlec : isUpdating (this wc) = false) by exact Hidle.
  destruct (handleCodeMirrorChange_idle content User wc Hidlec)
    as (Hthis & Hnow' & _ & Hp & Hlog & Hcm' & Hmd').
  set (w2 := handleCodeMirrorChange content User wc) in *.
  assert (Hnots : pending_notifications w2 = [n]).
  { unfold pending_notifications in *; rewrite Hp, filter_app.
    rewrite (cleared_keeps _ wc Hwfc).
    - change (pending (clk wc)) with (pending (clk w)); rewrite Hn.
      reflexivity.
    - intros u Hu; destruct (t_cb u) as [[]|]; try discriminate; reflexivity. }
  assert (Hsyncs : pending_syncs w2
                   = [mk (next_id (clk w))
                        (now (clk w) + Z.max 0 (syncDelay (this w)))
                        (sync_to_milkdown content User)]).
  { unfold pending_syncs; rewrite Hp, filter_app.
    rewrite (idle_cleared_syncs wc Hwfc Hidlec); reflexivity. }
  assert (Hnin : In n (pending_notifications w)) by (rewrite Hn; now left).
  conjuncts.
  - unfold waiting; conjuncts; try reflexivity.
    + now rewrite Hthis.
    + exists n; conjuncts.
      * exact Hnots.
      * exact Hncb.
      * rewrite Hnow'; exact Hnow.
      * replace (syncDelay (this w2)) with (syncDelay (this w0));
          [exact Hdue|rewrite Hthis; symmetry; exact Hdelay].
      * intros s Hs; rewrite Hsyncs in Hs; destruct Hs as [<-|[]].
        cbn [mk t_due]; apply Hsoon, Hnin.
      * rewrite Hmd'; intros Hset; destruct (Hint Hset) as (i & Hi & Hicb & Hlt).
        exists i; conjuncts; try assumption.
        rewrite Hp; apply in_or_app; left.
        assert (H : In i (filter (fun u => negb (is_sync_task (t_cb u)))
                            (cleared (debounceTimer (this wc))
                               (pending (clk wc))))).
        { rewrite (cleared_keeps _ wc Hwfc).
          - apply filter_In; split; [exact Hi|now rewrite Hicb].
          - intros u Hu; now destruct (is_sync_task (t_cb u)). }
        apply filter_In in H; tauto.
  - rewrite Hmd'; exact Hpd.
  - rewrite Hmd'; exact Hpm.
  - now rewrite Hmd'.
  - unfold syncs in *; now rewrite Hlog.
  - rewrite Hthis; exact Hed.
  - now rewrite Hcm'.
  - exact Hnow'.
  - now rewrite Hthis.
  - exact Hsyncs.
Qed.

End CarriedFacts.
(** ** From an edit in CodeMirror to the echo of its replace *)

Section EchoFacts.

Import SyncManager SyncManagerSpec SyncManagerTiming Timers Eff.

Context {E : Engine}.

(** The callback of [handleCodeMirrorChange] on a text that parses, with
    both editors attached: whatever becomes of the cursor, Milkdown has the
    new document, and the queue got the handler of the listener plugin and
    the two releases. *)
Lemma run_sync_to_milkdown_replaces content o (d : Doc) (w : SyncManager.world) :
  lastSource (this w) <> Some milkdown ->
  codemirrorEditor (this w) = true -> milkdownEditor (this w) = true ->
  parser content = Parsed d ->
  let w' := snd (run_sync_to_milkdown content o w) in
  let n := next_id (clk w) in
  isUpdating (this w') = true
  /\ syncDelay (this w') = syncDelay (this w)
  /\ codemirrorEditor (this w') = true
  /\ cm w' = cm w
  /\ syncs w' = syncs w ++ [Sync codemirror content o]
  /\ md_doc (md w') = d
  /\ prevDoc (md w') = prevDoc (md w)
  /\ prevMarkdown (md w') = prevMarkdown (md w)
  /\ now (clk w') = now (clk w)
  /\ pending (clk w') =
     pending (clk w)
     ++ [mk n (now (clk w) + listener_delay) (notification d Programmatic);
         mk (n + 1) (now (clk w) + 100) internal_release;
         mk (n + 1 + 1) (now (clk w) + 100) release].
Proof.
  intros Hl Hc Hm Hp.
  unfold run_sync_to_milkdown.
  destruct (lastSource (this w)) as [[|]|]; try congruence.
  all: unfold release_later; rewrite try_catch_finally_world;
    unfold bind, on_editor, cm_getCursorPosition, read, md_setContent, exec,
      try_finally, md_dispatch_replace, md_setCursorPosition, syncs;
    cbn -[calculateApproximatePosition Z.min];
    rewrite ?Hc, ?Hm, ?Hp; cbn -[calculateApproximatePosition Z.min];
    destruct (calculateApproximatePosition content (cm_head (cm w))) as [z|];
    cbn -[Z.min]; rewrite ?Hm; cbn -[Z.min];
    try destruct (z >=? 0); cbn -[Z.min]; rewrite ?Hm; cbn -[Z.min];
    try destruct (Z.min z (size d) <? 0); cbn -[Z.min];
    rewrite ?filter_app; cbn [filter is_Sync app]; rewrite ?app_nil_r;
    rewrite <- ?app_assoc; cbn [app]; conjuncts; try reflexivity; exact Hc.
Qed.

Section Echo.

Variables (deadline : Z) (w0 : world) (content : jsstring) (d : Doc)
  (markdown : jsstring).

Hypothesis parsed : parser content = Parsed d.
Hypothesis serialized : serializer d = Some markdown.
Hypothesis changed : sameDoc (prevDoc (md w0)) d = false.
Hypothesis new_markdown : differs markdown (prevMarkdown (md w0)) = true.

(** A timer fires while the callback of the edit is pending: that callback,
    which replaces the document, or a release of [isInternalUpdate]. *)
Lemma typed_fire w t :
  WF w -> typed deadline w0 content w ->
  earliest (pending (clk w)) = Some t ->
  typed deadline w0 content (snd (fire t w))
  \/ replaced deadline w0 content d (snd (fire t w)).
Proof.
  intros Hwf (Hidle & Hdelay & Hc & Hm & Hcm & Hsy & Hpd & Hpm & Hnone
              & s & Hs & Hscb & Hnow & Hdue) He.
  pose proof (earliest_In _ _ He) as Hin.
  assert (Hsin : In s (pending (clk w)))
    by (apply (pending_syncs_In w s); rewrite Hs; now left).
  pose proof (earliest_least _ _ _ He Hsin) as Hle.
  destruct (is_notification (t_cb t)) eqn:Hnn.
  { assert (H : In t (pending_notifications w))
      by now apply pending_notifications_In.
    rewrite Hnone in H; destruct H. }
  destruct (is_sync_task (t_cb t)) eqn:Hst.
  - (* the callback of the edit *)
    assert (Hts : t = s).
    { assert (H : In t (pending_syncs w)) by now apply pending_syncs_In.
      rewrite Hs in H; destruct H as [H|[]]; now symmetry. }
    subst t; right.
    unfold fire; rewrite Hscb; cbn [run_task run_callback].
    set (wf := set_clk (fired s (clk w)) w).
    destruct (wf_idle w Hwf Hidle) as (Hlast & _).
    destruct (run_sync_to_milkdown_replaces content User d wf)
      as (B1 & B2 & B3 & B4 & B5 & B6 & B7 & B8 & B9 & B10);
      try assumption.
    { change (lastSource (this wf)) with (lastSource (this w)).
      rewrite Hlast; discriminate. }
    set (w' := snd (run_sync_to_milkdown content User wf)) in *.
    assert (Hnowf : now (clk wf) = t_due s)
      by (change (now (clk wf)) with (Z.max (now (clk w)) (t_due s)); lia).
    unfold replaced; conjuncts; try assumption.
    + now rewrite B2.
    + now rewrite B4.
    + rewrite B5; unfold syncs in *; cbn [wf set_clk log]; now rewrite Hsy.
    + now rewrite B7.
    + now rewrite B8.
    + exists (mk (next_id (clk wf)) (now (clk wf) + listener_delay)
                (notification d Programmatic)),
             (mk (next_id (clk wf) + 1 + 1) (now (clk wf) + 100) release).
      conjuncts.
      * unfold pending_notifications in *; rewrite B10, filter_app.
        change (pending (clk wf)) with (drop (t_id s) (pending (clk w))).
        rewrite drop_filter, Hnone; reflexivity.
      * reflexivity.
      * rewrite B10; apply in_or_app; right; cbn; auto.
      * reflexivity.
      * cbn [mk t_due]; unfold listener_delay; lia.
      * rewrite B9; cbn [mk t_due]; unfold listener_delay; lia.
      * cbn [mk t_due]; rewrite Hnowf; lia.
      * intros _.
        exists (mk (next_id (clk wf) + 1) (now (clk wf) + 100)
                  internal_release).
        conjuncts; [|reflexivity|].
        -- rewrite B10; apply in_or_app; right; cbn; auto.
        -- cbn [mk t_due]; unfold listener_delay; lia.
  - (* a release of [isInternalUpdate] *)
    pose proof (idle_fires_internal w t Hwf Hidle Hin Hst Hnn) as Hcb.
    left; rewrite fire_internal by exact Hcb.
    unfold typed; conjuncts; try assumption.
    + unfold pending_notifications in *.
      cbn [set_isInternalUpdate set_md set_clk clk fired pending].
      now rewrite drop_filter, Hnone.
    + exists s; conjuncts; try assumption.
      * unfold pending_syncs in *.
        cbn [set_isInternalUpdate set_md set_clk clk fired pending].
        apply kept_pending; auto; congruence.
      * cbn [set_isInternalUpdate set_md set_clk clk fired now]; lia.
Qed.

(** A timer fires while the flag of the replace is set: the release of the
    flag, after which the handler of the listener plugin is waiting with
    both flags clear, or the release of [isInternalUpdate]. *)
Lemma replaced_fire w t :
  WF w -> replaced deadline w0 content d w ->
  earliest (pending (clk w)) = Some t ->
  replaced deadline w0 content d (snd (fire t w))
  \/ returning deadline w0 content d markdown (snd (fire t w)).
Proof.
  intros Hwf (Hbusy & Hdelay & Hc & Hcm & Hsy & Hmd & Hpd & Hpm
              & n & r & Hn & Hncb & Hr & Hrcb & Hlt & Hnow & Hdue & Hint) He.
  pose proof (earliest_In _ _ He) as Hin.
  assert (Hnin : In n (pending (clk w)))
    by (apply (pending_notifications_In w n); rewrite Hn; now left).
  pose proof (earliest_least _ _ _ He Hnin) as Hlen.
  pose proof (earliest_least _ _ _ He Hr) as Hler.
  destruct (wf_busy w Hwf Hbusy) as [Hnosync _].
  assert (Hwf' : WF (snd (fire t w))) by now apply WF_fire.
  destruct (t_cb t) as [[c o|c o| |]|d' o'] eqn:Hcb.
  - exfalso.
    assert (H : In t (pending_syncs w))
      by (apply pending_syncs_In; rewrite Hcb; auto).
    rewrite Hnosync in H; destruct H.
  - exfalso.
    assert (H : In t (pending_syncs w))
      by (apply pending_syncs_In; rewrite Hcb; auto).
    rewrite Hnosync in H; destruct H.
  - (* the release of the flag *)
    right; exists (snd (fire t w)).
    rewrite fire_release in * by exact Hcb.
    set (w' := set_lastSource None
                 (set_isUpdating false (set_clk (fired t (clk w)) w))) in *.
    conjuncts; try assumption.
    split; [exact Hwf'|split; [reflexivity|left]].
    unfold waiting; conjuncts; try reflexivity.
    exists n; conjuncts; try assumption.
    + unfold pending_notifications in *.
      change (pending (clk w')) with (drop (t_id t) (pending (clk w))).
      apply kept_pending; auto; congruence.
    + change (now (clk w')) with (Z.max (now (clk w)) (t_due t)); lia.
    + change (syncDelay (this w')) with (syncDelay (this w)).
      rewrite Hdelay; exact Hdue.
    + intros s Hs; exfalso; revert Hs; unfold pending_syncs in *.
      change (pending (clk w')) with (drop (t_id t) (pending (clk w))).
      rewrite drop_filter, Hnosync; cbn; tauto.
    + change (isInternalUpdate (md w')) with (isInternalUpdate (md w)).
      intros Hset; destruct (Hint Hset) as (i & Hi & Hicb & Hilt).
      exists i; conjuncts; try assumption.
      change (pending (clk w')) with (drop (t_id t) (pending (clk w))).
      apply drop_In; split; [exact Hi|].
      intros e.
      assert (i = t)
        by (apply (same_id (pending (clk w))); auto; apply (wf_nodup w Hwf)).
      subst i; congruence.
  - (* the release of [isInternalUpdate] *)
    left; rewrite fire_internal in * by exact Hcb.
    unfold replaced; conjuncts; try assumption.
    exists n, r; conjuncts; try assumption.
    + unfold pending_notifications in *.
      cbn [set_isInternalUpdate set_md set_clk clk fired pending].
      apply kept_pending; auto; congruence.
    + cbn [set_isInternalUpdate set_md set_clk clk fired pending].
      apply drop_In; split; [exact Hr|].
      intros e.
      assert (r = t)
        by (apply (same_id (pending (clk w))); auto; apply (wf_nodup w Hwf)).
      subst r; congruence.
    + cbn [set_isInternalUpdate set_md set_clk clk fired now]; lia.
    + cbn; discriminate.
  - (* the handler is due after the release of the flag *)
    exfalso.
    assert (H : In t (pending_notifications w))
      by (apply pending_notifications_In; rewrite Hcb; auto).
    rewrite Hn in H; destruct H as [H|[]]; subst t; lia.
Qed.

Lemma echoed_fire w t :
  echoed deadline w0 content d markdown w ->
  next_due deadline (clk w) = Some t ->
  echoed deadline w0 content d markdown (snd (fire t w)).
Proof.
  intros (Hwf & H) Ht.
  pose proof (next_due_earliest _ _ _ Ht) as He.
  split; [apply WF_fire; [exact Hwf|now apply earliest_In]|].
  destruct H as [H|[H|(wr & R1 & R2 & R3 & R4 & R5 & R6 & H)]].
  - destruct (typed_fire w t Hwf H He); [now left|right; now left].
  - right; apply (replaced_fire w t Hwf H He).
  - right; right; exists wr; conjuncts; try assumption.
    apply carried_fire; auto; [now rewrite R5|now rewrite R6].
Qed.

End Echo.

(** When the debounce delay, the 200 ms of the listener plugin and the
    debounce delay once more have passed after an edit in CodeMirror, the
    replace it caused in Milkdown has been synchronised back. *)
Lemma echoed_advance dt w content (d : Doc) markdown :
  parser content = Parsed d ->
  serializer d = Some markdown ->
  sameDoc (prevDoc (md w)) d = false ->
  differs markdown (prevMarkdown (md w)) = true ->
  WF w ->
  typed (now (clk w) + Z.max 0 dt) w content w ->
  syncs (advance dt w)
  = syncs w ++ [Sync codemirror content User;
                Sync milkdown markdown Programmatic]
  /\ md_doc (md (advance dt w)) = d
  /\ cm_doc (cm (advance dt w)) = landed (cm_doc (cm w)) markdown.
Proof.
  intros Hp Hs Hc Hn Hwf Hty.
  set (deadline := now (clk w) + Z.max 0 dt) in *.
  assert (H : echoed deadline w content d markdown
                (fire_due (total_weight (pending (clk w))) deadline w)).
  { apply advance_invariant.
    - intros w' t; now apply echoed_fire.
    - split; [exact Hwf|now left]. }
  set (w' := fire_due _ deadline w) in H.
  assert (Hadv : advance dt w = set_clk (elapsed deadline (clk w')) w')
    by reflexivity.
  assert (Hlate : forall u, In u (pending (clk w')) -> deadline < t_due u).
  { intros u Hu; apply (advance_settled dt w u).
    rewrite Hadv; exact Hu. }
  rewrite Hadv; cbn [set_clk md cm].
  destruct H as (_ & [H|[H|(wr & R1 & R2 & R3 & R4 & R5 & R6 & H)]]).
  - exfalso.
    destruct H as (_ & _ & _ & _ & _ & _ & _ & _ & _ & s & Hs' & _ & _ & Hdue).
    assert (Hin : In s (pending (clk w')))
      by (apply (pending_syncs_In w' s); rewrite Hs'; now left).
    specialize (Hlate s Hin); unfold listener_delay in *; lia.
  - exfalso.
    destruct H as (_ & _ & _ & _ & _ & _ & _ & _
                   & n & r & Hn' & _ & _ & _ & _ & _ & Hdue & _).
    assert (Hin : In n (pending (clk w')))
      by (apply (pending_notifications_In w' n); rewrite Hn'; now left).
    specialize (Hlate n Hin); lia.
  - destruct H as (_ & Hmd & [H|[H|H]]).
    + exfalso.
      destruct H as (_ & _ & _ & _ & _ & _ & _ & n & Hn' & _ & _ & Hdue & _).
      assert (Hin : In n (pending (clk w')))
        by (apply (pending_notifications_In w' n); rewrite Hn'; now left).
      specialize (Hlate n Hin); lia.
    + exfalso.
      destruct H as (_ & _ & _ & _ & _ & t0 & Ht0 & _ & Hdue).
      assert (Hin : In t0 (pending (clk w')))
        by (apply (pending_syncs_In w' t0); rewrite Ht0; now left).
      specialize (Hlate t0 Hin); lia.
    + destruct H as (Hsy & _ & _ & Hcm).
      conjuncts.
      * unfold syncs in *; cbn [set_clk log]; rewrite Hsy, R1.
        rewrite <- app_assoc; reflexivity.
      * rewrite Hmd; exact R2.
      * rewrite (Hcm R4), R3; reflexivity.
Qed.

(** An edit in CodeMirror from a state with the flag clear and both
    editors attached. *)
Lemma user_types_typed content head w bound :
  WF w ->
  isUpdating (this w) = false ->
  pending_notifications w = [] ->
  codemirrorEditor (this w) = true ->
  milkdownEditor (this w) = true ->
  now (clk w) + 2 * Z.max 0 (syncDelay (this w)) + listener_delay <= bound ->
  typed bound (user_types content head w) content (user_types content head w).
Proof.
  intros Hwf Hidle Hnone Hc Hm Hb.
  unfold user_types.
  set (wc := set_cm {| cm_doc := content; cm_head := head |} w).
  assert (Hwfc : WF wc) by (eapply WF_frame; [| | |exact Hwf]; reflexivity).
  assert (Hidlec : isUpdating (this wc) = false) by exact Hidle.
  destruct (handleCodeMirrorChange_idle content User wc Hidlec)
    as (Hthis & Hnow' & _ & Hp & Hlog & Hcm' & Hmd').
  set (w2 := handleCodeMirrorChange content User wc) in *.
  unfold typed; conjuncts; try reflexivity.
  - now rewrite Hthis.
  - now rewrite Hthis.
  - now rewrite Hthis.
  - unfold pending_notifications in *; rewrite Hp, filter_app.
    rewrite (cleared_keeps _ wc Hwfc).
    + change (pending (clk wc)) with (pending (clk w)); rewrite Hnone.
      reflexivity.
    + intros u Hu; destruct (t_cb u) as [[]|]; try discriminate; reflexivity.
  - exists (mk (next_id (clk wc))
              (now (clk wc) + Z.max 0 (syncDelay (this wc)))
              (sync_to_milkdown content User)).
    conjuncts.
    + unfold pending_syncs; rewrite Hp, filter_app.
      rewrite (idle_cleared_syncs wc Hwfc Hidlec); reflexivity.
    + reflexivity.
    + cbn [mk t_due]; rewrite Hnow'; lia.
    + cbn [mk t_due]; rewrite Hthis.
      change (syncDelay (this (set_debounceTimer (Some (next_id (clk wc))) wc)))
        with (syncDelay (this w)).
      change (now (clk wc)) with (now (clk w)).
      change (syncDelay (this wc)) with (syncDelay (this w)); lia.
Qed.

End EchoFacts.
(** ** The cursor translation theorems *)
Section CursorClaims.

Lemma calculateApproximatePosition_clamps (content : jsstring) (position : Z) :
  calculateApproximatePosition content position =
  calculateApproximatePosition content
    (Z.max 0 (Z.min position (JS.length content))).
Proof.
  unfold calculateApproximatePosition, substring0.
  assert (H : firstn (Z.to_nat position) content =
              firstn (Z.to_nat (Z.max 0 (Z.min position (JS.length content))))
                content).
  { unfold JS.length.
    destruct (Z.le_gt_cases position (Z.of_nat (List.length content))).
    - f_equal. lia.
    - rewrite !firstn_all2 by lia. reflexivity. }
  rewrite H. reflexivity.
Qed.

(** C10. For every string [content] and every integer [position] with
    [0 <= position <= content.length], [calculateApproximatePosition(content,
    position)] returns exactly [position]: the line and column round trip is
    the identity on in-range offsets. For any position at all the function
    returns a number (no property of [undefined] is read) and that number
    does not exceed [content.length]. *)
Theorem calculateApproximatePosition_identity (content : jsstring)
  (position : Z) :
  (0 <= position <= JS.length content ->
   calculateApproximatePosition content position = Some position)
  /\ (exists r, calculateApproximatePosition content position = Some r
                /\ r <= JS.length content).
Proof.
  split; [apply calculateApproximatePosition_in_range|].
  exists (Z.max 0 (Z.min position (JS.length content))).
  assert (Hlen : 0 <= JS.length content) by (unfold JS.length; lia).
  split; [|lia].
  rewrite calculateApproximatePosition_clamps.
  apply calculateApproximatePosition_in_range. lia.
Qed.

Lemma calculateApproximatePosition_identity_witness :
  0 <= 2 <= JS.length Toy.a_b
  /\ calculateApproximatePosition Toy.a_b 2 = Some 2.
Proof.
  split; [vm_compute; split; discriminate|].
  apply (proj1 (calculateApproximatePosition_identity Toy.a_b 2)).
  vm_compute. split; discriminate.
Defined.

Lemma Math_round_nonneg (x : Q) : (0 <= x)%Q -> 0 <= Math_round x.
Proof.
  intros H. unfold Math_round.
  change 0 with (Qfloor (inject_Z 0)). apply Qfloor_resp_le.
  change (inject_Z 0) with 0%Q.
  apply Qle_trans with x; [exact H|].
  rewrite <- (Qplus_0_r x) at 1. apply Qplus_le_r. discriminate.
Qed.

(** The restored offset, for a fraction that is not negative: the rounded
    product, cut to the new size. *)
Lemma restored_Fin (q : Q) (n : Z) :
  (0 <= q)%Q -> 0 <= n ->
  exists z, restored (Num.Fin q) n = Num.of_int z /\ 0 <= z <= n.
Proof.
  intros H0 Hn.
  assert (Hn' : (0 <= inject_Z n)%Q)
    by (change 0%Q with (inject_Z 0); now rewrite <- Zle_Qle).
  set (r := Math_round (Float.double (q * inject_Z n))).
  assert (Hlo : 0 <= r).
  { apply Math_round_nonneg, double_nonneg. now apply Qmult_le_0_compat. }
  unfold restored, Num.times, Num.round, Num.min_int, Num.of_int. fold r.
  destruct (Qle_bool (inject_Z r) (inject_Z n)) eqn:Hb.
  - exists r. split; [reflexivity|].
    apply Qle_bool_iff in Hb. rewrite <- Zle_Qle in Hb. lia.
  - exists n. split; [reflexivity|lia].
Qed.

(** C5. For every fraction in [0,1] and every new content size [>= 0] the
    restored offset [Math.min(Math.round(relative * newDocSize), newDocSize)]
    is an integer within [0, newDocSize]. A cursor at offset 5 of a document
    of size 10 lands at offset 10 in a document of size 20. *)
Theorem restored_in_range (q : Q) (newDocSize : Z) :
  (0 <= q)%Q -> (q <= 1)%Q -> 0 <= newDocSize ->
  (exists z, restored (Num.Fin q) newDocSize = Num.of_int z
             /\ 0 <= z <= newDocSize)
  /\ restored (relative 5 10) 20 = Num.of_int 10.
Proof.
  intros H0 _ Hn. split; [|reflexivity].
  now apply restored_Fin.
Qed.

Lemma restored_in_range_witness :
  (0 <= 1 # 2)%Q /\ (1 # 2 <= 1)%Q /\ 0 <= 20
  /\ exists z, restored (Num.Fin (1 # 2)) 20 = Num.of_int z /\ 0 <= z <= 20.
Proof.
  assert (H0 : (0 <= 1 # 2)%Q) by discriminate.
  assert (H1 : (1 # 2 <= 1)%Q) by discriminate.
  assert (Hn : 0 <= 20) by discriminate.
  repeat split; try assumption.
  destruct (proj1 (restored_in_range (1 # 2) 20 H0 H1 Hn)) as (z & Hz & Hr).
  exists z. split; assumption.
Defined.

(** C6. A document of size 0 gives the fraction 0 for any selection endpoint:
    the division [pos / docSize] is evaluated under the guard [docSize > 0]
    only, so the saved fraction is always a finite number, where the
    unguarded division by 0 is [NaN] or an infinity. *)
Theorem relative_guarded (pos docSize : Z) :
  relative pos 0 = Num.of_int 0
  /\ Num.is_finite (relative pos docSize) = true
  /\ (docSize > 0 -> relative pos docSize = Num.divide pos docSize)
  /\ (docSize <= 0 -> relative pos docSize = Num.of_int 0)
  /\ Num.is_finite (Num.divide pos 0) = false.
Proof.
  unfold relative, Num.divide.
  repeat split.
  - destruct (Z.gtb_spec docSize 0) as [H|H]; [|reflexivity].
    destruct (Z.eqb_spec docSize 0); [lia|reflexivity].
  - intros H. destruct (Z.gtb_spec docSize 0); [reflexivity|lia].
  - intros H. destruct (Z.gtb_spec docSize 0); [lia|reflexivity].
  - simpl. destruct (pos =? 0); [reflexivity|].
    destruct (0 <? pos); reflexivity.
Qed.

Lemma relative_guarded_witness :
  10 > 0 /\ relative 5 10 = Num.divide 5 10.
Proof.
  split; [reflexivity|].
  apply (proj1 (proj2 (proj2 (relative_guarded 5 10)))). reflexivity.
Defined.

End CursorClaims.

(** ** The synchronisation theorems *)
Section SyncClaims.

Import SyncManager SyncManagerSpec Timers Eff.

Context {E : Engine}.

Lemma WF_reachable inputs content0 doc0 :
  WF (run inputs (initial content0 doc0)).
Proof. apply WF_run, WF_initial. Qed.

(** C2, as the code has it. From a state with the flag clear and no handler
    of the Milkdown listener waiting, [N >= 1] calls of
    [handleCodeMirrorChange], each less than the debounce window after the
    one before, leave exactly one debounced callback pending, the one of the
    last call, due one window after it: the earlier ones are cancelled.
    Nothing is dispatched and the Milkdown document stays as it was during
    the burst and until the window has passed; once it has passed, and
    however long one waits then, exactly one sync into Milkdown has run,
    with the text of the last call, and with both editors attached the
    Milkdown document is that text parsed. *)
Theorem debounce_coalescing (inputs : list input) (content0 : jsstring)
  (doc0 : Doc) (first : jsstring * Z) (rest : list (Z * jsstring * Z)) :
  isUpdating (this (run inputs (initial content0 doc0))) = false ->
  pending_notifications (run inputs (initial content0 doc0)) = [] ->
  rapid (syncDelay (this (run inputs (initial content0 doc0)))) rest ->
  let w := run inputs (initial content0 doc0) in
  let delay := syncDelay (this w) in
  let content := last_content first rest in
  let w' := burst first rest w in
  (exists id,
      pending_syncs w' =
        [mk id (now (clk w') + Z.max 0 delay) (sync_to_milkdown content User)])
  /\ (log w' = log w /\ md_doc (md w') = md_doc (md w))
  /\ (forall dt, 0 <= dt < delay ->
                 log (advance dt w') = log w
                 /\ md_doc (md (advance dt w')) = md_doc (md w))
  /\ (forall dt, delay <= dt ->
                 tree_syncs (advance dt w')
                 = tree_syncs w ++ [Sync codemirror content User]
                 /\ (codemirrorEditor (this w) = true ->
                     milkdownEditor (this w) = true ->
                     forall d, parser content = Parsed d ->
                               md_doc (md (advance dt w')) = d)).
Proof.
  intros Hidle Hnone Hrapid w delay content w'.
  pose proof (burst_armed first rest w (WF_reachable _ _ _) Hidle Hnone Hrapid)
    as Ha.
  fold delay content w' in Ha.
  pose proof Ha as (_ & _ & (_ & _ & _ & Hlog & Hdoc & _) & _ & Hp).
  split; [exact Hp|]. split; [split; assumption|]. split.
  - intros dt Hdt.
    destruct (armed_waits w content dt w' Ha Hdt) as (_ & _ & _ & H1 & H2 & _).
    split; assumption.
  - intros dt Hdt. apply (armed_fires w content dt w' Ha Hdt).
Qed.

(** C3, as the code has it. In the single-file application the flag is clear
    as soon as [syncToMilkdown] or [syncToCodeMirror] has run, whether the
    attempt succeeded or threw. In the SyncManager the [finally] block of
    the debounced callback does not clear the flag, it schedules the release:
    after every attempt, successful or not, the flag is set, one release
    timer is pending 100 ms later, the flag stays set until then and is
    clear when the 100 ms have passed. No input wedges the flag. *)
Theorem flag_released_by_cleanup :
  (forall (w : App.world) content,
      App.milkdownEditor w <> None ->
      fst (App.syncToMilkdown content w) = Ok tt
      /\ App.isUpdating (App.mgr (snd (App.syncToMilkdown content w))) = false)
  /\ (forall (w : App.world),
         App.codemirrorView w <> None ->
         fst (App.syncToCodeMirror w) = Ok tt
         /\ App.isUpdating (App.mgr (snd (App.syncToCodeMirror w))) = false)
  /\ (forall inputs content0 doc0 t,
         In t (pending (clk (run inputs (initial content0 doc0)))) ->
         is_sync_task (t_cb t) = true ->
         let w' := snd (fire t (run inputs (initial content0 doc0))) in
         fst (fire t (run inputs (initial content0 doc0))) = Ok tt
         /\ isUpdating (this w') = true
         /\ (exists r, pending_releases w' = [r]
                       /\ t_due r = now (clk w') + 100)
         /\ (forall dt, 0 <= dt < 100 ->
                        isUpdating (this (advance dt w')) = true)
         /\ isUpdating (this (advance 100 w')) = false).
Proof.
  conjuncts.
  - intros w content H. split;
      [apply syncToMilkdown_returns|now apply syncToMilkdown_released].
  - intros w H. split;
      [apply syncToCodeMirror_returns|now apply syncToCodeMirror_released].
  - intros inputs content0 doc0 t Hin Hs w'.
    set (w := run inputs (initial content0 doc0)) in *.
    assert (Hwf : WF w) by apply WF_reachable.
    assert (Hwf' : WF w') by now apply WF_fire.
    assert (He : exists src content o,
               entered src content o (set_clk (fired t (clk w)) w) w'
               /\ exists cb, t_cb t = closure cb).
    { destruct (t_cb t) as [[content o|content o| |]|d o] eqn:Ecb;
        try discriminate.
      - exists codemirror, content, o.
        split; [now apply fire_sync_to_milkdown|eauto].
      - exists milkdown, content, o.
        split; [now apply fire_sync_to_codemirror|eauto]. }
    destruct He as (src & content & o & He & cb & Hcb).
    destruct (entered_release _ _ _ _ _ He) as (Hbusy & r & Hr & Hrcb & Hrdue).
    destruct (wf_busy w' Hwf' Hbusy) as [Hnone [r' Hrel]].
    assert (r' = r).
    { assert (H : In r (pending_releases w')) by now apply pending_releases_In.
      rewrite Hrel in H. destruct H as [H|[]]. exact H. }
    subst r'.
    conjuncts.
    + unfold fire. rewrite Hcb. apply run_callback_returns.
    + exact Hbusy.
    + exists r. split; assumption.
    + intros dt Hdt. apply holding_advance.
      unfold holding; conjuncts; [exact Hwf'|exact Hbusy|].
      intros r'. rewrite Hrel. intros [<-|[]]. lia.
    + apply releasing_advance.
      split; [exact Hwf'|]. left. split; [exact Hbusy|].
      destruct He as (_ & Hnow & _ & l & _ & _ & Hpend & _).
      eexists _, _. rewrite Hpend, app_assoc.
      split; [reflexivity|]. split; [reflexivity|].
      cbn [mk t_due]. rewrite Hnow. reflexivity.
Qed.

(** C4. No callback of a debounce timer lets an exception escape to the
    timer that runs it, in either implementation. When the parser throws on
    the text of a linear-to-tree sync, the document and the selection of the
    Milkdown view are what they were before the attempt, and nothing was
    dispatched to the view. *)
Theorem parse_failure_contained :
  (forall cb (w : SyncManager.world), fst (run_callback cb w) = Ok tt)
  /\ (forall cb (w : App.world), fst (App.run_callback cb w) = Ok tt)
  /\ (forall content o (w : SyncManager.world),
         parser content = ParseError ->
         let w' := snd (run_callback (sync_to_milkdown content o) w) in
         md_doc (md w') = md_doc (md w)
         /\ md_selection (md w') = md_selection (md w)
         /\ (log w' = log w \/ log w' = log w ++ [Sync codemirror content o]))
  /\ (forall content (w : App.world),
         parser content = ParseError ->
         let w' := snd (App.run_callback (App.to_milkdown content) w) in
         App.milkdownEditor w' = App.milkdownEditor w
         /\ App.log w' = App.log w).
Proof.
  conjuncts.
  - apply run_callback_returns.
  - intros [content|] w; [apply syncToMilkdown_returns
                         |apply syncToCodeMirror_returns].
  - intros content o w Hp w'.
    destruct (run_sync_to_milkdown_ParseError content o w Hp)
      as (H1 & H2 & _ & H3).
    conjuncts; assumption.
  - intros content w Hp. now apply syncToMilkdown_ParseError.
Qed.

(** C7, as the code has it. In the tree-to-linear sync of the SyncManager
    the notified text is compared to the current text of the CodeMirror
    wrapper; when the two are identical nothing is dispatched to CodeMirror:
    its text and cursor are untouched, and the only trace of the attempt is
    that it ran. The [finally] block still schedules the release of the
    flag, 100 ms later, and that release clears it. [syncToCodeMirror] of the
    single-file application compares nothing and always dispatches the
    replace of the whole buffer. *)
Theorem identical_text_skips_replace :
  (forall (content : jsstring) (o : origin) (w : SyncManager.world),
      lastSource (this w) <> Some codemirror ->
      codemirrorEditor (this w) = true ->
      cm_doc (cm w) = content ->
      let w' := snd (run_callback (sync_to_codemirror content o) w) in
      cm w' = cm w
      /\ md w' = md w
      /\ log w' = log w ++ [Sync milkdown content o]
      /\ status w' = ready
      /\ isUpdating (this w') = true
      /\ pending (clk w') =
           pending (clk w)
           ++ [mk (next_id (clk w)) (now (clk w) + 100) release]
      /\ isUpdating (this (snd (run_callback release w'))) = false)
  /\ (forall (w : App.world) v view markdown,
         App.codemirrorView w = Some v ->
         App.milkdownEditor w = Some view ->
         serializer (App.md_doc view) = Some markdown ->
         exists events,
           App.log (snd (App.syncToCodeMirror w)) =
             App.log w ++ App.CmChanges markdown :: events).
Proof.
  split.
  - intros content o w Hl Hed Hcm w'. subst w'. cbn [run_callback].
    rewrite (run_sync_to_codemirror_same content o w Hl Hed Hcm).
    conjuncts; reflexivity.
  - apply syncToCodeMirror_replaces.
Qed.

(** C8, as the code has it. The debounce delay is a field that each handler
    reads when it schedules, so it can be tuned: the callback is due
    [max(0, delay)] ms after the call. Its default is 300 ms in the
    single-file application ([debounceDelay]) and 500 ms in the SyncManager
    ([syncDelay]). *)
Theorem debounce_delay_tunable :
  syncDelay constructor = 500
  /\ App.debounceDelay App.syncManager = 300
  /\ (forall (w : SyncManager.world) delay content o,
         isUpdating (this w) = false ->
         (exists l,
             pending (clk (handleCodeMirrorChange content o
                             (set_syncDelay delay w))) =
               l ++ [mk (next_id (clk w)) (now (clk w) + Z.max 0 delay)
                       (sync_to_milkdown content o)])
         /\ (exists l,
                pending (clk (handleMilkdownChange content o
                                (set_syncDelay delay w))) =
                  l ++ [mk (next_id (clk w)) (now (clk w) + Z.max 0 delay)
                          (sync_to_codemirror content o)]))
  /\ (forall (w : App.world) delay content,
         exists l,
           pending (App.clk (App.handleCodeMirrorChange content
                               (App.set_debounceDelay delay w))) =
             l ++ [{| t_id := next_id (App.clk w);
                      t_due := now (App.clk w) + Z.max 0 delay;
                      t_cb := App.to_milkdown content |}]).
Proof.
  conjuncts; try reflexivity.
  - intros w delay content o Hidle. split.
    + destruct (handleCodeMirrorChange_idle content o (set_syncDelay delay w)
                  Hidle) as (_ & _ & _ & Hp & _).
      eexists. exact Hp.
    + destruct (handleMilkdownChange_idle content o (set_syncDelay delay w)
                  Hidle) as (_ & _ & _ & Hp & _).
      eexists. exact Hp.
  - intros w delay content.
    apply (handleCodeMirrorChange_due content (App.set_debounceDelay delay w)).
Qed.

(** C9, as the code has it. [destroy] cancels the pending debounced callback
    and drops the two editors; it leaves the suppression flag as it is. After
    [destroy], in particular when a debounced callback was pending, no sync
    runs however long one waits, as long as no further change notification
    arrives, that is, when no handler of the Milkdown listener is still
    waiting and no edit follows: no debounced callback is pending, nothing
    is dispatched and both surfaces keep their content. *)
Theorem destroy_cancels_pending_sync (inputs : list input)
  (content0 : jsstring) (doc0 : Doc) :
  let w := run inputs (initial content0 doc0) in
  pending_syncs (destroy w) = []
  /\ isUpdating (this (destroy w)) = isUpdating (this w)
  /\ codemirrorEditor (this (destroy w)) = false
  /\ milkdownEditor (this (destroy w)) = false
  /\ (pending_notifications w = [] ->
      forall dt,
        pending_syncs (advance dt (destroy w)) = []
        /\ syncs (advance dt (destroy w)) = syncs w
        /\ log (advance dt (destroy w)) = log w
        /\ cm (advance dt (destroy w)) = cm w
        /\ md_doc (md (advance dt (destroy w))) = md_doc (md w)).
Proof.
  intros w. assert (Hwf : WF w) by apply WF_reachable.
  conjuncts; try reflexivity.
  - now apply destroy_cancels.
  - intros Hquiet dt.
    assert (Hc : calm w (destroy w)).
    { unfold calm; conjuncts; try reflexivity;
        [now apply WF_destroy|now apply destroy_cancels|].
      unfold pending_notifications, destroy in *.
      cbn [set_editors set_this set_clk clk].
      destruct (debounceTimer (this w)); cbn [clearTimeout pending];
        [|exact Hquiet].
      now rewrite drop_filter, Hquiet. }
    apply (calm_advance w dt) in Hc.
    destruct Hc as (_ & Hnone & _ & Hlog & Hcm & Hdoc & _).
    conjuncts; try assumption. unfold syncs. now rewrite Hlog.
Qed.

End SyncClaims.

(** ** The theorems at work, and what the code does differently *)
Section Examples.

Import SyncManager SyncManagerSpec SyncManagerTiming Timers Eff Toy.

(** C1. While the flag is set both handlers return at once. But the flag
    is no longer set when the notification of a programmatic replace
    arrives: the listener plugin of Milkdown announces the replace 200 ms
    after it, and both flags are released 100 ms after it. So an edit in
    CodeMirror whose text parses to a new document, made while the flag is
    clear, no handler of the plugin is waiting and both editors are
    attached, is synchronised into Milkdown, and the replace is synchronised
    back: when the debounce delay, the 200 ms and the debounce delay once
    more have passed, two syncs have run. On the page, with one edit and no
    further input: the sync into Milkdown runs at 500 ms; at 600 ms both
    flags are clear and the handler of the plugin is still waiting; at
    700 ms it calls the listener, and [handleMilkdownChange] schedules a
    callback; at 1200 ms a sync into CodeMirror runs that goes back to the
    programmatic replace. *)
Theorem programmatic_replace_is_synced_back :
  (forall (E : Engine) (w : SyncManager.world) content o,
      isUpdating (this w) = true ->
      handleCodeMirrorChange content o w = w
      /\ handleMilkdownChange content o w = w)
  /\ (forall (E : Engine) inputs content0 doc0 content head d markdown dt,
         let w := run inputs (initial content0 doc0) in
         isUpdating (this w) = false ->
         pending_notifications w = [] ->
         codemirrorEditor (this w) = true ->
         milkdownEditor (this w) = true ->
         parser content = Parsed d ->
         serializer d = Some markdown ->
         sameDoc (prevDoc (md w)) d = false ->
         differs markdown (prevMarkdown (md w)) = true ->
         2 * Z.max 0 (syncDelay (this w)) + listener_delay <= dt ->
         syncs (advance dt (user_types content head w))
         = syncs w ++ [Sync codemirror content User;
                       Sync milkdown markdown Programmatic])
  /\ syncs (run [UserTypes abc 3; Wait 500] page)
     = [Sync codemirror abc User]
  /\ isUpdating (this (run [UserTypes abc 3; Wait 600] page)) = false
  /\ isInternalUpdate (md (run [UserTypes abc 3; Wait 600] page)) = false
  /\ pending (clk (run [UserTypes abc 3; Wait 600] page))
     = [mk 2 700 (notification abc Programmatic)]
  /\ pending (clk (run [UserTypes abc 3; Wait 700] page))
     = [mk 5 1200 (sync_to_codemirror abc Programmatic)]
  /\ syncs (run [UserTypes abc 3; Wait 1200] page)
     = [Sync codemirror abc User; Sync milkdown abc Programmatic].
Proof.
  split; [|split].
  - intros E w content o H. split;
      [now apply handleCodeMirrorChange_suppressed
      |now apply handleMilkdownChange_suppressed].
  - intros E inputs content0 doc0 content head d markdown dt w
      Hidle Hnone Hc Hm Hp Hs Hch Hn Hdt.
    assert (Hwf : WF w) by apply WF_run, WF_initial.
    set (w1 := user_types content head w).
    assert (Hwf1 : WF w1).
    { apply WF_handleCodeMirrorChange.
      eapply WF_frame; [| | |exact Hwf]; reflexivity. }
    assert (Hnow : now (clk w1) = now (clk w)).
    { unfold w1, user_types.
      destruct (handleCodeMirrorChange_idle content User
                  (set_cm {| cm_doc := content; cm_head := head |} w) Hidle)
        as (_ & H & _); exact H. }
    assert (Hty : typed (now (clk w1) + Z.max 0 dt) w1 content w1).
    { apply user_types_typed; auto; rewrite Hnow; lia. }
    assert (Hmd : md w1 = md w).
    { unfold w1, user_types.
      destruct (handleCodeMirrorChange_idle content User
                  (set_cm {| cm_doc := content; cm_head := head |} w) Hidle)
        as (_ & _ & _ & _ & _ & _ & H); exact H. }
    assert (Hlog : syncs w1 = syncs w).
    { unfold w1, user_types, syncs.
      destruct (handleCodeMirrorChange_idle content User
                  (set_cm {| cm_doc := content; cm_head := head |} w) Hidle)
        as (_ & _ & _ & _ & H & _); now rewrite H. }
    rewrite <- Hmd in Hch, Hn.
    destruct (echoed_advance dt w1 content d markdown Hp Hs Hch Hn Hwf1 Hty)
      as (H & _).
    rewrite H, Hlog; reflexivity.
  - vm_compute. repeat split.
Qed.

(** Two calls 10 ms apart under a window of 300 ms: one sync, with the text
    of the second call. *)
Lemma debounce_coalescing_witness :
  isUpdating (this (run [Tune 300] page)) = false
  /\ pending_notifications (run [Tune 300] page) = []
  /\ rapid (syncDelay (this (run [Tune 300] page))) [(10, a_b, 3)]
  /\ tree_syncs (advance 300
                   (burst (abc, 3) [(10, a_b, 3)] (run [Tune 300] page)))
     = [Sync codemirror a_b User].
Proof.
  assert (H1 : isUpdating (this (run [Tune 300] page)) = false)
    by reflexivity.
  assert (H2 : pending_notifications (run [Tune 300] page) = [])
    by reflexivity.
  assert (H3 : rapid (syncDelay (this (run [Tune 300] page)))
                 [(10, a_b, 3)]).
  { repeat constructor; simpl; lia. }
  split; [exact H1|]. split; [exact H2|]. split; [exact H3|].
  pose proof (debounce_coalescing (E := engine) [Tune 300] ab ab (abc, 3)
                [(10, a_b, 3)] H1 H2 H3) as H.
  cbv zeta in H. destruct H as (_ & _ & _ & H).
  apply (H 300). simpl. lia.
Defined.

(** C2, the claim as stated. A call that arrives while the flag is set
    schedules nothing: no sync into Milkdown ever runs for it, and the
    notification of the replace that set the flag puts the old text back
    into CodeMirror. And a call that arrives while a handler of the Milkdown
    listener is waiting loses its timer to that handler: no sync into
    Milkdown runs, and CodeMirror gets the text of Milkdown. *)
Lemma calls_can_be_dropped :
  isUpdating (this synced) = true
  /\ pending_syncs (burst (a_b, 3) [] synced) = []
  /\ tree_syncs (advance 5000 (burst (a_b, 3) [] synced))
     = [Sync codemirror abc User]
  /\ cm_doc (cm (advance 5000 (burst (a_b, 3) [] synced))) = abc
  /\ tree_syncs (run [UserEdits abc (0, 0); UserTypes a_b 3; Wait 5000] page)
     = []
  /\ cm_doc (cm (run [UserEdits abc (0, 0); UserTypes a_b 3; Wait 5000]
                   page)) = abc.
Proof. vm_compute. repeat split. Qed.

(** The attempt on a text that does not parse: the flag is clear 100 ms
    later. *)
Lemma flag_released_by_cleanup_witness :
  In (mk 1 500 (sync_to_milkdown bad User))
     (pending (clk (run [UserTypes bad 2] page)))
  /\ is_sync_task (sync_to_milkdown bad User) = true
  /\ isUpdating
       (this (advance 100
                (snd (fire (mk 1 500 (sync_to_milkdown bad User))
                        (run [UserTypes bad 2] page)))))
     = false.
Proof.
  assert (H1 : In (mk 1 500 (sync_to_milkdown bad User))
                 (pending (clk (run [UserTypes bad 2] page))))
    by (left; reflexivity).
  split; [exact H1|]. split; [reflexivity|].
  pose proof (proj2 (proj2 (flag_released_by_cleanup (E := engine)))
                [UserTypes bad 2] ab ab _ H1 eq_refl) as H.
  cbv zeta in H. destruct H as (_ & _ & _ & _ & H).
  exact H.
Defined.

Lemma parse_failure_contained_witness :
  parser bad = ParseError
  /\ md_doc (md (snd (run_callback (sync_to_milkdown bad User) page)))
     = ab.
Proof.
  split; [reflexivity|].
  apply (proj1 (proj2 (proj2 (parse_failure_contained (E := engine))))
           bad User page).
  reflexivity.
Defined.

Lemma identical_text_skips_replace_witness :
  lastSource (this page) <> Some codemirror
  /\ codemirrorEditor (this page) = true
  /\ cm_doc (cm page) = ab
  /\ cm (snd (run_callback (sync_to_codemirror ab User) page))
     = cm page.
Proof.
  assert (H1 : lastSource (this page) <> Some codemirror)
    by discriminate.
  split; [exact H1|]. split; [reflexivity|]. split; [reflexivity|].
  apply (proj1 (identical_text_skips_replace (E := engine)) ab User page H1
           eq_refl eq_refl).
Defined.

Lemma debounce_delay_tunable_witness :
  isUpdating (this page) = false
  /\ exists l,
       pending (clk (handleCodeMirrorChange abc User
                       (set_syncDelay 300 page))) =
         l ++ [mk 1 300 (sync_to_milkdown abc User)].
Proof.
  split; [reflexivity|].
  apply (proj1 (proj2 (proj2 (debounce_delay_tunable (E := engine))))
           page 300 abc User eq_refl).
Defined.

(** The cursor at offset 5 of 10 lands at offset 10 of 20 when
    [syncToCodeMirror] has replaced the text. *)
Example syncToCodeMirror_keeps_fraction :
  App.codemirrorView (snd (App.syncToCodeMirror app_half))
  = Some {| App.cm_doc := repeat 97 20; App.cm_head := 10 |}.
Proof. reflexivity. Qed.

(** C3, the claim as stated. Right after a sync attempt of the SyncManager
    has completed, with success or with a parse failure, the suppression flag
    is still set. *)
Lemma flag_still_set_after_attempt :
  syncs synced = [Sync codemirror abc User]
  /\ status synced = ready
  /\ md_doc (md synced) = abc
  /\ isUpdating (this synced) <> false
  /\ syncs failed = [Sync codemirror bad User]
  /\ status failed = error
  /\ isUpdating (this failed) <> false.
Proof. vm_compute. repeat split; discriminate. Qed.

(** C7, the claim as stated. The tree-to-linear sync of the single-file
    application compares nothing: with identical text it still dispatches the
    replace of the whole buffer and the cursor. And in the SyncManager the
    flag is still set when the attempt that skipped the replace is over. *)
Lemma replace_not_skipped_everywhere :
  App.log (snd (App.syncToCodeMirror app_page))
  = [App.CmChanges ab; App.CmSelection 0]
  /\ isUpdating
       (this (snd (run_callback (sync_to_codemirror ab User) page)))
     <> false.
Proof. vm_compute. split; [reflexivity|discriminate]. Qed.

(** C8, the claim as stated. A new SyncManager waits 500 ms, not 300: 300 ms
    after an edit no sync has run, after 500 ms it has. *)
Lemma default_delay_is_not_300 :
  syncDelay (this page) <> 300
  /\ syncs (run [UserTypes abc 3; Wait 300] page) = []
  /\ syncs (run [UserTypes abc 3; Wait 500] page)
     = [Sync codemirror abc User].
Proof. vm_compute. repeat split; discriminate. Qed.

(** C9, the claim as stated. [destroy] does not clear a set flag; and a
    change that is notified after [destroy] still gets its debounced
    callback, which enters the critical section and fails on the missing
    editor: an edit after [destroy], and also the replace of a sync that ran
    before [destroy], which the listener plugin of Milkdown announces after
    it. *)
Lemma destroy_keeps_flag :
  isUpdating (this synced) = true
  /\ isUpdating (this (destroy synced)) <> false
  /\ syncs (run [Dispose; UserTypes abc 3; Wait 500] page)
     = [Sync codemirror abc User]
  /\ status (run [Dispose; UserTypes abc 3; Wait 500] page) = error
  /\ syncs (run [UserTypes abc 3; Wait 500; Dispose] page)
     = [Sync codemirror abc User]
  /\ syncs (run [UserTypes abc 3; Wait 500; Dispose; Wait 5000] page)
     = [Sync codemirror abc User; Sync milkdown abc Programmatic]
  /\ status (run [UserTypes abc 3; Wait 500; Dispose; Wait 5000] page)
     = error.
Proof. vm_compute. repeat split; discriminate. Qed.

(** [destroy] while the callback of an edit is pending: nothing runs
    afterwards. *)
Lemma destroy_cancels_pending_sync_witness :
  pending_notifications (run [UserTypes abc 3; Wait 100] page) = []
  /\ pending_syncs (run [UserTypes abc 3; Wait 100] page) <> []
  /\ syncs (advance 5000 (destroy (run [UserTypes abc 3; Wait 100] page)))
     = [].
Proof.
  assert (H : pending_notifications (run [UserTypes abc 3; Wait 100] page)
              = []) by reflexivity.
  split; [exact H|]. split; [discriminate|].
  pose proof (destroy_cancels_pending_sync (E := engine)
                [UserTypes abc 3; Wait 100] ab ab) as Hd.
  cbv zeta in Hd. destruct Hd as (_ & _ & _ & _ & Hd).
  apply (Hd H 5000).
Defined.

End Examples.


(** *** The common prefix and suffix of two texts *)

Section CommonAffixes.

Lemma getCommonPrefixLength_range (a b : jsstring) :
  0 <= getCommonPrefixLength a b <= Z.min (JS.length a) (JS.length b).
Proof.
  unfold JS.length; revert b.
  induction a as [|x a IH]; intros [|y b];
    cbn [getCommonPrefixLength List.length]; try lia.
  destruct (x =? y); [specialize (IH b)|]; lia.
Qed.

Lemma getCommonPrefixLength_agree (a b : jsstring) (n : nat) :
  Z.of_nat n < getCommonPrefixLength a b ->
  nth_error a n = nth_error b n.
Proof.
  revert b n; induction a as [|x a IH]; intros [|y b] n;
    cbn [getCommonPrefixLength]; try lia.
  destruct (x =? y) eqn:Hxy; [|lia].
  apply Z.eqb_eq in Hxy; subst y.
  destruct n as [|n]; [reflexivity|].
  intros Hn; cbn [nth_error]; apply IH; lia.
Qed.

Lemma getCommonPrefixLength_stops (a b : jsstring) :
  getCommonPrefixLength a b < Z.min (JS.length a) (JS.length b) ->
  nth_error a (Z.to_nat (getCommonPrefixLength a b)) <>
  nth_error b (Z.to_nat (getCommonPrefixLength a b)).
Proof.
  unfold JS.length; revert b.
  induction a as [|x a IH]; intros [|y b];
    cbn [getCommonPrefixLength List.length]; try lia.
  destruct (x =? y) eqn:Hxy.
  - intros Hlt.
    pose proof (getCommonPrefixLength_range a b) as [Hge _].
    replace (Z.to_nat (1 + getCommonPrefixLength a b))
      with (S (Z.to_nat (getCommonPrefixLength a b))) by lia.
    cbn [nth_error]; apply IH; lia.
  - intros _; cbn; intros [= ->]; rewrite Z.eqb_refl in Hxy; discriminate.
Qed.

Lemma getCommonPrefixLength_app (a s : jsstring) :
  getCommonPrefixLength a (a ++ s) = JS.length a.
Proof.
  unfold JS.length; induction a as [|x a IH].
  - reflexivity.
  - cbn [getCommonPrefixLength app List.length].
    rewrite Z.eqb_refl, IH; lia.
Qed.

Lemma getCommonPrefixLength_sym (a b : jsstring) :
  getCommonPrefixLength a b = getCommonPrefixLength b a.
Proof.
  revert b; induction a as [|x a IH]; intros [|y b];
    cbn [getCommonPrefixLength]; try reflexivity.
  rewrite (Z.eqb_sym y x); destruct (x =? y); [rewrite IH|]; reflexivity.
Qed.

Lemma nth_error_rev_index (l : jsstring) (n : nat) :
  (n < List.length l)%nat ->
  nth_error (rev l) n = nth_error l (List.length l - 1 - n).
Proof.
  intros Hn.
  rewrite (nth_error_nth' (rev l) 0) by (rewrite length_rev; exact Hn).
  rewrite (nth_error_nth' l 0) by lia.
  rewrite rev_nth by exact Hn.
  do 2 f_equal; lia.
Qed.

Lemma getCommonSuffixLength_range (a b : jsstring) :
  0 <= getCommonSuffixLength a b <= Z.min (JS.length a) (JS.length b).
Proof.
  unfold getCommonSuffixLength.
  pose proof (getCommonPrefixLength_range (rev a) (rev b)) as H.
  unfold JS.length in *; rewrite !length_rev in H; exact H.
Qed.

Lemma index_nat {A} (l : list A) (i : Z) :
  0 <= i -> index l i = nth_error l (Z.to_nat i).
Proof.
  intros Hi; unfold index.
  destruct (i <? 0) eqn:H; [apply Z.ltb_lt in H; lia|reflexivity].
Qed.

(** X1. The loop of [getCommonPrefixLength] stops at the first index where the
    two strings differ or one of them ends: the code units before the result
    agree, and the result is the shorter length or an index of
    disagreement. *)
Theorem common_prefix_is_longest (str1 str2 : jsstring) :
  0 <= getCommonPrefixLength str1 str2
    <= Z.min (JS.length str1) (JS.length str2) /\
  (forall i, 0 <= i < getCommonPrefixLength str1 str2 ->
     index str1 i = index str2 i) /\
  (getCommonPrefixLength str1 str2 < Z.min (JS.length str1) (JS.length str2) ->
   index str1 (getCommonPrefixLength str1 str2) <>
   index str2 (getCommonPrefixLength str1 str2)).
Proof.
  pose proof (getCommonPrefixLength_range str1 str2) as Hr.
  split; [exact Hr|split].
  - intros i Hi; rewrite !index_nat by lia.
    apply getCommonPrefixLength_agree; lia.
  - intros Hlt; rewrite !index_nat by lia.
    apply getCommonPrefixLength_stops, Hlt.
Qed.

(** X2. [getCommonSuffixLength] is the same loop run from the last code unit
    backwards: the last code units agree up to the result, and the result is
    the shorter length or a distance from the end where the strings
    differ. *)
Theorem common_suffix_is_longest (str1 str2 : jsstring) :
  0 <= getCommonSuffixLength str1 str2
    <= Z.min (JS.length str1) (JS.length str2) /\
  (forall i, 0 <= i < getCommonSuffixLength str1 str2 ->
     index str1 (JS.length str1 - 1 - i) =
     index str2 (JS.length str2 - 1 - i)) /\
  (getCommonSuffixLength str1 str2
     < Z.min (JS.length str1) (JS.length str2) ->
   index str1 (JS.length str1 - 1 - getCommonSuffixLength str1 str2) <>
   index str2 (JS.length str2 - 1 - getCommonSuffixLength str1 str2)).
Proof.
  pose proof (getCommonSuffixLength_range str1 str2) as Hr.
  split; [exact Hr|].
  unfold getCommonSuffixLength, JS.length in *.
  set (n := getCommonPrefixLength (rev str1) (rev str2)) in *.
  split.
  - intros i Hi; rewrite !index_nat by lia.
    pose proof (getCommonPrefixLength_agree (rev str1) (rev str2)
                  (Z.to_nat i)) as H.
    rewrite !nth_error_rev_index in H by lia.
    replace (Z.to_nat (Z.of_nat (List.length str1) - 1 - i))
      with (List.length str1 - 1 - Z.to_nat i)%nat by lia.
    replace (Z.to_nat (Z.of_nat (List.length str2) - 1 - i))
      with (List.length str2 - 1 - Z.to_nat i)%nat by lia.
    apply H; fold n; lia.
  - intros Hlt; rewrite !index_nat by lia.
    pose proof (getCommonPrefixLength_stops (rev str1) (rev str2)) as H.
    unfold JS.length in H; rewrite !length_rev in H; fold n in H.
    rewrite !nth_error_rev_index in H by lia.
    replace (Z.to_nat (Z.of_nat (List.length str1) - 1 - n))
      with (List.length str1 - 1 - Z.to_nat n)%nat by lia.
    replace (Z.to_nat (Z.of_nat (List.length str2) - 1 - n))
      with (List.length str2 - 1 - Z.to_nat n)%nat by lia.
    apply H, Hlt.
Qed.

End CommonAffixes.

(** *** Where [adjustCursorPosition] puts the cursor *)

Section AdjustCursor.

Lemma getCommonPrefixLength_app_app (a b b' : jsstring) :
  getCommonPrefixLength (a ++ b) (a ++ b') =
  JS.length a + getCommonPrefixLength b b'.
Proof.
  unfold JS.length; induction a as [|x a IH].
  - reflexivity.
  - cbn [getCommonPrefixLength app List.length].
    rewrite Z.eqb_refl, IH; lia.
Qed.

Lemma getCommonPrefixLength_hd (a b : jsstring) :
  hd_error a <> hd_error b -> getCommonPrefixLength a b = 0.
Proof.
  destruct a as [|x a], b as [|y b]; cbn; try reflexivity.
  intros H; destruct (x =? y) eqn:Hxy; [|reflexivity].
  apply Z.eqb_eq in Hxy; subst y; now destruct H.
Qed.

Lemma eqb_false (a b : jsstring) : a <> b -> JS.eqb a b = false.
Proof.
  intros H; destruct (JS.eqb a b) eqn:Heq; [|reflexivity].
  apply eqb_eq in Heq; contradiction.
Qed.

Lemma length_app (a b : jsstring) :
  JS.length (a ++ b) = JS.length a + JS.length b.
Proof. unfold JS.length; rewrite List.length_app; lia. Qed.

Lemma length_nonneg (a : jsstring) : 0 <= JS.length a.
Proof. unfold JS.length; lia. Qed.

Lemma adjustCursorPosition_range (oldContent newContent : jsstring)
  (oldPosition : Z) :
  0 <= oldPosition <= JS.length oldContent ->
  0 <= adjustCursorPosition oldContent newContent oldPosition
    <= JS.length newContent.
Proof.
  intros Hpos; unfold adjustCursorPosition.
  destruct (JS.eqb oldContent newContent) eqn:Heq.
  { apply eqb_eq in Heq; subst; exact Hpos. }
  pose proof (getCommonPrefixLength_range oldContent newContent) as Hcp.
  destruct (oldPosition <=? _) eqn:Hle.
  { apply Z.leb_le in Hle; lia. }
  cbv zeta.
  pose proof (length_nonneg newContent).
  destruct (oldPosition >=? _); lia.
Qed.

(** X3. [adjustCursorPosition] never leaves the new text: a cursor inside the old
    text is mapped to an offset between 0 and the length of the new text,
    whatever the two texts are. *)
Theorem adjustCursorPosition_in_range (oldContent newContent : jsstring)
  (oldPosition : Z) :
  0 <= oldPosition <= JS.length oldContent ->
  0 <= adjustCursorPosition oldContent newContent oldPosition
    <= JS.length newContent.
Proof.
  intros Hpos; unfold adjustCursorPosition.
  destruct (JS.eqb oldContent newContent) eqn:Heq.
  { apply eqb_eq in Heq; subst; exact Hpos. }
  pose proof (getCommonPrefixLength_range oldContent newContent) as Hcp.
  destruct (oldPosition <=? _) eqn:Hle.
  { apply Z.leb_le in Hle; lia. }
  cbv zeta.
  pose proof (length_nonneg newContent).
  destruct (oldPosition >=? _); lia.
Qed.

(** X4. An edit that lies entirely after the cursor leaves the cursor where it
    is: when the two texts share the part [before] and the cursor is in
    it, the offset is returned unchanged. *)
Theorem adjustCursorPosition_edit_after_cursor
  (before old_rest new_rest : jsstring) (oldPosition : Z) :
  oldPosition <= JS.length before ->
  adjustCursorPosition (before ++ old_rest) (before ++ new_rest) oldPosition
  = oldPosition.
Proof.
  intros Hpos; unfold adjustCursorPosition.
  destruct (JS.eqb _ _); [reflexivity|].
  rewrite getCommonPrefixLength_app_app.
  pose proof (getCommonPrefixLength_range old_rest new_rest).
  destruct (oldPosition <=? _) eqn:Hle; [reflexivity|].
  apply Z.leb_gt in Hle; lia.
Qed.

(** X5. An edit that lies entirely before the cursor moves the cursor with the
    text behind it: when the texts differ from their first code unit on and
    share the part [after], a cursor in that part keeps its distance to the
    end of the text. *)
Theorem adjustCursorPosition_edit_before_cursor
  (old_part new_part after : jsstring) (oldPosition : Z) :
  hd_error (old_part ++ after) <> hd_error (new_part ++ after) ->
  0 < oldPosition ->
  JS.length old_part <= oldPosition <= JS.length (old_part ++ after) ->
  adjustCursorPosition (old_part ++ after) (new_part ++ after) oldPosition
  = oldPosition - JS.length old_part + JS.length new_part.
Proof.
  intros Hhd Hpos Hin; unfold adjustCursorPosition.
  rewrite eqb_false by (intros Heq; rewrite Heq in Hhd; now apply Hhd).
  rewrite (getCommonPrefixLength_hd _ _ Hhd).
  destruct (oldPosition <=? 0) eqn:Hle; [apply Z.leb_le in Hle; lia|].
  cbv zeta; unfold substring_from; cbn [Z.to_nat skipn].
  unfold getCommonSuffixLength.
  rewrite !rev_app_distr, getCommonPrefixLength_app_app.
  pose proof (getCommonPrefixLength_range (rev old_part) (rev new_part)).
  rewrite !length_app in *.
  assert (Hrev : JS.length (rev after) = JS.length after)
    by (unfold JS.length; now rewrite length_rev).
  rewrite Hrev.
  pose proof (length_nonneg new_part).
  destruct (oldPosition >=? _) eqn:Hge; [lia|].
  rewrite Z.geb_leb in Hge; apply Z.leb_gt in Hge; lia.
Qed.

(** X6. When the end of the text is cut off, a cursor in what remains stays and a
    cursor in the removed part lands at the new end: the result is the old
    offset capped by the new length. *)
Theorem adjustCursorPosition_truncation (kept removed : jsstring)
  (oldPosition : Z) :
  0 <= oldPosition <= JS.length (kept ++ removed) ->
  adjustCursorPosition (kept ++ removed) kept oldPosition
  = Z.min oldPosition (JS.length kept).
Proof.
  intros Hpos; unfold adjustCursorPosition.
  destruct (JS.eqb _ _) eqn:Heq.
  { apply eqb_eq in Heq; rewrite Heq in Hpos; lia. }
  rewrite getCommonPrefixLength_sym, getCommonPrefixLength_app.
  destruct (oldPosition <=? JS.length kept) eqn:Hle.
  { apply Z.leb_le in Hle; lia. }
  apply Z.leb_gt in Hle; cbv zeta.
  assert (Hnew : substring_from kept (JS.length kept) = []).
  { unfold substring_from, JS.length; rewrite Nat2Z.id; apply skipn_all. }
  rewrite Hnew; unfold getCommonSuffixLength.
  assert (Hcs : forall s, getCommonPrefixLength s (rev []) = 0)
    by (intros [|? ?]; reflexivity).
  rewrite Hcs, !Z.sub_0_r.
  pose proof (length_nonneg kept).
  destruct (oldPosition >=? _) eqn:Hge; [lia|].
  rewrite Z.sub_diag.
  assert (Hround : forall q,
             Math_round (Float.double (q * inject_Z 0)) = 0).
  { intros q; rewrite double_zero; [reflexivity|].
    unfold Qmult; cbn [Qnum inject_Z]; lia. }
  rewrite Hround; lia.
Qed.

End AdjustCursor.

(** *** What a synchronisation of the SyncManager leaves behind *)

Section SyncOutcomes.

Import SyncManager SyncManagerSpec Timers Eff.

Context {E : Engine}.

(** X8. A CodeMirror to Milkdown synchronisation that goes through: with both
    editors attached, a text that parses and a cursor inside it, the callback
    replaces the Milkdown document by the parsed text, puts the selection
    near the CodeMirror offset capped by the size of the new document, leaves
    CodeMirror alone and reports ready. *)
Theorem sync_to_milkdown_succeeds content o d (w : SyncManager.world) :
  lastSource (this w) <> Some milkdown ->
  codemirrorEditor (this w) = true -> milkdownEditor (this w) = true ->
  parser content = Parsed d ->
  0 <= cm_head (cm w) <= JS.length content ->
  0 <= size d ->
  let w' := snd (run_sync_to_milkdown content o w) in
  let sel := near d (Z.min (cm_head (cm w)) (size d)) in
  md_doc (md w') = d
  /\ md_selection (md w') = sel
  /\ cm w' = cm w
  /\ status w' = ready
  /\ log w' = log w ++ [Sync codemirror content o; MdReplace d;
                        MdSelection sel].
Proof.
  intros Hl Hc Hm Hp Hpos Hsize.
  pose proof (calculateApproximatePosition_in_range content _ Hpos) as Hcalc.
  assert (Hge : (cm_head (cm w) >=? 0) = true)
    by (rewrite Z.geb_leb; apply Z.leb_le; lia).
  assert (Hmin : (Z.min (cm_head (cm w)) (size d) <? 0) = false)
    by (apply Z.ltb_ge; lia).
  unfold run_sync_to_milkdown.
  destruct (lastSource (this w)) as [[|]|]; try congruence.
  all: unfold release_later; rewrite try_catch_finally_world;
    unfold bind, on_editor, cm_getCursorPosition, read, md_setContent, exec,
      try_finally, md_dispatch_replace, md_listener, md_setCursorPosition;
    cbn -[calculateApproximatePosition Z.min];
    rewrite ?Hc, ?Hm, ?Hp; cbn -[calculateApproximatePosition Z.min];
    destruct (serializer d);
      try destruct (serializer (md_doc (md w)));
      cbn -[calculateApproximatePosition Z.min];
      rewrite ?Hm, ?Hcalc, ?Hge; cbn -[Z.min]; rewrite ?Hm; cbn -[Z.min];
      rewrite ?Hmin; cbn -[Z.min];
      rewrite <- ?app_assoc; cbn [app]; conjuncts; reflexivity.
Qed.

(** X9. A Milkdown to CodeMirror synchronisation that goes through: with the
    editor attached, a text that differs from the one CodeMirror shows and
    that CodeMirror keeps as it is (it has no carriage return), and a cursor
    inside the old text, the callback replaces the text, moves the cursor to
    [adjustCursorPosition] of the old offset, leaves Milkdown alone and
    reports ready. *)
Theorem sync_to_codemirror_succeeds content o (w : SyncManager.world) :
  lastSource (this w) <> Some codemirror ->
  codemirrorEditor (this w) = true ->
  cm_doc (cm w) <> content ->
  CodeMirror.toText content = content ->
  0 <= cm_head (cm w) <= JS.length (cm_doc (cm w)) ->
  let w' := snd (run_sync_to_codemirror content o w) in
  let pos := adjustCursorPosition (cm_doc (cm w)) content (cm_head (cm w)) in
  cm w' = {| cm_doc := content; cm_head := pos |}
  /\ md w' = md w
  /\ status w' = ready
  /\ log w' = log w ++ [Sync milkdown content o; CmChanges content;
                        CmSelection pos].
Proof.
  intros Hl Hc Hne Hlines Hpos.
  pose proof (adjustCursorPosition_range _ content _ Hpos) as [Hlo Hhi].
  apply Z.leb_le in Hlo, Hhi.
  pose proof (eqb_false _ _ Hne) as Heq.
  unfold run_sync_to_codemirror.
  destruct (lastSource (this w)) as [[|]|]; try congruence.
  all: unfold release_later; rewrite try_catch_finally_world;
    unfold bind, on_editor, cm_getContent, cm_getCursorPosition, read,
      cm_setContent, cm_dispatch_changes, cm_setCursorPosition, exec, ret,
      handleCodeMirrorChange;
    cbn -[adjustCursorPosition CodeMirror.toText];
    repeat (progress (rewrite ?Hc, ?Heq, ?Hlines, ?Hlo, ?Hhi;
                      cbn -[adjustCursorPosition CodeMirror.toText]));
    rewrite <- ?app_assoc; cbn [app]; conjuncts; reflexivity.
Qed.

(** X10. Once the editors are detached, as [destroy] leaves them, a debounced
    callback that still runs touches neither surface: the first call on the
    missing editor throws, the [catch] block reports the error and the
    [finally] block still schedules the release of the flag. *)
Theorem detached_sync_touches_nothing (cb : callback) (w : SyncManager.world) :
  is_sync cb = true ->
  lastSource (this w) = None ->
  codemirrorEditor (this w) = false ->
  let w' := snd (run_callback cb w) in
  fst (run_callback cb w) = Ok tt
  /\ cm w' = cm w /\ md w' = md w
  /\ status w' = error
  /\ isUpdating (this w') = true
  /\ pending (clk w') =
     pending (clk w)
     ++ [{| t_id := next_id (clk w); t_due := now (clk w) + 100;
            t_cb := release |}].
Proof.
  intros Hs Hl Hc.
  destruct cb as [content o|content o| |]; try discriminate Hs;
    cbn [run_callback].
  - split; [apply run_callback_returns with (cb := sync_to_milkdown content o)|].
    unfold run_sync_to_milkdown; rewrite Hl.
    unfold release_later; rewrite try_catch_finally_world.
    unfold bind, on_editor; cbn; rewrite Hc; cbn; conjuncts; reflexivity.
  - split; [apply run_callback_returns with (cb := sync_to_codemirror content o)|].
    unfold run_sync_to_codemirror; rewrite Hl.
    unfold release_later; rewrite try_catch_finally_world.
    unfold bind, on_editor; cbn; rewrite Hc; cbn; conjuncts; reflexivity.
Qed.

End SyncOutcomes.

(** *** The manager and its timers over whole runs *)

Section Runs.

Import SyncManager SyncManagerSpec SyncManagerTiming Timers Eff.

Context {E : Engine}.

Lemma NoDup_ids_filter (f : timer task -> bool) (l : list (timer task)) :
  NoDup (map t_id l) -> NoDup (map t_id (filter f l)).
Proof.
  induction l as [|a l IH]; cbn [filter map]; [intros H; exact H|].
  intros H; inversion H as [|? ? Hnotin Hnd]; subst.
  destruct (f a); [|now apply IH].
  cbn [map]; constructor; [|now apply IH].
  intros Hin; apply Hnotin.
  apply in_map_iff in Hin; destruct Hin as (u & Hid & Hu).
  apply filter_In in Hu; apply in_map_iff; exists u; tauto.
Qed.

Lemma WF_one_sync w : WF w -> (List.length (pending_syncs w) <= 1)%nat.
Proof.
  intros Hwf.
  destruct (isUpdating (this w)) eqn:Hf.
  - destruct (wf_busy w Hwf Hf) as [-> _]; cbn; lia.
  - destruct (wf_idle w Hwf Hf) as (_ & _ & Hh).
    pose proof (NoDup_ids_filter (fun t => is_sync_task (t_cb t)) _
                  (wf_nodup w Hwf)) as Hnd.
    fold (pending_syncs w) in Hnd.
    destruct (pending_syncs w) as [|t1 [|t2 rest]]; cbn [List.length]; try lia.
    pose proof (Hh t1 (or_introl eq_refl)) as H1.
    pose proof (Hh t2 (or_intror (or_introl eq_refl))) as H2.
    rewrite H1 in H2; injection H2 as H2.
    cbn [map] in Hnd; inversion Hnd as [|? ? Hnotin _]; subst.
    exfalso; apply Hnotin; left; symmetry; exact H2.
Qed.

(** X11. In every state the page can reach, at most one debounced callback is
    pending, whichever editor asked for it; none is pending while the flag is
    set, when exactly one release of the flag is; and while the flag is clear
    no release is pending and [lastSource] is null. *)
Theorem one_debounced_callback (inputs : list input) (content0 : jsstring)
  (doc0 : Doc) :
  let w := run inputs (initial content0 doc0) in
  (List.length (pending_syncs w) <= 1)%nat
  /\ (isUpdating (this w) = true ->
      pending_syncs w = [] /\ exists r, pending_releases w = [r])
  /\ (isUpdating (this w) = false ->
      pending_releases w = [] /\ lastSource (this w) = None).
Proof.
  pose proof (WF_run inputs _ (WF_initial content0 doc0)) as Hwf.
  cbv zeta; split; [now apply WF_one_sync|split].
  - apply (wf_busy _ Hwf).
  - intros Hf; destruct (wf_idle _ Hwf Hf) as (Hl & Hr & _); auto.
Qed.

End Runs.

(** *** The release of the flag is never more than 100 ms away *)

Section Prompt.

Import SyncManager SyncManagerSpec SyncManagerTiming Timers Eff.

Context {E : Engine}.

Lemma prompt_later w w' :
  now (clk w) <= now (clk w') ->
  (forall r, In r (pending (clk w')) -> t_cb r = release ->
             In r (pending (clk w))) ->
  prompt w -> prompt w'.
Proof.
  intros Hnow Hsub Hp r Hin Hcb.
  specialize (Hp r (Hsub r Hin Hcb) Hcb); lia.
Qed.

Lemma prompt_handleCodeMirrorChange content o w :
  prompt w -> prompt (handleCodeMirrorChange content o w).
Proof.
  intros Hp; destruct (isUpdating (this w)) eqn:Hf.
  - now rewrite handleCodeMirrorChange_suppressed.
  - destruct (handleCodeMirrorChange_idle content o w Hf)
      as (_ & Hnow & _ & Hpend & _).
    apply (prompt_later w); [lia| |exact Hp].
    intros r Hin Hcb; rewrite Hpend in Hin.
    apply in_app_or in Hin; destruct Hin as [Hin|[<-|[]]].
    + now apply cleared_In in Hin.
    + discriminate Hcb.
Qed.

Lemma prompt_handleMilkdownChange content o w :
  prompt w -> prompt (handleMilkdownChange content o w).
Proof.
  intros Hp; destruct (isUpdating (this w)) eqn:Hf.
  - now rewrite handleMilkdownChange_suppressed.
  - destruct (handleMilkdownChange_idle content o w Hf)
      as (_ & Hnow & _ & Hpend & _).
    apply (prompt_later w); [lia| |exact Hp].
    intros r Hin Hcb; rewrite Hpend in Hin.
    apply in_app_or in Hin; destruct Hin as [Hin|[<-|[]]].
    + now apply cleared_In in Hin.
    + discriminate Hcb.
Qed.

Lemma prompt_entered src content o w t w' :
  prompt w -> entered src content o (set_clk (fired t (clk w)) w) w' ->
  prompt w'.
Proof.
  intros Hp (_ & Hnow & _ & l & _ & Hinner & Hpend & _) r Hin Hcb.
  rewrite Hnow; cbn [set_clk clk fired now pending] in *.
  rewrite Hpend in Hin.
  apply in_app_or in Hin; destruct Hin as [Hin|Hin].
  { apply drop_In in Hin; specialize (Hp r (proj1 Hin) Hcb); lia. }
  apply in_app_or in Hin; destruct Hin as [Hin|[<-|[]]].
  - apply (proj2 Hinner) in Hin; destruct Hin as [_ Hi].
    rewrite Hcb in Hi; discriminate.
  - cbn; lia.
Qed.

Lemma prompt_run_notification d o w :
  prompt w -> prompt (snd (run_notification d o w)).
Proof.
  intros Hp; unfold run_notification.
  destruct (sameDoc _ d); [exact Hp|].
  destruct (serializer d) as [markdown|]; [|exact Hp].
  cbn [snd]; unfold md_listener.
  destruct (_ && _); [|exact Hp].
  apply (prompt_handleMilkdownChange markdown o w Hp).
Qed.

Lemma prompt_fire w t :
  WF w -> prompt w -> In t (pending (clk w)) -> prompt (snd (fire t w)).
Proof.
  intros Hwf Hp Hin.
  assert (Hf : prompt (set_clk (fired t (clk w)) w)).
  { apply (prompt_later w); [cbn; lia| |exact Hp].
    cbn; intros r Hr _; now apply drop_In in Hr. }
  destruct (t_cb t) as [[content o|content o| |]|d o] eqn:Hcb.
  - apply (prompt_entered codemirror content o w t); [exact Hp|].
    now apply fire_sync_to_milkdown.
  - apply (prompt_entered milkdown content o w t); [exact Hp|].
    now apply fire_sync_to_codemirror.
  - rewrite (fire_release w t Hcb). exact Hf.
  - rewrite (fire_internal w t Hcb). exact Hf.
  - rewrite (fire_notification w t d o Hcb).
    now apply prompt_run_notification.
Qed.

Lemma prompt_advance dt w : WF w -> prompt w -> prompt (advance dt w).
Proof.
  intros Hwf Hp.
  pose proof (advance_invariant (fun w => WF w /\ prompt w) dt w) as H.
  cbv beta in H; destruct H as [_ H].
  - intros w' t [Hwf' Hp'] Ht; apply next_due_Some in Ht.
    split; [apply WF_fire|apply prompt_fire]; tauto.
  - split; assumption.
  - unfold advance; cbv zeta.
    eapply prompt_later; [| |exact H]; cbn; [lia|auto].
Qed.

Lemma prompt_step w i : WF w -> prompt w -> prompt (step w i).
Proof.
  intros Hwf Hp; destruct i as [content head|d sel|dt|delay|]; cbn [step].
  - apply prompt_handleCodeMirrorChange.
    apply (prompt_later w); [cbn; lia|cbn; auto|exact Hp].
  - apply (prompt_later w); [cbn; lia| |exact Hp].
    cbn; intros r Hr Hcb.
    apply in_app_or in Hr; destruct Hr as [Hr|[<-|[]]]; [exact Hr|].
    discriminate Hcb.
  - now apply prompt_advance.
  - apply (prompt_later w); [cbn; lia|cbn; auto|exact Hp].
  - apply (prompt_later w); [cbn; destruct (debounceTimer (this w)); cbn; lia
                            | |exact Hp].
    cbn; intros r Hr _.
    destruct (debounceTimer (this w)); cbn in Hr; [|exact Hr].
    now apply drop_In in Hr.
Qed.

Lemma prompt_run inputs w : WF w -> prompt w -> prompt (run inputs w).
Proof.
  revert w; induction inputs as [|i inputs IH]; intros w Hwf Hp; [exact Hp|].
  cbn [run fold_left]; apply IH; [now apply WF_step|now apply prompt_step].
Qed.

(** X12. Whatever the page has gone through, while the flag is set exactly one
    release of it is pending, and it is due within 100 ms: both callbacks
    schedule the release in their [finally] block, and nothing postpones or
    cancels it. When it fires, the flag is clear and [lastSource] is null. *)
Theorem flag_held_at_most_100ms (inputs : list input) (content0 : jsstring)
  (doc0 : Doc) :
  isUpdating (this (run inputs (initial content0 doc0))) = true ->
  let w := run inputs (initial content0 doc0) in
  exists r,
    pending_releases w = [r]
    /\ t_due r <= now (clk w) + 100
    /\ forall w', isUpdating (this (snd (fire r w'))) = false
                  /\ lastSource (this (snd (fire r w'))) = None.
Proof.
  intros Hf; cbv zeta.
  set (w := run inputs (initial content0 doc0)) in *.
  assert (Hwf : WF w) by apply WF_run, WF_initial.
  assert (Hp : prompt w).
  { apply prompt_run; [apply WF_initial|]; intros r []. }
  destruct (wf_busy w Hwf Hf) as (_ & r & Hr).
  assert (Hin : In r (pending_releases w)) by (rewrite Hr; now left).
  apply pending_releases_In in Hin; destruct Hin as [Hin Hcb].
  exists r; split; [exact Hr|split; [now apply Hp|]].
  intros w'; rewrite (fire_release w' r Hcb); split; reflexivity.
Qed.

End Prompt.

(** *** Edits in both editors *)

Section BothEditors.

Import SyncManager SyncManagerSpec Timers Eff.

Context {E : Engine}.

Lemma busy_one_way w : WF w -> isUpdating (this w) = true -> one_way w.
Proof.
  intros Hwf Hf t Ht. destruct (wf_busy w Hwf Hf) as [Hnone _].
  pose proof (no_sync_due w t Hnone Ht) as Hs.
  destruct (t_cb t) as [[]|]; try discriminate; reflexivity.
Qed.

(** X15. An edit in CodeMirror that arrives while the flag is set is dropped
    for good: the handler returns at once, no callback is scheduled for it,
    and however long the page waits afterwards no sync into Milkdown runs:
    Milkdown keeps its old document. *)
Theorem edit_while_flag_set_is_lost (inputs : list input)
  (content0 : jsstring) (doc0 : Doc) (content : jsstring) (head dt : Z) :
  isUpdating (this (run inputs (initial content0 doc0))) = true ->
  let w := run inputs (initial content0 doc0) in
  let w1 := user_types content head w in
  clk w1 = clk w
  /\ status w1 = status w
  /\ pending_syncs w1 = []
  /\ tree_syncs (advance dt w1) = tree_syncs w
  /\ md_doc (md (advance dt w1)) = md_doc (md w).
Proof.
  intros Hf; cbv zeta.
  set (w := run inputs (initial content0 doc0)) in *.
  assert (Hwf : WF w) by apply WF_run, WF_initial.
  unfold user_types; rewrite handleCodeMirrorChange_suppressed by exact Hf.
  set (w1 := set_cm _ w).
  assert (Hwf1 : WF w1) by (apply (WF_frame w); auto).
  assert (Hone : one_way w1) by (apply busy_one_way; assumption).
  destruct (one_way_advance dt w1 Hwf1 Hone) as (_ & Hs & Hd).
  conjuncts; try reflexivity; try assumption.
  apply (wf_busy w Hwf Hf).
Qed.

End BothEditors.

(** *** What a synchronisation of the single-file application leaves behind *)

Section AppOutcomes.

Import App Eff.

Context {E : Engine}.

Lemma fraction_nonneg (pos docSize : Z) :
  0 <= pos -> 0 < docSize -> (0 <= inject_Z pos / inject_Z docSize)%Q.
Proof.
  intros Hpos Hsize.
  assert (Hd : (0 < inject_Z docSize)%Q)
    by (change 0%Q with (inject_Z 0); now rewrite <- Zlt_Qlt).
  apply Qle_shift_div_l; [exact Hd|].
  rewrite Qmult_0_l; change 0%Q with (inject_Z 0).
  rewrite <- Zle_Qle; lia.
Qed.

Lemma restored_relative (pos docSize n : Z) :
  0 <= pos -> 0 <= n ->
  exists p, restored (relative pos docSize) n = Num.of_int p /\ 0 <= p <= n.
Proof.
  intros Hpos Hn; unfold relative.
  destruct (Z.gtb_spec docSize 0) as [Hd|Hd].
  - unfold Num.divide.
    destruct (Z.eqb_spec docSize 0) as [|_]; [lia|].
    apply restored_Fin; [|exact Hn].
    apply double_nonneg, fraction_nonneg; lia.
  - apply (restored_Fin (inject_Z 0)); [discriminate|exact Hn].
Qed.

Lemma as_int_of_int (z : Z) : Num.as_int (Num.of_int z) = Some z.
Proof.
  unfold Num.as_int, Num.of_int; rewrite Qfloor_Z.
  assert (H : Qeq_bool (inject_Z z) (inject_Z z) = true)
    by (apply Qeq_bool_iff; reflexivity).
  now rewrite H.
Qed.

Lemma strict_eq_of_int (a b : Z) :
  Num.strict_eq (Num.of_int a) (Num.of_int b) = (a =? b).
Proof.
  unfold Num.strict_eq, Num.of_int.
  destruct (Z.eqb_spec a b) as [->|Hne].
  - apply Qeq_bool_iff; reflexivity.
  - apply not_true_is_false; intros H; apply Qeq_bool_iff in H.
    unfold Qeq in H; cbn in H; lia.
Qed.

(** X18. A Milkdown to CodeMirror synchronisation of the single-file application
    that goes through: when the document serializes and the cursor is not
    negative, the document of CodeMirror becomes the lines of the markdown,
    the cursor is restored at an offset inside the new document, nothing is
    scheduled by the update listener, and the flag is clear again. *)
Theorem syncToCodeMirror_succeeds (w : App.world) v view markdown :
  codemirrorView w = Some v -> milkdownEditor w = Some view ->
  serializer (md_doc view) = Some markdown ->
  0 <= cm_head v ->
  let w' := snd (syncToCodeMirror w) in
  let text := CodeMirror.toText markdown in
  exists p,
    restored (relative (cm_head v) (JS.length (cm_doc v)))
      (JS.length text) = Num.of_int p
    /\ 0 <= p <= JS.length text
    /\ codemirrorView w' = Some {| cm_doc := text; cm_head := p |}
    /\ milkdownEditor w' = milkdownEditor w
    /\ clk w' = clk w
    /\ isUpdating (mgr w') = false
    /\ log w' = log w ++ [CmChanges markdown; CmSelection p].
Proof.
  intros Hv Hm Hs Hpos; cbv zeta.
  set (text := CodeMirror.toText markdown).
  destruct (restored_relative (cm_head v) (JS.length (cm_doc v))
              (JS.length text) Hpos (length_nonneg text)) as (p & Hr & Hp).
  exists p; split; [exact Hr|split; [exact Hp|]].
  assert (Hrange : (0 <=? p) && (p <=? JS.length text) = true)
    by (apply andb_true_iff; split; apply Z.leb_le; lia).
  unfold syncToCodeMirror; rewrite Hv.
  change (@ret App.world unit tt) with (@exec App.world (fun w => w)).
  rewrite try_catch_finally_world.
  cbn [set_isUpdating set_lastSource set_mgr milkdownEditor].
  rewrite Hm, Hs; unfold bind, exec, cm_updateListener, cm_dispatch_selection.
  fold text.
  cbn -[restored relative text]; rewrite Hr, as_int_of_int, Hrange.
  cbn; rewrite <- app_assoc; conjuncts; rewrite ?Hm; reflexivity.
Qed.

(** X19. A serializer that throws is contained by [syncToCodeMirror]: the text
    and the cursor of CodeMirror stay as they are, nothing is dispatched or
    scheduled, and the flag is clear again. *)
Theorem serializer_failure_contained (w : App.world) v view :
  codemirrorView w = Some v -> milkdownEditor w = Some view ->
  serializer (md_doc view) = None ->
  let w' := snd (syncToCodeMirror w) in
  fst (syncToCodeMirror w) = Ok tt
  /\ codemirrorView w' = Some v
  /\ milkdownEditor w' = Some view
  /\ clk w' = clk w
  /\ log w' = log w
  /\ isUpdating (mgr w') = false.
Proof.
  intros Hv Hm Hs; split; [apply syncToCodeMirror_returns|].
  unfold syncToCodeMirror; rewrite Hv.
  change (@ret App.world unit tt) with (@exec App.world (fun w => w)).
  rewrite try_catch_finally_world.
  cbn [set_isUpdating set_lastSource set_mgr milkdownEditor].
  rewrite Hm, Hs; cbn; conjuncts; rewrite ?Hm, ?Hv; reflexivity.
Qed.

(** X20. A CodeMirror to Milkdown synchronisation of the single-file application
    that goes through: when the text parses, a fallback document can be
    made and the selection is not negative, the document is replaced and
    both ends of the selection are restored at offsets inside the new one;
    equal ends give the selection near that offset. The flag is clear
    again, and the only timer that is new is the one of the listener
    plugin, which will announce the new document 200 ms later. *)
Theorem syncToMilkdown_succeeds content d (w : App.world) view :
  milkdownEditor w = Some view ->
  parser content = Parsed d ->
  createAndFill = true ->
  0 <= fst (md_selection view) ->
  0 <= snd (md_selection view) ->
  0 <= size d ->
  let w' := snd (syncToMilkdown content w) in
  exists newFrom newTo,
    restored (relative (fst (md_selection view)) (size (md_doc view)))
      (size d) = Num.of_int newFrom
    /\ restored (relative (snd (md_selection view)) (size (md_doc view)))
         (size d) = Num.of_int newTo
    /\ 0 <= newFrom <= size d /\ 0 <= newTo <= size d
    /\ let sel := if newFrom =? newTo then near d newFrom
                  else mapSelection (md_doc view) d (md_selection view) in
       milkdownEditor w' =
         Some {| md_doc := d; md_selection := sel; prevDoc := prevDoc view |}
       /\ codemirrorView w' = codemirrorView w
       /\ Timers.pending (clk w') =
            Timers.pending (clk w)
            ++ [{| Timers.t_id := Timers.next_id (clk w);
                   Timers.t_due := Timers.now (clk w) + 200;
                   Timers.t_cb := notification d |}]
       /\ debounceTimer (mgr w') = debounceTimer (mgr w)
       /\ isUpdating (mgr w') = false
       /\ log w' = log w ++ [MdDispatch d sel].
Proof.
  intros Hm Hp Hfill Hfrom Hto Hsize.
  destruct (restored_relative _ (size (md_doc view)) (size d) Hfrom Hsize)
    as (pf & Hrf & Hpf).
  destruct (restored_relative _ (size (md_doc view)) (size d) Hto Hsize)
    as (pt & Hrt & Hpt).
  exists pf, pt; conjuncts; try assumption; try lia.
  assert (Hrange : (0 <=? pf) && (pf <=? size d) = true)
    by (apply andb_true_iff; split; apply Z.leb_le; lia).
  unfold syncToMilkdown; rewrite Hm.
  change (@ret App.world unit tt) with (@exec App.world (fun w => w)).
  rewrite try_catch_finally_world.
  unfold replace_in_milkdown; rewrite Hp.
  destruct (md_selection view) as [from to] eqn:Hsel.
  cbn [fst snd] in Hrf, Hrt.
  rewrite Hrf, Hrt, strict_eq_of_int, Hfill, as_int_of_int, Hrange.
  unfold exec, notify_later.
  destruct (pf =? pt); cbn; conjuncts; reflexivity.
Qed.

End AppOutcomes.

(** *** The single-file application over whole runs *)

Section AppRuns.

Import App AppLoop Timers Eff.

Context {E : Engine}.

Lemma pending_debounced_notified d (w : App.world) :
  pending_debounced (notify_later d w) = pending_debounced w.
Proof.
  unfold pending_debounced, notify_later, setTimeout.
  cbn [set_clk clk snd pending]; rewrite filter_app; cbn.
  apply app_nil_r.
Qed.

(** What the function handed to [milkdownEditor.action] leaves of the
    manager and the clock: the only timer it can add is the one of the
    listener plugin. *)
Lemma replace_in_milkdown_frame content view (w : App.world) :
  milkdownEditor w <> None ->
  let w' := snd (replace_in_milkdown content view w) in
  mgr w' = mgr w
  /\ codemirrorView w' = codemirrorView w
  /\ milkdownEditor w' <> None
  /\ next_id (clk w) <= next_id (clk w')
  /\ pending_debounced w' = pending_debounced w.
Proof.
  intros Hm; unfold replace_in_milkdown.
  assert (Hsame : mgr w = mgr w /\ codemirrorView w = codemirrorView w
                  /\ milkdownEditor w <> None
                  /\ next_id (clk w) <= next_id (clk w)
                  /\ pending_debounced w = pending_debounced w)
    by (conjuncts; auto; lia).
  destruct (parser content) as [| |d]; cbv beta iota zeta;
    destruct (md_selection view) as [from to]; try exact Hsame.
  destruct (Num.strict_eq _ _);
    [destruct createAndFill;
     [destruct (Num.as_int _); [destruct (_ && _)|]|]|];
    try exact Hsame.
  all: unfold exec; cbn [snd]; rewrite pending_debounced_notified;
    cbn; conjuncts; auto; try discriminate; lia.
Qed.

(** What a callback leaves of the manager and the clock: the flag is
    released, and the listeners that run inside its dispatches schedule
    nothing. *)
Lemma run_callback_frame cb (w : App.world) :
  let w' := snd (run_callback cb w) in
  debounceTimer (mgr w') = debounceTimer (mgr w)
  /\ (isUpdating (mgr w) = false -> isUpdating (mgr w') = false)
  /\ (codemirrorView w <> None -> codemirrorView w' <> None)
  /\ (milkdownEditor w <> None -> milkdownEditor w' <> None)
  /\ next_id (clk w) <= next_id (clk w')
  /\ pending_debounced w' = pending_debounced w.
Proof.
  destruct cb as [content|]; cbn [run_callback].
  - unfold syncToMilkdown.
    destruct (milkdownEditor w) as [view|] eqn:Hm;
      [|cbn; rewrite Hm; conjuncts; auto; lia].
    change (@ret App.world unit tt) with (@exec App.world (fun w => w)).
    rewrite try_catch_finally_world.
    set (w2 := set_lastSource _ _).
    destruct (replace_in_milkdown_frame content view w2)
      as (Hmgr & Hcm & Hmd & Hn & Hp); [cbn; rewrite Hm; discriminate|].
    destruct (replace_in_milkdown content view w2) as [[[]|] w1];
      cbn [snd] in *; unfold pending_debounced in *; cbn;
      rewrite Hmgr, Hcm; cbn; conjuncts; auto.
  - unfold syncToCodeMirror.
    destruct (codemirrorView w) as [v|] eqn:Hv;
      [|cbn; rewrite Hv; conjuncts; auto; lia].
    change (@ret App.world unit tt) with (@exec App.world (fun w => w)).
    rewrite try_catch_finally_world.
    cbn [set_isUpdating set_lastSource set_mgr milkdownEditor].
    destruct (milkdownEditor w) as [view|] eqn:Hm;
      [|cbn; rewrite ?Hv, ?Hm; conjuncts; auto; try discriminate; lia].
    destruct (serializer (md_doc view)) as [markdown|];
      [|cbn; rewrite ?Hv, ?Hm; conjuncts; auto; try discriminate; lia].
    unfold bind, exec, cm_updateListener, cm_dispatch_selection.
    cbn -[restored relative CodeMirror.toText].
    destruct (Num.as_int _) as [p|]; [destruct (_ && _)|];
      cbn -[CodeMirror.toText]; rewrite ?Hv, ?Hm; conjuncts; auto;
      try discriminate; lia.
Qed.

Lemma settled_cleared (w : App.world) :
  settled w -> pending_debounced (clear_debounce w) = []
               /\ next_id (clk (clear_debounce w)) = next_id (clk w)
               /\ now (clk (clear_debounce w)) = now (clk w)
               /\ mgr (clear_debounce w) = mgr w
               /\ codemirrorView (clear_debounce w) = codemirrorView w
               /\ milkdownEditor (clear_debounce w) = milkdownEditor w.
Proof.
  intros [_ _ _ _ Hp]; unfold clear_debounce.
  destruct Hp as [Hp|(t & Hp & Hh & Hid)].
  - destruct (debounceTimer (mgr w)) as [id|]; [destruct (id =? 0)|];
      unfold pending_debounced in *; cbn; rewrite ?drop_filter, ?Hp;
      conjuncts; reflexivity.
  - rewrite Hh; apply Z.eqb_neq in Hid; rewrite Hid.
    unfold pending_debounced in *; cbn; rewrite drop_filter, Hp; cbn.
    rewrite Z.eqb_refl; conjuncts; reflexivity.
Qed.

Lemma settled_scheduled cb (w : App.world) :
  settled w ->
  settled (schedule cb (clear_debounce w))
  /\ pending_debounced (schedule cb (clear_debounce w)) =
     [{| t_id := next_id (clk w);
         t_due := now (clk w) + Z.max 0 (debounceDelay (mgr w));
         t_cb := cb |}].
Proof.
  intros Hs.
  destruct (settled_cleared w Hs) as (Hp & Hn & Hnow & Hmgr & Hcm & Hmd).
  destruct Hs as [Scm Smd Sflag Snext _].
  assert (Hq : pending_debounced (schedule cb (clear_debounce w)) =
     [{| t_id := next_id (clk w);
         t_due := now (clk w) + Z.max 0 (debounceDelay (mgr w));
         t_cb := cb |}]).
  { unfold pending_debounced, schedule, setTimeout in *.
    cbn [set_debounceTimer set_clk set_mgr clk pending].
    rewrite filter_app, Hp, Hn, Hnow, Hmgr; reflexivity. }
  split; [|exact Hq].
  constructor.
  - unfold schedule, setTimeout; cbn; now rewrite Hcm.
  - unfold schedule, setTimeout; cbn; now rewrite Hmd.
  - unfold schedule, setTimeout; cbn; now rewrite Hmgr.
  - unfold schedule, setTimeout; cbn; lia.
  - right; eexists; split; [exact Hq|].
    unfold schedule, setTimeout; cbn; rewrite Hn.
    split; [reflexivity|lia].
Qed.

Lemma settled_initial content doc : settled (initial content doc).
Proof. constructor; cbn; try discriminate; auto; lia. Qed.

(** Only the queue and the identifiers count. *)
Lemma settled_frame (w w' : App.world) :
  mgr w' = mgr w ->
  (codemirrorView w <> None -> codemirrorView w' <> None) ->
  (milkdownEditor w <> None -> milkdownEditor w' <> None) ->
  next_id (clk w) <= next_id (clk w') ->
  pending_debounced w' = pending_debounced w ->
  settled w -> settled w'.
Proof.
  intros Hmgr Hcm Hmd Hn Hp [Scm Smd Sflag Snext Sp].
  constructor; rewrite ?Hmgr, ?Hp; auto; lia.
Qed.

Lemma settled_fired (w : App.world) t :
  settled w -> settled (set_clk (fired t (clk w)) w).
Proof.
  intros [Scm Smd Sflag Snext Sp]; constructor; auto.
  unfold pending_debounced in *; cbn [set_clk clk fired pending mgr].
  rewrite drop_filter.
  destruct Sp as [->|(u & -> & Hh & Hid)]; [now left|].
  cbn; destruct (negb (t_id u =? t_id t)); [right; eauto|now left].
Qed.

Lemma settled_md_updated (w : App.world) : settled w -> settled (md_updated w).
Proof.
  intros Hs; unfold md_updated; rewrite (st_flag w Hs); cbn [negb].
  apply settled_scheduled, Hs.
Qed.

Lemma settled_run_notification d (w : App.world) :
  settled w -> settled (snd (run_notification d w)).
Proof.
  intros Hs; unfold run_notification, exec; cbn [snd].
  destruct (milkdownEditor w) as [view|] eqn:Hm; [|exact Hs].
  set (w1 := if sameDoc (prevDoc view) d then w else md_updated w).
  assert (Hs1 : settled w1)
    by (subst w1; destruct (sameDoc _ d); [exact Hs|now apply settled_md_updated]).
  apply (settled_frame w1); auto; [discriminate|cbn; lia].
Qed.

Lemma settled_fire (w : App.world) t :
  settled w -> settled (snd (fire t w)).
Proof.
  intros Hs; unfold fire.
  pose proof (settled_fired w t Hs) as Hf.
  destruct (t_cb t) as [cb|d]; cbn [run_task].
  - destruct (run_callback_frame cb (set_clk (fired t (clk w)) w))
      as (Hh & Hflag & Hcm & Hmd & Hn & Hp).
    destruct Hf as [Scm Smd Sflag Snext Sp].
    constructor; auto; [lia|].
    rewrite Hp, Hh; exact Sp.
  - now apply settled_run_notification.
Qed.

Lemma settled_step (w : App.world) i : settled w -> settled (step w i).
Proof.
  intros Hs; destruct i as [content head|d sel| |dt]; cbn [step].
  - unfold user_types.
    destruct (codemirrorView w) eqn:Hv; [|exact Hs].
    unfold cm_updateListener.
    set (w1 := set_codemirrorView _ w).
    assert (Hs1 : settled w1)
      by (apply (settled_frame w); auto; [discriminate|cbn; lia]).
    rewrite (st_flag w1 Hs1); cbn [negb].
    apply settled_scheduled, Hs1.
  - unfold user_edits.
    destruct (milkdownEditor w) eqn:Hv; [|exact Hs].
    set (w1 := set_milkdownEditor _ w).
    assert (Hs1 : settled w1)
      by (apply (settled_frame w); auto; [discriminate|cbn; lia]).
    apply (settled_frame w1); auto;
      [unfold notify_later, setTimeout; cbn; lia
      |apply pending_debounced_notified].
  - unfold next_timer.
    destruct (earliest (pending (clk w))) as [t|] eqn:Ht; [|exact Hs].
    now apply settled_fire.
  - apply (settled_frame w); auto; cbn; lia.
Qed.

Lemma settled_run inputs (w : App.world) : settled w -> settled (run inputs w).
Proof.
  revert w; induction inputs as [|i inputs IH]; intros w Hs; [exact Hs|].
  cbn [run fold_left]; apply IH, settled_step, Hs.
Qed.

(** X21. In the single-file application the flag is set and cleared within one
    callback: in every state between two events it is clear, so the only
    notifications it ever holds back are those of the dispatches the
    callback makes itself. *)
Theorem app_flag_clear_between_events (inputs : list input)
  (content0 : jsstring) (doc0 : Doc) :
  isUpdating (mgr (run inputs (initial content0 doc0))) = false.
Proof. apply st_flag, settled_run, settled_initial. Qed.

(** X22. The two handlers of the single-file application share one timer: in
    every state at most one callback of the source is pending. After an edit
    in CodeMirror the callback of that edit is the only one, due after the
    debounce delay, whatever was pending before; and when the listener
    plugin announces a document that differs from the one it announced
    before, the callback of [handleMilkdownChange] is the only one. *)
Theorem app_timer_is_last_edit (inputs : list input) (content0 : jsstring)
  (doc0 : Doc) (content : jsstring) (head : Z) :
  let w := run inputs (initial content0 doc0) in
  let delay := Z.max 0 (debounceDelay (mgr w)) in
  (List.length (pending_debounced w) <= 1)%nat
  /\ pending_debounced (user_types content head w) =
     [{| t_id := next_id (clk w); t_due := now (clk w) + delay;
         t_cb := to_milkdown content |}]
  /\ forall t d view,
       t_cb t = notification d ->
       milkdownEditor w = Some view -> sameDoc (prevDoc view) d = false ->
       pending_debounced (snd (fire t w)) =
       [{| t_id := next_id (clk w);
           t_due := Z.max (now (clk w)) (t_due t) + delay;
           t_cb := to_codemirror |}].
Proof.
  cbv zeta; set (w := run inputs (initial content0 doc0)).
  assert (Hs : settled w) by apply settled_run, settled_initial.
  split; [|split].
  - destruct (st_pending w Hs) as [->|(t & -> & _)]; cbn; lia.
  - unfold user_types.
    destruct (codemirrorView w) eqn:Hv; [|now destruct (st_cm w Hs)].
    unfold cm_updateListener.
    set (w1 := set_codemirrorView _ w).
    assert (Hs1 : settled w1)
      by (apply (settled_frame w); auto; [discriminate|cbn; lia]).
    rewrite (st_flag w1 Hs1); cbn [negb].
    apply (settled_scheduled (to_milkdown content) w1 Hs1).
  - intros t d view Hcb Hm Hne.
    unfold fire; rewrite Hcb; cbn [run_task].
    unfold run_notification, exec; cbn [snd set_clk milkdownEditor].
    rewrite Hm, Hne.
    pose proof (settled_fired w t Hs) as Hf.
    unfold md_updated; rewrite (st_flag _ Hf); cbn [negb].
    destruct (settled_scheduled to_codemirror _ Hf) as [_ Hp].
    unfold pending_debounced in *; cbn [set_milkdownEditor clk].
    exact Hp.
Qed.

End AppRuns.

(** *** The word count *)

Section WordCountFacts.

Import WordCount.

Lemma runs_nonneg s inside : 0 <= runs s inside.
Proof.
  revert inside; induction s as [|c r IH]; intros inside; cbn [runs].
  - destruct inside; lia.
  - destruct (is_space c); [specialize (IH false); destruct inside|apply IH];
      lia.
Qed.

Lemma runs_inside s : 1 <= runs s true.
Proof.
  induction s as [|c r IH]; cbn [runs]; [lia|].
  destruct (is_space c); [pose proof (runs_nonneg r false)|]; lia.
Qed.

Lemma count_split s piece in_separator :
  (in_separator = true -> piece = []) ->
  alength (filter (fun word => JS.length word >? 0)
             (split_spaces s piece in_separator)) =
  runs s (negb (match piece with [] => true | _ => false end)).
Proof.
  assert (Hpiece : forall p : jsstring,
            (JS.length (rev p) >? 0) =
            negb (match p with [] => true | _ => false end)).
  { intros [|x p]; [reflexivity|].
    unfold JS.length; rewrite length_rev; cbn [List.length negb].
    apply Z.gtb_lt; lia. }
  revert piece in_separator; induction s as [|c r IH];
    intros piece in_separator Hsep; cbn [split_spaces runs].
  - cbn [filter]; rewrite Hpiece.
    destruct piece; reflexivity.
  - destruct (is_space c).
    + destruct in_separator.
      * rewrite (Hsep eq_refl), IH by reflexivity; reflexivity.
      * cbn [filter]; rewrite Hpiece.
        destruct piece; cbn [negb]; unfold alength in *; cbn [List.length];
          rewrite ?Nat2Z.inj_succ; rewrite (IH [] true) by reflexivity;
          cbn [negb]; lia.
    + rewrite IH by discriminate; reflexivity.
Qed.

Lemma runs_trimStart s : runs (trimStart s) false = runs s false.
Proof.
  induction s as [|c r IH]; cbn [trimStart runs]; [reflexivity|].
  destruct (is_space c) eqn:Hc; [exact IH|].
  cbn [runs]; now rewrite Hc.
Qed.

Lemma runs_blank s inside :
  forallb is_space s = true -> runs s inside = if inside then 1 else 0.
Proof.
  revert inside; induction s as [|c r IH]; intros inside; cbn [forallb runs];
    [reflexivity|].
  intros H; apply andb_true_iff in H; destruct H as [Hc Hr].
  rewrite Hc, (IH false Hr); lia.
Qed.

Lemma runs_app_blank a ws inside :
  forallb is_space ws = true -> runs (a ++ ws) inside = runs a inside.
Proof.
  intros Hws; revert inside; induction a as [|c r IH]; intros inside;
    cbn [app runs].
  - now apply runs_blank.
  - destruct (is_space c); now rewrite IH.
Qed.

Lemma trimStart_split s :
  exists ws, forallb is_space ws = true /\ s = ws ++ trimStart s.
Proof.
  induction s as [|c r (ws & Hws & Hr)]; [exists []; auto|].
  cbn [trimStart]; destruct (is_space c) eqn:Hc.
  - exists (c :: ws); cbn [forallb app]; rewrite Hc, Hws, <- Hr; auto.
  - exists []; auto.
Qed.

Lemma runs_trim s : runs (trim s) false = runs s false.
Proof.
  unfold trim; rewrite <- (runs_trimStart s).
  set (t := trimStart s).
  destruct (trimStart_split (rev t)) as (ws & Hws & Hs).
  apply (f_equal (@rev code_unit)) in Hs.
  rewrite rev_involutive, rev_app_distr in Hs.
  set (u := rev (trimStart (rev t))) in *.
  rewrite Hs, runs_app_blank; [reflexivity|].
  rewrite forallb_forall in *; intros x Hx; apply Hws.
  now apply in_rev.
Qed.

Lemma wordCount_runs content : wordCount content = runs content false.
Proof.
  unfold wordCount, words, split.
  rewrite count_split by discriminate; apply runs_trim.
Qed.

Lemma runs_separated a c b inside :
  is_space c = true ->
  runs (a ++ c :: b) inside = runs a inside + runs b false.
Proof.
  intros Hc; revert inside; induction a as [|x a IH]; intros inside;
    cbn [app runs].
  - now rewrite Hc.
  - destruct (is_space x); rewrite IH; lia.
Qed.

(** X23. The word count is 0 exactly for a text that holds nothing but white
    space, the empty text included. *)
Theorem wordCount_zero (content : jsstring) :
  wordCount content = 0 <-> forallb is_space content = true.
Proof.
  rewrite wordCount_runs; split.
  - induction content as [|c r IH]; cbn [runs forallb]; [reflexivity|].
    destruct (is_space c); [cbn [andb]; exact IH|].
    pose proof (runs_inside r); lia.
  - intros H; now rewrite runs_blank.
Qed.

(** X24. A text without white space that is not empty counts as one word. *)
Theorem wordCount_one (content : jsstring) :
  content <> [] ->
  forallb (fun c => negb (is_space c)) content = true ->
  wordCount content = 1.
Proof.
  rewrite wordCount_runs.
  assert (H : forall s inside,
            forallb (fun c => negb (is_space c)) s = true ->
            (s <> [] \/ inside = true) -> runs s inside = 1).
  { induction s as [|c r IH]; intros inside; cbn [forallb runs].
    - intros _ [H|H]; [now destruct H|now rewrite H].
    - intros Hall _; apply andb_true_iff in Hall; destruct Hall as [Hc Hr].
      apply negb_true_iff in Hc; rewrite Hc; apply IH; auto. }
  intros Hne Hall; apply H; auto.
Qed.

(** X25. White space between two texts separates their words: the count of the
    whole is the sum of the counts of the two parts, whatever white space
    the parts begin or end with. *)
Theorem wordCount_additive (before after : jsstring) (c : code_unit) :
  is_space c = true ->
  wordCount (before ++ c :: after) = wordCount before + wordCount after.
Proof.
  intros Hc; rewrite !wordCount_runs; now apply runs_separated.
Qed.

End WordCountFacts.

(** *** The slash menu *)

Section SlashMenuFacts.

Import SlashMenu.

Context {Item : Type}.
Variable label : Item -> jsstring.
Variable toLowerCase : jsstring -> jsstring.

Lemma getTotalItems_from (gs : list (group Item)) (acc : Z) :
  fold_left (fun acc g => acc + alength (items g)) gs acc =
  acc + alength (entries gs).
Proof.
  unfold entries, alength; revert acc.
  induction gs as [|g gs IH]; intros acc; cbn [fold_left map concat].
  - cbn; lia.
  - rewrite IH, List.length_app; lia.
Qed.

Lemma item_in_group_spec (its : list Item) (count index : Z) :
  count <= index ->
  item_in_group its count index =
  match nth_error its (Z.to_nat (index - count)) with
  | Some item => inl item
  | None => inr (count + alength its)
  end.
Proof.
  unfold alength; revert count.
  induction its as [|item r IH]; intros count Hle; cbn [item_in_group].
  - destruct (Z.to_nat (index - count)); cbn; f_equal; lia.
  - destruct (Z.eqb_spec count index) as [->|Hne].
    + now rewrite Z.sub_diag.
    + rewrite IH by lia.
      replace (Z.to_nat (index - count))
        with (S (Z.to_nat (index - (count + 1)))) by lia.
      cbn [nth_error List.length].
      destruct (nth_error r _); [reflexivity|f_equal; lia].
Qed.

Lemma item_in_group_past (its : list Item) (count index : Z) :
  index < count -> item_in_group its count index = inr (count + alength its).
Proof.
  unfold alength; revert count.
  induction its as [|item r IH]; intros count Hlt; cbn [item_in_group].
  - cbn; f_equal; lia.
  - destruct (Z.eqb_spec count index); [lia|].
    rewrite IH by lia; cbn [List.length]; f_equal; lia.
Qed.

Lemma item_in_groups_past (gs : list (group Item)) (count index : Z) :
  index < count -> item_in_groups gs count index = None.
Proof.
  revert count; induction gs as [|g gs IH]; intros count Hlt;
    cbn [item_in_groups]; [reflexivity|].
  rewrite item_in_group_past by exact Hlt.
  apply IH; unfold alength; lia.
Qed.

Lemma item_in_groups_spec (gs : list (group Item)) (count index : Z) :
  count <= index ->
  item_in_groups gs count index =
  nth_error (entries gs) (Z.to_nat (index - count)).
Proof.
  unfold entries; revert count.
  induction gs as [|g gs IH]; intros count Hle;
    cbn [item_in_groups map concat].
  - now destruct (Z.to_nat (index - count)).
  - rewrite item_in_group_spec by exact Hle.
    destruct (nth_error (items g) (Z.to_nat (index - count))) as [item|] eqn:Hn.
    + rewrite nth_error_app1 by (apply nth_error_Some; congruence).
      now rewrite Hn.
    + apply nth_error_None in Hn.
      rewrite nth_error_app2 by exact Hn.
      unfold alength.
      destruct (Z.le_gt_cases (count + Z.of_nat (List.length (items g))) index).
      * rewrite IH by assumption; f_equal; lia.
      * lia.
Qed.

Lemma getItemByIndex_index (shown : list (group Item)) (index : Z) :
  getItemByIndex shown index = JS.index (entries shown) index.
Proof.
  unfold getItemByIndex, JS.index.
  destruct (Z.ltb_spec index 0) as [Hneg|Hpos].
  - now apply item_in_groups_past.
  - rewrite item_in_groups_spec by exact Hpos; now rewrite Z.sub_0_r.
Qed.

Lemma getTotalItems_entries (shown : list (group Item)) :
  getTotalItems shown = alength (entries shown).
Proof. unfold getTotalItems; now rewrite getTotalItems_from. Qed.

(** X26. The nested loops of [getItemByIndex] number the entries of all
    groups in the order they are drawn: the result is the entry at that
    position of the flattened list, [null] for any other index, and
    [getTotalItems] is the length of that list. *)
Theorem getItemByIndex_flat (shown : list (group Item)) (index : Z) :
  getItemByIndex shown index = JS.index (entries shown) index
  /\ getTotalItems shown = alength (entries shown)
  /\ (getItemByIndex shown index <> None <->
      0 <= index < getTotalItems shown).
Proof.
  split; [apply getItemByIndex_index|split; [apply getTotalItems_entries|]].
  rewrite getItemByIndex_index, getTotalItems_entries.
  unfold JS.index, alength.
  destruct (Z.ltb_spec index 0) as [Hneg|Hpos].
  - split; [congruence|lia].
  - rewrite nth_error_Some; lia.
Qed.

Lemma entries_filtered (f : Item -> bool) (gs : list (group Item)) :
  entries
    (filter (fun g => alength (items g) >? 0)
       (map (fun g => {| group_label := group_label g;
                         items := filter f (items g) |}) gs)) =
  filter f (entries gs).
Proof.
  unfold entries; induction gs as [|g gs IH]; cbn [map filter concat];
    [reflexivity|].
  rewrite filter_app, <- IH; cbn [items].
  destruct (filter f (items g)) as [|x l] eqn:Hf.
  - reflexivity.
  - replace (alength (x :: l) >? 0) with true
      by (symmetry; apply Z.gtb_lt; unfold alength; cbn [List.length]; lia).
    cbn [map concat items]; reflexivity.
Qed.

(** X27. With a filter typed in, the menu shows exactly the entries whose label
    contains the filter, case put aside, in their old order, and no group
    without an entry; with the empty filter it shows everything. *)
Theorem filteredItems_shows_matches (filter_value : jsstring)
  (props_items : list (group Item)) :
  let shown := filteredItems label toLowerCase filter_value props_items in
  let matches item :=
    includes (toLowerCase (label item)) (toLowerCase filter_value) in
  (filter_value = [] -> shown = props_items)
  /\ (filter_value <> [] ->
      entries shown = filter matches (entries props_items)
      /\ Forall (fun g => items g <> []) shown).
Proof.
  cbv zeta; split.
  - intros ->; reflexivity.
  - intros Hne; unfold filteredItems.
    destruct filter_value as [|c r]; [now destruct Hne|].
    split; [apply entries_filtered|].
    apply Forall_forall; intros g Hg.
    apply filter_In in Hg; destruct Hg as [_ Hg].
    apply Z.gtb_lt in Hg; intros Hnil; rewrite Hnil in Hg.
    unfold alength in Hg; cbn in Hg; lia.
Qed.

(** X28. While the highlighted index points at an entry of the menu, every key
    keeps it there, and Enter hands exactly that entry to [handleSelect]; the
    filter is not changed by any key. *)
Theorem handleKeyDown_keeps_index (props_items : list (group Item))
  (e : key) (st : state Item) :
  let shown := filteredItems label toLowerCase (filter_value st) props_items in
  0 <= selectedIndex st < getTotalItems shown ->
  let st' := handleKeyDown label toLowerCase props_items e st in
  0 <= selectedIndex st' < getTotalItems shown
  /\ filter_value st' = filter_value st
  /\ (e = Enter ->
      exists item,
        nth_error (entries shown) (Z.to_nat (selectedIndex st)) = Some item
        /\ selected st' = selected st ++ [item])
  /\ (e <> Enter -> selected st' = selected st).
Proof.
  cbv zeta; intros Hin.
  set (shown := filteredItems label toLowerCase (filter_value st) props_items)
    in *.
  pose proof (getItemByIndex_index shown (selectedIndex st)) as Hflat.
  pose proof (getTotalItems_entries shown) as Htotal.
  destruct e; unfold handleKeyDown; fold shown; cbn [selectedIndex filter_value selected].
  - split; [lia|split; [reflexivity|split; [discriminate|reflexivity]]].
  - split; [lia|split; [reflexivity|split; [discriminate|reflexivity]]].
  - destruct (getItemByIndex shown (selectedIndex st)) as [item|] eqn:Hget.
    + cbn [selectedIndex filter_value selected].
      split; [lia|split; [reflexivity|split; [|congruence]]].
      intros _; exists item; split; [|reflexivity].
      rewrite index_nat in Hflat by lia; now rewrite <- Hflat.
    + exfalso; rewrite index_nat in Hflat by lia.
      symmetry in Hflat; apply nth_error_None in Hflat.
      unfold alength in Htotal; lia.
  - split; [lia|split; [reflexivity|split; [discriminate|reflexivity]]].
Qed.

(** X29. With nothing to show, ArrowDown moves the index below zero, to -1, where
    no entry is: Enter then selects nothing. *)
Theorem ArrowDown_on_empty_menu (props_items : list (group Item))
  (st : state Item) :
  let shown := filteredItems label toLowerCase (filter_value st) props_items in
  getTotalItems shown = 0 ->
  0 <= selectedIndex st ->
  let st' := handleKeyDown label toLowerCase props_items ArrowDown st in
  selectedIndex st' = -1
  /\ handleKeyDown label toLowerCase props_items Enter st' = st'.
Proof.
  cbv zeta; intros Htotal Hpos.
  assert (Hst : handleKeyDown label toLowerCase props_items ArrowDown st =
                {| selectedIndex := -1; filter_value := filter_value st;
                   selected := selected st |}).
  { unfold handleKeyDown; rewrite Htotal; f_equal; lia. }
  rewrite Hst; split; [reflexivity|].
  unfold handleKeyDown; cbn [filter_value selectedIndex].
  unfold getItemByIndex; now rewrite item_in_groups_past by lia.
Qed.

End SlashMenuFacts.
(** *** From Milkdown to CodeMirror, through the event loop *)

Section Back.

Import SyncManager SyncManagerSpec SyncManagerTiming Timers Eff.

Context {E : Engine}.

(** X16. An edit in Milkdown reaches CodeMirror. When the flag is clear and
    neither a debounced callback nor a handler of the listener plugin is
    pending, a transaction that changes the document is announced 200 ms
    later; when the debounce delay has passed as well, and however long one
    waits then, the page has run exactly one synchronisation, from
    Milkdown: CodeMirror shows the lines of the markdown the document
    serializes to, and Milkdown keeps the edited document. *)
Theorem milkdown_edit_reaches_codemirror (inputs : list input)
  (content0 : jsstring) (doc0 : Doc) (d : Doc) (sel : Z * Z)
  (markdown : jsstring) (dt : Z) :
  isUpdating (this (run inputs (initial content0 doc0))) = false ->
  isInternalUpdate (md (run inputs (initial content0 doc0))) = false ->
  pending_syncs (run inputs (initial content0 doc0)) = [] ->
  pending_notifications (run inputs (initial content0 doc0)) = [] ->
  serializer d = Some markdown ->
  sameDoc (prevDoc (md (run inputs (initial content0 doc0)))) d = false ->
  differs markdown (prevMarkdown (md (run inputs (initial content0 doc0))))
    = true ->
  listener_delay
    + Z.max 0 (syncDelay (this (run inputs (initial content0 doc0)))) <= dt ->
  let w := run inputs (initial content0 doc0) in
  let w' := advance dt (user_edits d sel w) in
  syncs w' = syncs w ++ [Sync milkdown markdown User]
  /\ md_doc (md w') = d
  /\ (codemirrorEditor (this w) = true ->
      cm_doc (cm w') = landed (cm_doc (cm w)) markdown).
Proof.
  intros Hf Hi Hnone Hquiet Hs Hc Hn Hdt; cbv zeta.
  set (w := run inputs (initial content0 doc0)) in *.
  assert (Hwf : WF w) by apply WF_run, WF_initial.
  set (w1 := user_edits d sel w).
  assert (Hwf1 : WF w1) by now apply WF_user_edits.
  assert (Hcar : carried (now (clk w1) + Z.max 0 dt) w1 d User markdown w1).
  { split; [exact Hwf1|split; [reflexivity|left]].
    apply user_edits_waiting; auto.
    change (now (clk w1)) with (now (clk w)); lia. }
  destruct (carried_advance dt w1 d User markdown Hs Hc Hn Hcar)
    as (Hmd & Hsy & _ & _ & Hcm).
  conjuncts; [exact Hsy|rewrite Hmd; reflexivity|exact Hcm].
Qed.

(** X14. An edit in Milkdown followed, before the handler of the listener
    plugin has run, by an edit in CodeMirror whose debounced callback is due
    after that handler. The handler runs first, and [handleMilkdownChange]
    clears the timer of the CodeMirror edit: that edit is never synchronised.
    When the debounce delay after the handler has passed, and however long
    one waits then, the page has run exactly one synchronisation, from
    Milkdown: Milkdown keeps its document, and the text typed in CodeMirror
    is replaced by the lines of the markdown of that document. *)
Theorem milkdown_handler_cancels_codemirror_edit (inputs : list input)
  (content0 : jsstring) (doc0 : Doc) (d : Doc) (sel : Z * Z)
  (markdown content : jsstring) (head gap dt : Z) :
  isUpdating (this (run inputs (initial content0 doc0))) = false ->
  isInternalUpdate (md (run inputs (initial content0 doc0))) = false ->
  pending_syncs (run inputs (initial content0 doc0)) = [] ->
  pending_notifications (run inputs (initial content0 doc0)) = [] ->
  serializer d = Some markdown ->
  sameDoc (prevDoc (md (run inputs (initial content0 doc0)))) d = false ->
  differs markdown (prevMarkdown (md (run inputs (initial content0 doc0))))
    = true ->
  0 <= gap < listener_delay ->
  listener_delay
    < gap + Z.max 0 (syncDelay (this (run inputs (initial content0 doc0)))) ->
  listener_delay
    + Z.max 0 (syncDelay (this (run inputs (initial content0 doc0))))
    <= gap + dt ->
  let w := run inputs (initial content0 doc0) in
  let w2 := user_types content head (advance gap (user_edits d sel w)) in
  let w' := advance dt w2 in
  (exists id,
      debounceTimer (this w2) = Some id
      /\ pending_syncs w2
         = [mk id (now (clk w) + gap + Z.max 0 (syncDelay (this w)))
              (sync_to_milkdown content User)])
  /\ syncs w' = syncs w ++ [Sync milkdown markdown User]
  /\ md_doc (md w') = d
  /\ (codemirrorEditor (this w) = true ->
      cm_doc (cm w') = landed content markdown).
Proof.
  intros Hf Hi Hnone Hquiet Hs Hc Hn Hgap Hlate Hdt; cbv zeta.
  set (w := run inputs (initial content0 doc0)) in *.
  assert (Hwf : WF w) by apply WF_run, WF_initial.
  set (w1 := user_edits d sel w).
  assert (Hwf1 : WF w1) by now apply WF_user_edits.
  set (bound := now (clk w) + gap + Z.max 0 dt).
  assert (Hw1 : waiting bound w1 d User w1).
  { apply user_edits_waiting; auto; unfold bound; lia. }
  assert (Hn1 : pending_notifications w1
                = [mk (next_id (clk w)) (now (clk w) + listener_delay)
                     (notification d User)]).
  { unfold pending_notifications in *; unfold w1, user_edits, schedule, setTimeout.
    cbn [snd set_clk set_md clk pending]; rewrite filter_app, Hquiet.
    reflexivity. }
  destruct (waiting_advance bound w1 d User markdown Hs Hc Hn gap w1 Hwf1 Hw1)
    as (Hwfa & Hmda & Hwa & Hnowa & Hna).
  { intros n Hin; rewrite Hn1 in Hin; destruct Hin as [<-|[]].
    change (now (clk w1)) with (now (clk w)); cbn [mk t_due]; lia. }
  set (wa := advance gap w1) in *.
  change (now (clk w1)) with (now (clk w)) in Hnowa.
  assert (Hda : syncDelay (this wa) = syncDelay (this w))
    by (destruct Hwa as (_ & H & _); exact H).
  destruct (user_types_waiting bound w1 d User content head wa Hwfa Hwa)
    as (Hw2 & Hpd2 & Hpm2 & Hmd2 & Hsy2 & Hed2 & Hcm2 & Hnow2 & Hh2 & Hp2).
  { intros u Hu; rewrite Hna, Hn1 in Hu; destruct Hu as [<-|[]].
    cbn [mk t_due]; rewrite Hnowa, Hda; lia. }
  set (w2 := user_types content head wa) in *.
  assert (Hwf2 : WF w2).
  { apply WF_handleCodeMirrorChange.
    eapply WF_frame; [| | |exact Hwfa]; reflexivity. }
  assert (Hb : bound = now (clk w2) + Z.max 0 dt)
    by (unfold bound; rewrite Hnow2, Hnowa; lia).
  rewrite Hb in Hw2.
  assert (Hcar : carried (now (clk w2) + Z.max 0 dt) w2 d User markdown w2)
    by (split; [exact Hwf2|split; [reflexivity|now left]]).
  assert (Hc2 : sameDoc (prevDoc (md w2)) d = false)
    by (rewrite Hpd2; exact Hc).
  assert (Hn2 : differs markdown (prevMarkdown (md w2)) = true)
    by (rewrite Hpm2; exact Hn).
  destruct (carried_advance dt w2 d User markdown Hs Hc2 Hn2 Hcar)
    as (Hmd & Hsy & _ & _ & Hcm).
  conjuncts.
  - exists (next_id (clk wa)); split; [exact Hh2|].
    rewrite Hp2, Hnowa, Hda.
    replace (Z.max 0 gap) with gap by lia; reflexivity.
  - rewrite Hsy, Hsy2; reflexivity.
  - rewrite Hmd, Hmd2, Hmda; reflexivity.
  - intros Hed; rewrite Hcm, Hcm2; [reflexivity|].
    rewrite Hed2; exact Hed.
Qed.

End Back.

(** *** The offset handed to Milkdown, for any cursor *)

Section Clamped.

(** X7. [calculateApproximatePosition] is the identity cut to the text: whatever
    the position, the result is the position moved into the range from 0 to
    the length. It is never negative, so the test [approximatePos >= 0] of
    the callback always passes. *)
Theorem calculateApproximatePosition_clamped (content : jsstring)
  (position : Z) :
  calculateApproximatePosition content position =
  Some (Z.max 0 (Z.min position (JS.length content))).
Proof.
  rewrite calculateApproximatePosition_clamps.
  apply calculateApproximatePosition_in_range.
  pose proof (length_nonneg content); lia.
Qed.

End Clamped.

(** *** The object returned by initializeCodeMirror *)

Section Wrappers.

Import SyncManager SyncManagerSpec Timers Eff.

Context {E : Engine}.

(** X17. [setContent] followed by [getContent] gives back the current text when
    it equals the new one, and else the lines of the new text joined by line
    feeds; for a text without carriage returns that is the text itself. A
    [setContent] with the text that [getContent] returns changes nothing at
    all: it dispatches no transaction, so the update listener is not
    notified again. *)
Theorem cm_setContent_round_trip (content : jsstring)
  (w : SyncManager.world) :
  let w1 := snd (cm_setContent content w) in
  fst (cm_setContent content w) = Ok tt
  /\ fst (cm_getContent w1)
     = Ok (if JS.eqb (cm_doc (cm w)) content then content
           else CodeMirror.toText content)
  /\ (CodeMirror.toText content = content ->
      fst (cm_getContent w1) = Ok content)
  /\ cm_setContent (cm_doc (cm w1)) w1 = (Ok tt, w1).
Proof.
  cbv zeta.
  assert (Hdoc : cm_doc (cm (snd (cm_setContent content w)))
                 = if JS.eqb (cm_doc (cm w)) content then content
                   else CodeMirror.toText content).
  { unfold cm_setContent, bind, cm_getContent, read.
    destruct (JS.eqb (cm_doc (cm w)) content) eqn:Heq.
    - now apply eqb_eq in Heq.
    - unfold cm_dispatch_changes, exec; cbn [snd]; cbv zeta.
      set (v := emit _ _).
      destruct (isUpdating (this v)) eqn:Hf.
      + now rewrite handleCodeMirrorChange_suppressed.
      + destruct (handleCodeMirrorChange_idle (CodeMirror.toText content)
                    Programmatic v Hf)
          as (_ & _ & _ & _ & _ & -> & _); reflexivity. }
  conjuncts.
  - unfold cm_setContent, bind, cm_getContent, read.
    destruct (JS.eqb (cm_doc (cm w)) content); reflexivity.
  - unfold cm_getContent, read; cbn [fst]; now rewrite Hdoc.
  - intros Hlines; unfold cm_getContent, read; cbn [fst].
    rewrite Hdoc, Hlines; now destruct (JS.eqb _ _).
  - set (w1 := snd (cm_setContent content w)) in *.
    unfold cm_setContent, bind, cm_getContent, read.
    now rewrite eqb_refl.
Qed.

End Wrappers.

(** *** The draggable divider *)

Section DividerFacts.

Import Divider.




End DividerFacts.

(** *** The status element *)

Section Status.

Import SyncManager SyncManagerSpec SyncManagerTiming Timers Eff.

Context {E : Engine}.

Lemma announced_frame w w' :
  pending (clk w') = pending (clk w) -> status w' = status w ->
  announced w -> announced w'.
Proof.
  unfold announced, pending_syncs; intros -> ->; auto.
Qed.

Lemma announced_dropped w w' id :
  pending (clk w') = drop id (pending (clk w)) -> status w' = status w ->
  announced w -> announced w'.
Proof.
  unfold announced, pending_syncs; intros -> -> [H|H]; [left|now right].
  now rewrite drop_filter, H.
Qed.

Lemma announced_handleCodeMirrorChange content o w :
  announced w -> announced (handleCodeMirrorChange content o w).
Proof.
  intros Ha; unfold handleCodeMirrorChange.
  destruct (isUpdating (this w)); [exact Ha|right; reflexivity].
Qed.

Lemma announced_handleMilkdownChange content o w :
  announced w -> announced (handleMilkdownChange content o w).
Proof.
  intros Ha; unfold handleMilkdownChange.
  destruct (isUpdating (this w)); [exact Ha|right; reflexivity].
Qed.

Lemma announced_run_notification d o w :
  announced w -> announced (snd (run_notification d o w)).
Proof.
  intros Ha; unfold run_notification.
  destruct (sameDoc _ d); [exact Ha|].
  destruct (serializer d) as [markdown|]; [|exact Ha].
  cbn [snd]; unfold md_listener.
  destruct (_ && _); [|exact Ha].
  apply (announced_handleMilkdownChange markdown o w Ha).
Qed.

Lemma announced_fire w t :
  WF w -> announced w -> In t (pending (clk w)) ->
  announced (snd (fire t w)).
Proof.
  intros Hwf Ha Hin.
  pose proof (WF_fire w t Hwf Hin) as Hwf'.
  destruct (t_cb t) as [[content o|content o| |]|d o] eqn:Hcb.
  - left; apply (wf_busy _ Hwf').
    now destruct (fire_sync_to_milkdown w t content o Hwf Hin Hcb) as [-> _].
  - left; apply (wf_busy _ Hwf').
    now destruct (fire_sync_to_codemirror w t content o Hwf Hin Hcb) as [-> _].
  - rewrite (fire_release w t Hcb).
    apply (announced_dropped w _ (t_id t)); [reflexivity|reflexivity|exact Ha].
  - rewrite (fire_internal w t Hcb).
    apply (announced_dropped w _ (t_id t)); [reflexivity|reflexivity|exact Ha].
  - rewrite (fire_notification w t d o Hcb).
    apply announced_run_notification.
    apply (announced_dropped w _ (t_id t)); [reflexivity|reflexivity|exact Ha].
Qed.

Lemma announced_step w i : WF w -> announced w -> announced (step w i).
Proof.
  intros Hwf Ha; destruct i as [content head|d sel|dt|delay|]; cbn [step].
  - apply announced_handleCodeMirrorChange.
    apply (announced_frame w); [reflexivity|reflexivity|exact Ha].
  - destruct Ha as [Ha|Ha]; [left|right; exact Ha].
    unfold pending_syncs, user_edits, schedule, setTimeout in *.
    cbn [snd set_clk set_md clk pending]; rewrite filter_app, Ha.
    reflexivity.
  - pose proof (advance_invariant (fun w => WF w /\ announced w) dt w) as H.
    cbv beta in H; destruct H as [_ H].
    + intros w' t [Hwf' Ha'] Ht; apply next_due_Some in Ht.
      split; [apply WF_fire|apply announced_fire]; tauto.
    + split; assumption.
    + unfold advance; cbv zeta.
      eapply announced_frame; [| |exact H]; reflexivity.
  - apply (announced_frame w); [reflexivity|reflexivity|exact Ha].
  - left; now apply destroy_cancels.
Qed.

Lemma announced_run inputs w :
  WF w -> announced w -> announced (run inputs w).
Proof.
  revert w; induction inputs as [|i inputs IH]; intros w Hwf Ha; [exact Ha|].
  cbn [run fold_left]; apply IH; [now apply WF_step|now apply announced_step].
Qed.

(** X13. As long as a debounced callback is pending the status element says
    Syncing: both handlers write it when they schedule, and nothing else
    writes the status before that callback has run or [destroy] has
    cancelled it. *)
Theorem status_syncing_while_pending (inputs : list input)
  (content0 : jsstring) (doc0 : Doc) :
  pending_syncs (run inputs (initial content0 doc0)) <> [] ->
  status (run inputs (initial content0 doc0)) = syncing.
Proof.
  intros Hne.
  destruct (announced_run inputs (initial content0 doc0)
              (WF_initial content0 doc0) (or_introl eq_refl)) as [H|H];
    [contradiction|exact H].
Qed.

End Status.

(** ** The further theorems at work *)
Section MoreExamples.

Import SyncManager SyncManagerSpec Timers Eff Toy Samples.

Lemma adjustCursorPosition_in_range_witness :
  0 <= 1 <= JS.length ab
  /\ 0 <= adjustCursorPosition ab abc 1 <= JS.length abc.
Proof.
  assert (H : 0 <= 1 <= JS.length ab) by (vm_compute; split; discriminate).
  split; [exact H|apply (adjustCursorPosition_in_range ab abc 1 H)].
Defined.

(** A code unit appended to ["ab"] while the cursor is after the [a]. *)
Lemma adjustCursorPosition_edit_after_cursor_witness :
  1 <= JS.length ab
  /\ adjustCursorPosition (ab ++ []) (ab ++ [99]) 1 = 1.
Proof.
  assert (H : 1 <= JS.length ab) by (vm_compute; discriminate).
  split; [exact H|].
  apply (adjustCursorPosition_edit_after_cursor ab [] [99] 1 H).
Defined.

(** ["ac"] becomes ["bbc"] while the cursor is at the end. *)
Lemma adjustCursorPosition_edit_before_cursor_witness :
  hd_error ([97] ++ [99]) <> hd_error ([98; 98] ++ [99])
  /\ 0 < 2
  /\ JS.length [97] <= 2 <= JS.length ([97] ++ [99])
  /\ adjustCursorPosition ([97] ++ [99]) ([98; 98] ++ [99]) 2 = 3.
Proof.
  assert (H1 : hd_error ([97] ++ [99]) <> hd_error ([98; 98] ++ [99]))
    by discriminate.
  assert (H2 : 0 < 2) by reflexivity.
  assert (H3 : JS.length [97] <= 2 <= JS.length ([97] ++ [99]))
    by (vm_compute; split; discriminate).
  split; [exact H1|split; [exact H2|split; [exact H3|]]].
  apply (adjustCursorPosition_edit_before_cursor [97] [98; 98] [99] 2
           H1 H2 H3).
Defined.

(** ["abc"] cut down to ["ab"] while the cursor is at the end. *)
Lemma adjustCursorPosition_truncation_witness :
  0 <= 3 <= JS.length (ab ++ [99])
  /\ adjustCursorPosition (ab ++ [99]) ab 3 = 2.
Proof.
  assert (H : 0 <= 3 <= JS.length (ab ++ [99]))
    by (vm_compute; split; discriminate).
  split; [exact H|apply (adjustCursorPosition_truncation ab [99] 3 H)].
Defined.

Lemma sync_to_milkdown_succeeds_witness :
  lastSource (this page) <> Some milkdown
  /\ parser abc = Parsed abc
  /\ 0 <= cm_head (cm page) <= JS.length abc
  /\ md_doc (md (snd (run_sync_to_milkdown abc User page))) = abc.
Proof.
  assert (H1 : lastSource (this page) <> Some milkdown) by discriminate.
  assert (H2 : 0 <= cm_head (cm page) <= JS.length abc)
    by (vm_compute; split; discriminate).
  assert (H3 : 0 <= size abc) by (vm_compute; discriminate).
  split; [exact H1|split; [reflexivity|split; [exact H2|]]].
  apply (sync_to_milkdown_succeeds (E := engine) abc User abc page H1
           eq_refl eq_refl eq_refl H2 H3).
Defined.

Lemma sync_to_codemirror_succeeds_witness :
  lastSource (this page) <> Some codemirror
  /\ cm_doc (cm page) <> abc
  /\ CodeMirror.toText abc = abc
  /\ 0 <= cm_head (cm page) <= JS.length (cm_doc (cm page))
  /\ cm (snd (run_sync_to_codemirror abc User page))
     = {| cm_doc := abc;
          cm_head := adjustCursorPosition (cm_doc (cm page)) abc
                       (cm_head (cm page)) |}.
Proof.
  assert (H1 : lastSource (this page) <> Some codemirror) by discriminate.
  assert (H2 : cm_doc (cm page) <> abc) by discriminate.
  assert (H3 : 0 <= cm_head (cm page) <= JS.length (cm_doc (cm page)))
    by (vm_compute; split; discriminate).
  split; [exact H1|split; [exact H2|split; [reflexivity|split; [exact H3|]]]].
  apply (sync_to_codemirror_succeeds (E := engine) abc User page H1
           eq_refl H2 eq_refl H3).
Defined.

Lemma detached_sync_touches_nothing_witness :
  is_sync (sync_to_milkdown abc User) = true
  /\ lastSource (this (destroy page)) = None
  /\ codemirrorEditor (this (destroy page)) = false
  /\ status (snd (run_callback (sync_to_milkdown abc User) (destroy page)))
     = error.
Proof.
  split; [reflexivity|split; [reflexivity|split; [reflexivity|]]].
  apply (detached_sync_touches_nothing (E := engine)
           (sync_to_milkdown abc User) (destroy page) eq_refl eq_refl
           eq_refl).
Defined.

(** The flag set by the sync at 500 ms: its release is due at 600 ms. *)
Lemma flag_held_at_most_100ms_witness :
  isUpdating (this (run [UserTypes abc 3; Wait 500] page)) = true
  /\ exists r,
       pending_releases (run [UserTypes abc 3; Wait 500] page) = [r]
       /\ t_due r <= 600.
Proof.
  assert (H1 : isUpdating (this (run [UserTypes abc 3; Wait 500] page))
               = true) by reflexivity.
  split; [exact H1|].
  destruct (flag_held_at_most_100ms (E := engine) [UserTypes abc 3; Wait 500]
              ab ab H1) as (r & Hr & Hdue & _).
  exists r; split; [exact Hr|exact Hdue].
Defined.

(** An edit typed right after the sync at 500 ms is never synchronised. *)
Lemma edit_while_flag_set_is_lost_witness :
  isUpdating (this (run [UserTypes abc 3; Wait 500] page)) = true
  /\ tree_syncs (advance 1000
                   (user_types a_b 1 (run [UserTypes abc 3; Wait 500] page)))
     = tree_syncs (run [UserTypes abc 3; Wait 500] page).
Proof.
  assert (H1 : isUpdating (this (run [UserTypes abc 3; Wait 500] page))
               = true) by reflexivity.
  split; [exact H1|].
  apply (edit_while_flag_set_is_lost (E := engine)
           [UserTypes abc 3; Wait 500] ab ab a_b 1 1000 H1).
Defined.

Lemma syncToCodeMirror_succeeds_witness :
  App.codemirrorView app_half
    = Some {| App.cm_doc := repeat 97 10; App.cm_head := 5 |}
  /\ serializer (Engine := engine) (repeat 97 20) = Some (repeat 97 20)
  /\ 0 <= 5
  /\ App.isUpdating (App.mgr (snd (App.syncToCodeMirror app_half))) = false.
Proof.
  assert (H : 0 <= 5) by discriminate.
  split; [reflexivity|split; [reflexivity|split; [exact H|]]].
  destruct (syncToCodeMirror_succeeds (E := engine) app_half
              {| App.cm_doc := repeat 97 10; App.cm_head := 5 |}
              {| App.md_doc := (repeat 97 20 : @Doc engine);
                 App.md_selection := (0, 0);
                 App.prevDoc := (repeat 97 20 : @Doc engine) |}
              (repeat 97 20) eq_refl eq_refl eq_refl H)
    as (p & _ & _ & _ & _ & _ & Hflag & _).
  exact Hflag.
Defined.

Lemma serializer_failure_contained_witness :
  serializer (Engine := mute) ab = None
  /\ App.codemirrorView (snd (App.syncToCodeMirror mute_page))
     = Some {| App.cm_doc := ab; App.cm_head := 0 |}.
Proof.
  split; [reflexivity|].
  apply (serializer_failure_contained (E := mute) mute_page
           {| App.cm_doc := ab; App.cm_head := 0 |}
           {| App.md_doc := (ab : @Doc mute); App.md_selection := (0, 0);
              App.prevDoc := (ab : @Doc mute) |}
           eq_refl eq_refl eq_refl).
Defined.

Lemma syncToMilkdown_succeeds_witness :
  parser abc = Parsed abc
  /\ createAndFill = true
  /\ 0 <= 0
  /\ App.isUpdating (App.mgr (snd (App.syncToMilkdown abc app_page))) = false.
Proof.
  assert (H : 0 <= 0) by discriminate.
  assert (H' : 0 <= size abc) by (vm_compute; discriminate).
  split; [reflexivity|split; [reflexivity|split; [exact H|]]].
  destruct (syncToMilkdown_succeeds (E := engine) abc abc app_page
              {| App.md_doc := (ab : @Doc engine);
                 App.md_selection := (0, 0);
                 App.prevDoc := (ab : @Doc engine) |}
              eq_refl eq_refl eq_refl H H H')
    as (newFrom & newTo & _ & _ & _ & _ & _ & _ & _ & _ & Hflag & _).
  exact Hflag.
Defined.

Lemma wordCount_one_witness :
  ab <> [] /\ WordCount.wordCount ab = 1.
Proof.
  assert (H : ab <> []) by discriminate.
  split; [exact H|apply (wordCount_one ab H eq_refl)].
Defined.

(** ["ab abc"] has two words. *)
Lemma wordCount_additive_witness :
  WordCount.is_space 32 = true
  /\ WordCount.wordCount (ab ++ 32 :: abc)
     = WordCount.wordCount ab + WordCount.wordCount abc.
Proof.
  split; [reflexivity|apply (wordCount_additive ab abc 32 eq_refl)].
Defined.

(** ArrowDown on the fresh menu of three entries. *)
Lemma handleKeyDown_keeps_index_witness :
  0 <= SlashMenu.selectedIndex (SlashMenu.initial (Item := jsstring))
    < SlashMenu.getTotalItems
        (SlashMenu.filteredItems (fun l => l) (fun s => s) [] menu)
  /\ 0 <= SlashMenu.selectedIndex
            (SlashMenu.handleKeyDown (fun l => l) (fun s => s) menu
               SlashMenu.ArrowDown SlashMenu.initial)
       < 3.
Proof.
  assert (H : 0 <= SlashMenu.selectedIndex (SlashMenu.initial (Item := jsstring))
              < SlashMenu.getTotalItems
                  (SlashMenu.filteredItems (fun l => l) (fun s => s) [] menu))
    by (vm_compute; split; [discriminate|reflexivity]).
  split; [exact H|].
  apply (handleKeyDown_keeps_index (fun l => l) (fun s => s) menu
           SlashMenu.ArrowDown SlashMenu.initial H).
Defined.

(** ArrowDown on a menu without entries. *)
Lemma ArrowDown_on_empty_menu_witness :
  SlashMenu.getTotalItems
    (SlashMenu.filteredItems (Item := jsstring) (fun l => l) (fun s => s)
       [] []) = 0
  /\ SlashMenu.selectedIndex
       (SlashMenu.handleKeyDown (Item := jsstring) (fun l => l) (fun s => s)
          [] SlashMenu.ArrowDown SlashMenu.initial) = -1.
Proof.
  split; [reflexivity|].
  apply (ArrowDown_on_empty_menu (Item := jsstring) (fun l => l)
           (fun s => s) [] SlashMenu.initial eq_refl).
  discriminate.
Defined.

(** An edit in Milkdown on the fresh page, and 700 ms. *)
Lemma milkdown_edit_reaches_codemirror_witness :
  isUpdating (this page) = false
  /\ pending_syncs page = []
  /\ pending_notifications page = []
  /\ listener_delay + Z.max 0 (syncDelay (this page)) <= 700
  /\ syncs (advance 700 (user_edits abc (3, 3) page))
     = [Sync milkdown abc User]
  /\ md_doc (md (advance 700 (user_edits abc (3, 3) page))) = abc
  /\ cm_doc (cm (advance 700 (user_edits abc (3, 3) page))) = abc.
Proof.
  assert (Hdt : listener_delay + Z.max 0 (syncDelay (this page)) <= 700)
    by (vm_compute; discriminate).
  destruct (milkdown_edit_reaches_codemirror (E := engine) [] ab ab abc (3, 3)
              abc 700 eq_refl eq_refl eq_refl eq_refl eq_refl eq_refl eq_refl
              Hdt) as (H1 & H2 & H3).
  split; [reflexivity|split; [reflexivity|split; [reflexivity|]]].
  split; [exact Hdt|split; [exact H1|split; [exact H2|exact (H3 eq_refl)]]].
Defined.

(** An edit in Milkdown on the fresh page and, 50 ms later, an edit in
    CodeMirror: after 650 ms more CodeMirror shows the text of Milkdown. *)
Lemma milkdown_handler_cancels_codemirror_edit_witness :
  isUpdating (this page) = false
  /\ pending_syncs page = []
  /\ pending_notifications page = []
  /\ 0 <= 50 < listener_delay
  /\ listener_delay < 50 + Z.max 0 (syncDelay (this page))
  /\ listener_delay + Z.max 0 (syncDelay (this page)) <= 50 + 650
  /\ syncs (advance 650
              (user_types a_b 3 (advance 50 (user_edits abc (3, 3) page))))
     = [Sync milkdown abc User]
  /\ cm_doc (cm (advance 650
                   (user_types a_b 3
                      (advance 50 (user_edits abc (3, 3) page))))) = abc.
Proof.
  assert (Hgap : 0 <= 50 < listener_delay) by (vm_compute; intuition discriminate).
  assert (Hlate : listener_delay < 50 + Z.max 0 (syncDelay (this page)))
    by reflexivity.
  assert (Hdt : listener_delay + Z.max 0 (syncDelay (this page)) <= 50 + 650)
    by (vm_compute; discriminate).
  destruct (milkdown_handler_cancels_codemirror_edit (E := engine) [] ab ab
              abc (3, 3) abc a_b 3 50 650 eq_refl eq_refl eq_refl eq_refl
              eq_refl eq_refl eq_refl Hgap Hlate Hdt) as (_ & H2 & _ & H4).
  split; [reflexivity|split; [reflexivity|split; [reflexivity|]]].
  split; [exact Hgap|split; [exact Hlate|split; [exact Hdt|]]].
  split; [exact H2|exact (H4 eq_refl)].
Defined.

Lemma status_syncing_while_pending_witness :
  pending_syncs (run [UserTypes abc 3] page) <> []
  /\ status (run [UserTypes abc 3] page) = syncing.
Proof.
  assert (H : pending_syncs (run [UserTypes abc 3] page) <> [])
    by discriminate.
  split; [exact H|].
  apply (status_syncing_while_pending (E := engine) [UserTypes abc 3] ab ab H).
Defined.

End MoreExamples.
